(** * Knowledge Sync for Open WebUI: the reconciliation engine

    A shallow embedding of [knowledge-sync/sync_knowledge.py] (class
    [KnowledgeSync]) and the properties of its reconciler, definition parser
    and cache store.

    Conventions of the embedding.
    - Python [str] is [string]; the text helpers below follow the behaviour of
      the Python built-ins on 7-bit ASCII text.
    - A Python [dict] is an association list with unique keys kept in
      insertion order (the order matters: the removal scan iterates over
      [existing_files.items()]).
    - [pathlib], [hashlib], [fnmatch], [json] and the HTTP endpoints reached
      through [requests] are library code or remote services; they enter as
      interfaces ([PathLib], [FileSystem], [Hashlib], [JsonLib],
      [RemoteStore]) that the code is written against.
    - The filesystem is a snapshot that does not change during a pass, except
      for the cache file, which is part of the mutable [World].
    - A pass is modelled for the runs in which the environment answers: the
      predicates of [pathlib] that the parser calls ([is_symlink], [exists],
      [is_file], [is_dir], [rglob]) return, the cache file can be written,
      and the cache in memory has the shape the script itself writes
      (collection name, file name, entry).  A run in which one of these
      predicates raises [OSError], in which writing the cache file fails, or
      in which a cache of another shape makes a lookup raise, is not a run
      of the model: the properties of the parser and of a pass are to be
      read for the runs of the model.  The two existence tests that stand
      outside any [try], in [_load_cache] and in [_load_config], are
      modelled with their failure.
    - Every method is a computation in the monad [M]: it threads the [World],
      may raise a Python exception, and emits the chronological list of the
      remote calls, cache-store operations and printed lines it performs.
      [time.sleep] is not modelled. *)

From Stdlib Require Import String Ascii List Bool Arith ZArith Lia.
From Stdlib Require Import DecimalString.
Import ListNotations.
Open Scope string_scope.
Open Scope list_scope.

Set Implicit Arguments.

(* ================================================================== *)
(** * Python built-ins used by the script *)

Module Py.

(** [str.isspace] on one ASCII character: the characters [str.strip()]
    removes. *)
Definition is_space (c : ascii) : bool :=
  let n := nat_of_ascii c in
  ((n =? 32) || ((9 <=? n) && (n <=? 13)) || ((28 <=? n) && (n <=? 31)))%nat.

Fixpoint lstrip (s : string) : string :=
  match s with
  | String c s' => if is_space c then lstrip s' else s
  | EmptyString => EmptyString
  end.

Fixpoint rstrip (s : string) : string :=
  match s with
  | String c s' =>
      match rstrip s' with
      | EmptyString => if is_space c then EmptyString else String c EmptyString
      | t => String c t
      end
  | EmptyString => EmptyString
  end.

(** [s.strip()] *)
Definition strip (s : string) : string := rstrip (lstrip s).

(** [s.startswith(p)] *)
Definition startswith (s p : string) : bool := String.prefix p s.

(** [sub in s] *)
Definition contains (sub s : string) : bool :=
  match String.index 0 sub s with Some _ => true | None => false end.

(** Line boundaries of [str.splitlines] in the ASCII range, apart from the
    pair CR LF which is handled by [splitlines_go]. *)
Definition is_linebreak (c : ascii) : bool :=
  let n := nat_of_ascii c in
  (((10 <=? n) && (n <=? 13)) || ((28 <=? n) && (n <=? 30)))%nat.

Definition snoc (s : string) (c : ascii) : string := s ++ String c EmptyString.

(** [after_cr] is set when the previous character was a carriage return, so
    that a line feed that follows belongs to the same boundary. *)
Fixpoint splitlines_go (after_cr : bool) (cur : string) (s : string) : list string :=
  match s with
  | EmptyString => match cur with EmptyString => [] | _ => [cur] end
  | String c s' =>
      if after_cr && (nat_of_ascii c =? 10)%nat then splitlines_go false cur s'
      else if is_linebreak c then
        cur :: splitlines_go (nat_of_ascii c =? 13)%nat EmptyString s'
      else splitlines_go false (snoc cur c) s'
  end.

(** [s.splitlines()] *)
Definition splitlines (s : string) : list string := splitlines_go false EmptyString s.

(** [s.split(sep, 1)] when [sep in s]: the parts before and after the first
    occurrence. *)
Definition split_once (sep s : string) : option (string * string) :=
  match String.index 0 sep s with
  | Some i =>
      Some (String.substring 0 i s,
            String.substring (i + String.length sep)
                             (String.length s - (i + String.length sep)) s)
  | None => None
  end.

(** [s.replace(old, new, 1)] *)
Definition replace_first (old new s : string) : string :=
  match String.index 0 old s with
  | Some i =>
      String.substring 0 i s ++ new ++
      String.substring (i + String.length old)
                       (String.length s - (i + String.length old)) s
  | None => s
  end.

Definition lower_ascii (c : ascii) : ascii :=
  let n := nat_of_ascii c in
  if ((65 <=? n) && (n <=? 90))%nat then ascii_of_nat (n + 32) else c.

(** [s.lower()] *)
Fixpoint lower (s : string) : string :=
  match s with
  | String c s' => String (lower_ascii c) (lower s')
  | EmptyString => EmptyString
  end.

(** Truth value of an optional string: [None] and [""] are falsy. *)
Definition truthy (o : option string) : bool :=
  match o with
  | Some EmptyString | None => false
  | Some _ => true
  end.

(** [x in xs] for a set or list of strings. *)
Definition mem (x : string) (xs : list string) : bool :=
  existsb (String.eqb x) xs.

(** ** Dictionaries with string keys *)

Definition dict (V : Type) := list (string * V).

Fixpoint get {V} (k : string) (d : dict V) : option V :=
  match d with
  | [] => None
  | (k', v) :: d' => if (k' =? k)%string then Some v else get k d'
  end.

(** [k in d] *)
Definition has {V} (k : string) (d : dict V) : bool :=
  match get k d with Some _ => true | None => false end.

(** [d[k] = v]: an existing key keeps its position. *)
Fixpoint set {V} (k : string) (v : V) (d : dict V) : dict V :=
  match d with
  | [] => [(k, v)]
  | (k', v') :: d' =>
      if (k' =? k)%string then (k, v) :: d' else (k', v') :: set k v d'
  end.

(** [del d[k]]: no binding of [k] is left. *)
Definition del {V} (k : string) (d : dict V) : dict V :=
  filter (fun kv => negb (fst kv =? k)%string) d.

(** A dict comprehension [{k: v for ...}] over a sequence of pairs. *)
Definition of_pairs {V} (l : list (string * V)) : dict V :=
  fold_left (fun d kv => set (fst kv) (snd kv) d) l [].

Definition keys {V} (d : dict V) : list string := map fst d.

End Py.

(* ================================================================== *)
(** * Libraries and services the script is written against *)

(** [pathlib.Path]: construction from a string and the pure accessors. *)
Class PathLib (Path : Type) := {
  mkPath : string -> Path;
  path_str : Path -> string;
  path_name : Path -> string;
  path_stem : Path -> string;
  path_suffix : Path -> string
}.

(** The filesystem snapshot a pass runs against.  [read_text] and
    [read_bytes] return [None] where Python raises. *)
Class FileSystem (Path : Type) := {
  is_symlink : Path -> bool;
  resolve : Path -> Path;
  exists_ : Path -> bool;
  is_file : Path -> bool;
  is_dir : Path -> bool;
  rglob : Path -> list Path;
  read_text : Path -> option string;
  read_bytes : Path -> option (list Byte.byte)
}.

(** [hashlib.sha256(b).hexdigest()], a string of 64 hexadecimal digits, and
    [fnmatch.fnmatch(name, pat)]. *)
Class Hashlib := {
  sha256_hexdigest : list Byte.byte -> string;
  hexdigest_length : forall b, String.length (sha256_hexdigest b) = 64
}.
Class Fnmatch := { fnmatch : string -> string -> bool }.

(** JSON values; [json.loads] returns [None] where Python raises. *)
Unset Elimination Schemes.
Inductive Json : Type :=
| JNull
| JBool (b : bool)
| JNum (literal : string)
| JStr (s : string)
| JArr (items : list Json)
| JObj (members : list (string * Json)).
Set Elimination Schemes.

Class JsonLib := {
  json_loads : string -> option Json;
  json_dumps : Json -> string
}.

(** Outcome of [requests.post] followed by [raise_for_status] on the
    [file/add] endpoint: success, an HTTP error response whose status and
    body the code inspects, or any other exception. *)
Inductive AddResp : Type :=
| AddOk
| AddHTTPError (status : nat) (text : string)
| AddException.

(** The remote endpoints.  Each call may change the remote state [R].  A
    listing or an identifier is [None] when the request, its status check or
    the decoding of its body raises. *)
Class RemoteStore (R : Type) := {
  (* GET  /api/v1/knowledge/ : the items as (name, id) *)
  http_get_knowledge : R -> option (list (string * string)) * R;
  (* POST /api/v1/knowledge/create *)
  http_post_create : string -> R -> option string * R;
  (* GET  /api/v1/knowledge/{kb_id}/files : the items as (filename, id),
     the filename being empty where it is missing or falsy *)
  http_get_files : string -> R -> option (list (string * string)) * R;
  (* POST /api/v1/files/ with the file's name and bytes *)
  http_post_file : string -> list Byte.byte -> R -> option string * R;
  (* POST {qdrant}/collections/{collection}/points/delete with a hash filter *)
  http_post_points_delete : string -> string -> R -> R;
  (* POST /api/v1/knowledge/{kb_id}/file/add *)
  http_post_file_add : string -> string -> R -> AddResp * R;
  (* POST /api/v1/knowledge/{kb_id}/file/remove *)
  http_post_file_remove : string -> string -> R -> bool * R
}.

(* ================================================================== *)
(** * Data model *)

(** A cache entry [{"hash": ..., "file_id": ...}]; a key may be missing in a
    cache file written by hand. *)
Record CacheEntry : Type := mkEntry {
  hash : option string;
  file_id : option string
}.

(** [self.cache]: collection name -> file name -> entry. *)
Definition Cache : Type := Py.dict (Py.dict CacheEntry).

Definition entry_to_json (e : CacheEntry) : Json :=
  JObj ((match hash e with Some h => [("hash", JStr h)] | None => [] end) ++
        (match file_id e with Some i => [("file_id", JStr i)] | None => [] end)).

Definition cache_to_json (c : Cache) : Json :=
  JObj (map (fun kc => (fst kc, JObj (map (fun fe => (fst fe, entry_to_json (snd fe)))
                                          (snd kc)))) c).

(** The cache file on durable storage: absent, there but not readable, or
    there with a text; or behind a path that cannot be examined, so that
    [exists()] raises (a parent directory that may not be searched, a name
    that is too long), whatever text the file may hold. *)
Inductive FileState : Type :=
| Missing
| Unreadable
| Content (text : string)
| NoAccess (held : option string).

(** [self]: the attributes fixed by [__init__] and [_load_config]. *)
Record KnowledgeSync : Type := mkSelf {
  extensions : list string;
  excludes : list string
}.

Definition DEFAULT_EXTENSIONS : list string :=
  [".md"; ".txt"; ".rst"; ".yaml"; ".yml"; ".json"].
Definition DEFAULT_EXCLUDES : list string :=
  ["**/node_modules/**"; "**/.git/**"; "**/__pycache__/**"].

(** Lines the script prints. *)
Inductive Msg : Type :=
| MsgSyncing (dry_run : bool) (collection : string)
| MsgFound (n : nat)
| MsgCreating (collection : string)
| MsgAction (updating : bool) (filename : string)
| MsgRemoving (filename : string)
| MsgFailedToAdd (filename : string)
| MsgWarnPathMissing (path_str : string)
| MsgWarnCache
| MsgWarnDuplicate
| MsgClearing
| MsgErrorFetchingBases
| MsgErrorCreating (name : string)
| MsgErrorFetchingFiles
| MsgErrorUploading (name : string)
| MsgErrorAdding
| MsgErrorRemoving.

Section Engine.

Context {Path : Type} {PL : PathLib Path} {FS : FileSystem Path}.
Context {HL : Hashlib} {FM : Fnmatch} {JL : JsonLib}.
Context {R : Type} {RS : RemoteStore R}.

(** [os.getenv("PATH_PREFIX_MAP", "")] *)
Variable PATH_PREFIX_MAP : string.

(** What a pass does, in order. *)
Inductive Event : Type :=
| GetBases (res : option (list (string * string)))
| PostCreate (name : string) (res : option string)
| GetFiles (kb_id : string) (res : option (list (string * string)))
| PostFile (p : Path) (res : option string)
| PostPointsDelete (collection file_hash : string)
| PostFileAdd (kb_id fid : string) (res : AddResp)
| PostFileRemove (kb_id fid : string) (ok : bool)
| CacheSet (collection filename : string) (e : CacheEntry)
| CacheDel (collection filename : string)
| SaveCache (text : string)
| Print (m : Msg).

(** Remote calls that change the remote store: create, upload, attach,
    detach and purge. *)
Definition is_mutation (ev : Event) : bool :=
  match ev with
  | PostCreate _ _ | PostFile _ _ | PostPointsDelete _ _
  | PostFileAdd _ _ _ | PostFileRemove _ _ _ => true
  | _ => false
  end.

(** The file-level remote operations: upload, attach, detach and purge. *)
Definition is_file_op (ev : Event) : bool :=
  match ev with
  | PostFile _ _ | PostPointsDelete _ _
  | PostFileAdd _ _ _ | PostFileRemove _ _ _ => true
  | _ => false
  end.

Record World : Type := mkWorld {
  remote : R;
  cache : Cache;
  cache_file : FileState
}.

(** The exceptions the modelled code can meet: a definition or source file
    that cannot be read, a cache file that cannot be read, a cache file
    that is not JSON, and a cache path that cannot be examined. *)
Inductive PyExc : Type :=
| FileError (p : Path)
| CacheFileError
| JSONDecodeError
| CachePathError.

Inductive Result (A : Type) : Type :=
| Ok (a : A)
| Raise (e : PyExc).
Arguments Ok {A} a.
Arguments Raise {A} e.

Definition M (A : Type) : Type := World -> Result A * World * list Event.

Definition ret {A} (a : A) : M A := fun w => (Ok a, w, []).

Definition bind {A B} (m : M A) (f : A -> M B) : M B :=
  fun w =>
    match m w with
    | (Ok a, w1, l1) => let '(r, w2, l2) := f a w1 in (r, w2, l1 ++ l2)
    | (Raise e, w1, l1) => (Raise e, w1, l1)
    end.

Definition raise {A} (e : PyExc) : M A := fun w => (Raise e, w, []).

(** [try: m except Exception: h] *)
Definition try_except {A} (m : M A) (h : M A) : M A :=
  fun w =>
    match m w with
    | (Ok a, w1, l1) => (Ok a, w1, l1)
    | (Raise _, w1, l1) => let '(r, w2, l2) := h w1 in (r, w2, l1 ++ l2)
    end.

Definition emit (ev : Event) : M unit := fun w => (Ok tt, w, [ev]).
Definition print (m : Msg) : M unit := emit (Print m).
Definition gets {A} (f : World -> A) : M A := fun w => (Ok (f w), w, []).
Definition set_cache (c : Cache) : M unit :=
  fun w => (Ok tt, mkWorld (remote w) c (cache_file w), []).

(** One request: the remote answers and moves on; the call and its answer
    are recorded. *)
Definition request {A} (f : R -> A * R) (ev : A -> Event) : M A :=
  fun w => let '(a, r) := f (remote w) in
           (Ok a, mkWorld r (cache w) (cache_file w), [ev a]).

Notation "x <- m ;; k" := (bind m (fun x => k))
  (at level 61, m at next level, right associativity).
Notation "m ;; k" := (bind m (fun _ => k))
  (at level 61, right associativity).

(** A [for] loop whose body updates the loop-carried locals. *)
Fixpoint for_each {X S} (xs : list X) (body : X -> S -> M S) (s : S) : M S :=
  match xs with
  | [] => ret s
  | x :: xs' => s' <- body x s ;; for_each xs' body s'
  end.

(* ---------------------------------------------------------------- *)
(** ** Cache store *)

Definition read_cache_file : M string :=
  fun w => match cache_file w with
           | Content t => (Ok t, w, [])
           | _ => (Raise CacheFileError, w, [])
           end.

(** [_load_cache]; the value returned is the one assigned to [self.cache].
    The test [self.cache_file.exists()] comes before the [try]. *)
Definition _load_cache : M Json :=
  st <- gets cache_file ;;
  match st with
  | NoAccess _ => raise CachePathError
  | Missing => ret (JObj [])
  | _ =>
      try_except
        (t <- read_cache_file ;;
         match json_loads t with
         | Some v => ret v
         | None => raise JSONDecodeError
         end)
        (print MsgWarnCache ;; ret (JObj []))
  end.

(** [_save_cache] *)
Definition _save_cache : M unit :=
  c <- gets cache ;;
  let text := json_dumps (cache_to_json c) in
  fun w => (Ok tt, mkWorld (remote w) (cache w) (Content text), [SaveCache text]).

Definition collection_of (c : Cache) (key : string) : Py.dict CacheEntry :=
  match Py.get key c with Some d => d | None => [] end.

Definition entry_of (c : Cache) (key filename : string) : option CacheEntry :=
  Py.get filename (collection_of c key).

(** [if cache_key not in self.cache: self.cache[cache_key] = {}] *)
Definition cache_open (key : string) : M unit :=
  c <- gets cache ;;
  if Py.has key c then ret tt else set_cache (Py.set key [] c).

(** [collection_cache[filename] = e], [collection_cache] being the dict
    stored under [key] in [self.cache]. *)
Definition cache_write (key filename : string) (e : CacheEntry) : M unit :=
  c <- gets cache ;;
  set_cache (Py.set key (Py.set filename e (collection_of c key)) c) ;;
  emit (CacheSet key filename e).

(** [if filename in collection_cache: del collection_cache[filename]] *)
Definition cache_delete (key filename : string) : M unit :=
  c <- gets cache ;;
  if Py.has filename (collection_of c key) then
    set_cache (Py.set key (Py.del filename (collection_of c key)) c) ;;
    emit (CacheDel key filename)
  else ret tt.

(* ---------------------------------------------------------------- *)
(** ** Definition parser *)

Variable self : KnowledgeSync.

(** [_file_hash] *)
Definition _file_hash (path : Path) : string :=
  match read_bytes path with
  | Some content => String.substring 0 16 (sha256_hexdigest content)
  | None => ""
  end.

(** [_is_excluded] *)
Definition _is_excluded (path : Path) : bool :=
  let path_str := path_str path in
  existsb (fun pattern => fnmatch path_str pattern) (excludes self).

(** [_translate_path] *)
Definition _translate_path (path_str : string) : string :=
  let prefix_map := PATH_PREFIX_MAP in
  if negb (prefix_map =? "")%string && Py.contains ":" prefix_map then
    match Py.split_once ":" prefix_map with
    | Some (from_prefix, to_prefix) =>
        if Py.startswith path_str from_prefix
        then Py.replace_first from_prefix to_prefix path_str
        else path_str
    | None => path_str
    end
  else path_str.

Definition accepted (item : Path) : bool :=
  Py.mem (Py.lower (path_suffix item)) (extensions self) && negb (_is_excluded item).

(** [_resolve_path] *)
Definition _resolve_path (path_str : string) : M (list Path) :=
  let translated := _translate_path (Py.strip path_str) in
  let path := mkPath translated in
  let path := if is_symlink path then resolve path else path in
  if negb (exists_ path) then
    print (MsgWarnPathMissing path_str) ;; ret []
  else if is_file path then
    ret (if accepted path then [path] else [])
  else if is_dir path then
    ret (filter (fun item => is_file item && accepted item) (rglob path))
  else ret [].

(** The loop of [_parse_definition] over the lines of the document. *)
Definition parse_line (line : string) (files : list Path) : M (list Path) :=
  let line := Py.strip line in
  if (line =? "")%string || Py.startswith line "#" then ret files
  else
    resolved <- _resolve_path line ;;
    ret (files ++ resolved).

(** [_parse_definition] *)
Definition _parse_definition (md_path : Path) : M (list Path) :=
  match read_text md_path with
  | None => raise (FileError md_path)
  | Some content => for_each (Py.splitlines content) parse_line []
  end.

(* ---------------------------------------------------------------- *)
(** ** Remote store client *)

(** [_get_knowledge_bases] *)
Definition _get_knowledge_bases : M (Py.dict string) :=
  res <- request http_get_knowledge GetBases ;;
  match res with
  | Some items => ret (Py.of_pairs items)
  | None => print MsgErrorFetchingBases ;; ret []
  end.

(** [_create_knowledge_base] *)
Definition _create_knowledge_base (name : string) : M (option string) :=
  res <- request (http_post_create name) (PostCreate name) ;;
  match res with
  | Some id => ret (Some id)
  | None => print (MsgErrorCreating name) ;; ret None
  end.

(** [_get_knowledge_files] *)
Definition _get_knowledge_files (kb_id : string) : M (Py.dict string) :=
  res <- request (http_get_files kb_id) (GetFiles kb_id) ;;
  match res with
  | Some items =>
      ret (Py.of_pairs (filter (fun f => negb (fst f =? "")%string) items))
  | None => print MsgErrorFetchingFiles ;; ret []
  end.

(** [_upload_file] *)
Definition _upload_file (file_path : Path) : M (option string) :=
  match read_bytes file_path with
  | None => print (MsgErrorUploading (path_name file_path)) ;; ret None
  | Some content =>
      res <- request (http_post_file (path_name file_path) content)
                     (PostFile file_path) ;;
      match res with
      | Some id => ret (Some id)
      | None => print (MsgErrorUploading (path_name file_path)) ;; ret None
      end
  end.

Definition qdrant_collections : list string :=
  ["open-webui_knowledge"; "open-webui_files"].

(** [_clear_qdrant_duplicates]: every outcome of the request is swallowed. *)
Definition _clear_qdrant_duplicates (file_hash : string) : M bool :=
  for_each qdrant_collections
    (fun collection (_ : unit) =>
       request (fun r => (tt, http_post_points_delete collection file_hash r))
               (fun _ => PostPointsDelete collection file_hash))
    tt ;;
  ret true.

Definition post_file_add (kb_id fid : string) : M AddResp :=
  request (http_post_file_add kb_id fid) (PostFileAdd kb_id fid).

(** [_add_file_to_knowledge] *)
Definition _add_file_to_knowledge (kb_id fid : string) (file_hash : option string)
  : M bool :=
  resp <- post_file_add kb_id fid ;;
  match resp with
  | AddOk => ret true
  | AddHTTPError status text =>
      if (status =? 400)%nat && Py.contains "Duplicate content" text then
        match file_hash with
        | Some (String _ _ as h) =>
            print MsgClearing ;;
            _clear_qdrant_duplicates h ;;
            resp <- post_file_add kb_id fid ;;
            match resp with
            | AddOk => ret true
            | _ => print MsgWarnDuplicate ;; ret false
            end
        | _ => print MsgWarnDuplicate ;; ret false
        end
      else print MsgErrorAdding ;; ret false
  | AddException => print MsgErrorAdding ;; ret false
  end.

(** [_remove_file_from_knowledge] *)
Definition _remove_file_from_knowledge (kb_id fid : string) : M bool :=
  ok <- request (http_post_file_remove kb_id fid) (PostFileRemove kb_id fid) ;;
  if ok then ret true else print MsgErrorRemoving ;; ret false.

(* ---------------------------------------------------------------- *)
(** ** Reconciler *)

(** The locals carried by the loop over [files_to_sync]. *)
Record Locals : Type := mkLocals {
  added : nat;
  updated : nat;
  synced_filenames : list string
}.

(** [not force and cached_hash == file_hash and cached_file_id and
    filename in existing_files] *)
Definition skip_condition (force : bool) (file_hash : string)
           (cached : option CacheEntry) (existing_files : Py.dict string)
           (filename : string) : bool :=
  let cached_hash := match cached with Some e => hash e | None => None end in
  let cached_file_id := match cached with Some e => file_id e | None => None end in
  negb force
  && match cached_hash with Some h => (h =? file_hash)%string | None => false end
  && Py.truthy cached_file_id
  && Py.has filename existing_files.

(** [updated += 1] if the file name is in the remote listing, else
    [added += 1]. *)
Definition count (existing_files : Py.dict string) (filename : string)
           (l : Locals) : Locals :=
  if Py.has filename existing_files
  then mkLocals (added l) (S (updated l)) (synced_filenames l)
  else mkLocals (S (added l)) (updated l) (synced_filenames l).

(** The body of [for file_path in files_to_sync]. *)
Definition process_file (force dry_run : bool) (kb_id : string)
           (existing_files : Py.dict string) (cache_key : string)
           (file_path : Path) (l : Locals) : M Locals :=
  let filename := path_name file_path in
  let file_hash := _file_hash file_path in
  let l := mkLocals (added l) (updated l) (filename :: synced_filenames l) in
  cached <- gets (fun w => entry_of (cache w) cache_key filename) ;;
  if skip_condition force file_hash cached existing_files filename then ret l
  else
    print (MsgAction (Py.has filename existing_files) filename) ;;
    if negb dry_run then
      match read_bytes file_path with
      | None => raise (FileError file_path)
      | Some content =>
          let content_hash := sha256_hexdigest content in
          _clear_qdrant_duplicates content_hash ;;
          uploaded <- _upload_file file_path ;;
          match uploaded with
          | Some (String _ _ as fid) =>
              ok <- _add_file_to_knowledge kb_id fid (Some content_hash) ;;
              if ok then
                cache_write cache_key filename (mkEntry (Some file_hash) (Some fid)) ;;
                ret (count existing_files filename l)
              else
                print (MsgFailedToAdd filename) ;; ret l
          | _ => ret l
          end
      end
    else ret (count existing_files filename l).

(** The body of [for filename, file_id in existing_files.items()]. *)
Definition remove_stale (dry_run : bool) (kb_id cache_key : string)
           (synced : list string) (item : string * string) (removed : nat)
  : M nat :=
  let '(filename, fid) := item in
  if negb (Py.mem filename synced) then
    print (MsgRemoving filename) ;;
    (if negb dry_run then _remove_file_from_knowledge kb_id fid ;; ret tt
     else ret tt) ;;
    cache_delete cache_key filename ;;
    ret (S removed)
  else ret removed.

(** [sync_collection] from the fetch of the remote listing onwards, once
    [kb_id] is known. *)
Definition sync_files (force dry_run : bool) (collection_name kb_id : string)
           (files_to_sync : list Path) : M (nat * nat * nat) :=
  existing_files <- (if dry_run then ret [] else _get_knowledge_files kb_id) ;;
  let cache_key := collection_name in
  cache_open cache_key ;;
  l <- for_each files_to_sync
         (process_file force dry_run kb_id existing_files cache_key)
         (mkLocals 0 0 []) ;;
  removed <- for_each existing_files
               (remove_stale dry_run kb_id cache_key (synced_filenames l)) 0 ;;
  (if negb dry_run then _save_cache else ret tt) ;;
  ret (added l, updated l, removed).

Definition id_of (o : option string) : string :=
  match o with Some s => s | None => "" end.

(** [sync_collection]: returns [(added, updated, removed)]. *)
Definition sync_collection (md_path : Path) (force dry_run : bool)
  : M (nat * nat * nat) :=
  let collection_name := path_stem md_path in
  print (MsgSyncing dry_run collection_name) ;;
  files_to_sync <- _parse_definition md_path ;;
  print (MsgFound (length files_to_sync)) ;;
  match files_to_sync with
  | [] => ret (0, 0, 0)
  | _ :: _ =>
      knowledge_bases <- _get_knowledge_bases ;;
      let kb_id := Py.get collection_name knowledge_bases in
      if negb (Py.truthy kb_id) then
        print (MsgCreating collection_name) ;;
        if negb dry_run then
          kb_id <- _create_knowledge_base collection_name ;;
          if negb (Py.truthy kb_id) then ret (0, 0, 0)
          else sync_files force dry_run collection_name (id_of kb_id) files_to_sync
        else sync_files force dry_run collection_name "dry-run-id" files_to_sync
      else sync_files force dry_run collection_name (id_of kb_id) files_to_sync
  end.

End Engine.

Arguments Ok {Path A} a.
Arguments Raise {Path A} e.

(* ================================================================== *)
(** * Start-up, the driver and the watcher

    [_load_config], [sync_all] and the body of the loop of [watch].  They
    run passes of the engine and print lines of their own; [sys.exit] and a
    failing [stat] end them as exceptions do. *)

(** [pathlib] on directories and [os.stat], as the driver uses them:
    [dir / name], [dir.glob("*.md")] in the order the filesystem yields the
    entries, and [p.stat().st_mtime], [None] where [stat] raises.
    [exists_raises p] tells that [p.exists()] raises instead of answering:
    [stat] fails there with an error that [pathlib] does not read as an
    absent file (a directory that may not be searched, a name that is too
    long); where it is false, [exists_ p] is the answer. *)
Class Directory (Path : Type) := {
  joinpath : Path -> string -> Path;
  glob_md : Path -> list Path;
  st_mtime : Path -> option Z;
  exists_raises : Path -> bool
}.

Definition CONFIG_FILE : string := "config.md".

(** The section of [config.md] the loop of [_load_config] is in. *)
Inductive ConfigSection : Type :=
| NoSection
| ExtensionsSection
| ExcludesSection.

(** The locals of that loop: [section], [self.extensions] (a set, kept
    here in the order of insertion) and [self.excludes]. *)
Record ConfigLocals : Type := mkConfigLocals {
  section : ConfigSection;
  seen_extensions : list string;
  seen_excludes : list string
}.

(** [s.add(x)] on a set of strings. *)
Definition set_add (x : string) (s : list string) : list string :=
  if Py.mem x s then s else s ++ [x].

(** The body of [for line in content.splitlines()] in [_load_config]. *)
Definition config_line (c : ConfigLocals) (line : string) : ConfigLocals :=
  let line := Py.strip line in
  if Py.startswith line "## Extensions" then
    mkConfigLocals ExtensionsSection (seen_extensions c) (seen_excludes c)
  else if Py.startswith line "## Exclude" then
    mkConfigLocals ExcludesSection (seen_extensions c) (seen_excludes c)
  else if Py.startswith line "#" || (line =? "")%string then c
  else
    match section c with
    | ExtensionsSection =>
        if Py.startswith line "." then
          mkConfigLocals (section c) (set_add line (seen_extensions c)) (seen_excludes c)
        else c
    | ExcludesSection =>
        mkConfigLocals (section c) (seen_extensions c) (seen_excludes c ++ [line])
    | NoSection => c
    end.

(** The loop over the lines of [config.md], from the state [__init__]
    leaves: no section, no extension, no exclude pattern. *)
Definition read_config (content : string) : ConfigLocals :=
  fold_left config_line (Py.splitlines content) (mkConfigLocals NoSection [] []).

(** [if not xs: xs = default] *)
Definition or_default (xs default : list string) : list string :=
  match xs with [] => default | _ :: _ => xs end.

(** A line of [config.md] that [_load_config] passes over: blank, or a
    comment that opens neither of the two sections. *)
Definition is_inert (line : string) : bool :=
  let line := Py.strip line in
  negb (Py.startswith line "## Extensions")
  && negb (Py.startswith line "## Exclude")
  && (Py.startswith line "#" || (line =? "")%string).

(** What holds of the extensions and exclude patterns read so far from
    the lines of [config.md]. *)
Definition config_inv (lines : list string) (c : ConfigLocals) : Prop :=
  Forall (fun e => Py.startswith e "." = true /\ In e (map Py.strip lines))
         (seen_extensions c)
  /\ NoDup (seen_extensions c)
  /\ Forall (fun x => x <> "" /\ Py.startswith x "#" = false
                      /\ In x (map Py.strip lines))
            (seen_excludes c).

(** The attributes of a [KnowledgeSync] object that the driver reads, next
    to the extensions and exclude patterns the engine works with. *)
Record Syncer (Path : Type) : Type := mkSyncer {
  knowledge_dir : Path;
  api_url : string;
  api_key : string;
  settings : KnowledgeSync
}.
Arguments mkSyncer {Path} _ _ _ _.
Arguments knowledge_dir {Path} _.
Arguments api_url {Path} _.
Arguments api_key {Path} _.
Arguments settings {Path} _.

Module Driver.

Section Driver.

Context {Path : Type} {PL : PathLib Path} {FS : FileSystem Path} {DL : Directory Path}.
Context {HL : Hashlib} {FM : Fnmatch} {JL : JsonLib}.
Context {R : Type} {RS : RemoteStore R}.

Variable PATH_PREFIX_MAP : string.

(** Lines printed outside [sync_collection].  The two lines of [watch]
    start with the time of day, which is left out. *)
Inductive Said : Type :=
| SaidNoConfig
| SaidConfig (n_extensions n_excludes : nat)
| SaidTitle
| SaidRule
| SaidKnowledgeDir (dir : Path)
| SaidApiUrl (url : string)
| SaidNoApiKey
| SaidApiKeyHint
| SaidNoDefinitions (dir : Path)
| SaidFound (n : nat)
| SaidSummary (dry_run : bool) (total_added total_updated total_removed : nat)
| SaidDefinitionChanged (name : string)
| SaidSourceChanged (name : string).

(** What the driver does, in order: an event of a pass of the engine, or a
    line of its own. *)
Inductive Step : Type :=
| Pass (ev : @Event Path)
| Say (m : Said).

(** What ends the driver early: an exception of the engine, [OSError] from
    [stat] or from an existence test, or [sys.exit(code)]. *)
Inductive Stop : Type :=
| Exc (e : @PyExc Path)
| OSError (p : Path)
| SystemExit (code : nat).

Inductive Outcome (A : Type) : Type :=
| Done (a : A)
| Stopped (s : Stop).
Arguments Done {A} a.
Arguments Stopped {A} s.

Definition D (A : Type) : Type := @World R -> Outcome A * @World R * list Step.

Definition ret {A} (a : A) : D A := fun w => (Done a, w, []).

Definition bind {A B} (m : D A) (f : A -> D B) : D B :=
  fun w =>
    match m w with
    | (Done a, w1, l1) => let '(r, w2, l2) := f a w1 in (r, w2, l1 ++ l2)
    | (Stopped s, w1, l1) => (Stopped s, w1, l1)
    end.

Definition stop {A} (s : Stop) : D A := fun w => (Stopped s, w, []).

Definition say (m : Said) : D unit := fun w => (Done tt, w, [Say m]).

Definition gets {A} (f : @World R -> A) : D A := fun w => (Done (f w), w, []).

(** A method of the engine called from the driver. *)
Definition lift {A} (m : @M Path R A) : D A :=
  fun w =>
    match m w with
    | (Ok a, w1, l1) => (Done a, w1, map Pass l1)
    | (Raise e, w1, l1) => (Stopped (Exc e), w1, map Pass l1)
    end.

Notation "x <- m ;; k" := (bind m (fun x => k))
  (at level 61, m at next level, right associativity).
Notation "m ;; k" := (bind m (fun _ => k))
  (at level 61, right associativity).

Fixpoint for_each {X S} (xs : list X) (body : X -> S -> D S) (s : S) : D S :=
  match xs with
  | [] => ret s
  | x :: xs' => s' <- body x s ;; for_each xs' body s'
  end.

(* ---------------------------------------------------------------- *)
(** ** Configuration *)

(** [_load_config], called once by [__init__]: the value returned holds
    [self.extensions] and [self.excludes].  Neither the existence test nor
    the reading of the file is guarded. *)
Definition _load_config (knowledge_dir : Path) : D KnowledgeSync :=
  let config_path := joinpath knowledge_dir CONFIG_FILE in
  if exists_raises config_path then stop (OSError config_path)
  else if negb (exists_ config_path) then
    say SaidNoConfig ;;
    ret (mkSelf DEFAULT_EXTENSIONS DEFAULT_EXCLUDES)
  else
    match read_text config_path with
    | None => stop (Exc (FileError config_path))
    | Some content =>
        let c := read_config content in
        let extensions := or_default (seen_extensions c) DEFAULT_EXTENSIONS in
        let excludes := or_default (seen_excludes c) DEFAULT_EXCLUDES in
        say (SaidConfig (length extensions) (length excludes)) ;;
        ret (mkSelf extensions excludes)
    end.

(* ---------------------------------------------------------------- *)
(** ** All collections *)

Variable self : Syncer Path.

(** The definition files: [*.md] in the knowledge directory, except
    [config.md] in any letter case. *)
Definition md_files : list Path :=
  filter (fun f => negb (Py.lower (path_name f) =? Py.lower CONFIG_FILE)%string)
         (glob_md (knowledge_dir self)).

(** One collection of [sync_all]: the pass and the running totals. *)
Definition sync_one (force dry_run : bool) (md_file : Path)
           (totals : nat * nat * nat) : D (nat * nat * nat) :=
  let '(total_added, total_updated, total_removed) := totals in
  counts <- lift (sync_collection PATH_PREFIX_MAP (settings self) md_file force dry_run) ;;
  let '(added, updated, removed) := counts in
  ret (total_added + added, total_updated + updated, total_removed + removed).

(** [sync_all] *)
Definition sync_all (force dry_run : bool) : D unit :=
  say SaidTitle ;;
  say SaidRule ;;
  say (SaidKnowledgeDir (knowledge_dir self)) ;;
  say (SaidApiUrl (api_url self)) ;;
  if (api_key self =? "")%string then
    say SaidNoApiKey ;;
    say SaidApiKeyHint ;;
    stop (SystemExit 1)
  else
    match md_files with
    | [] => say (SaidNoDefinitions (knowledge_dir self))
    | _ :: _ =>
        say (SaidFound (length md_files)) ;;
        totals <- for_each md_files (sync_one force dry_run) (0, 0, 0) ;;
        let '(total_added, total_updated, total_removed) := totals in
        say (SaidSummary dry_run total_added total_updated total_removed)
    end.

(* ---------------------------------------------------------------- *)
(** ** The watcher *)

(** [cached_hash and current_hash != cached_hash] for one resolved file,
    [collection_cache] being the cache of the collection. *)
Definition source_changed (collection_cache : Py.dict CacheEntry) (file_path : Path)
  : bool :=
  let current_hash := _file_hash file_path in
  let cached_hash :=
    match Py.get (path_name file_path) collection_cache with
    | Some e => hash e
    | None => None
    end in
  match cached_hash with
  | Some (String _ _ as h) => negb (current_hash =? h)%string
  | _ => false
  end.

(** The body of [for md_file in md_files] in [watch]: [last_check] maps the
    name of a definition file to the modification time seen last. *)
Definition watch_file (md_file : Path) (last_check : Py.dict Z) : D (Py.dict Z) :=
  match st_mtime md_file with
  | None => stop (OSError md_file)
  | Some current_mtime =>
      match Py.get (path_name md_file) last_check with
      | Some seen =>
          if (current_mtime >? seen)%Z then
            say (SaidDefinitionChanged (path_name md_file)) ;;
            lift (sync_collection PATH_PREFIX_MAP (settings self) md_file false false) ;;
            ret tt
          else ret tt
      | None =>
          lift (sync_collection PATH_PREFIX_MAP (settings self) md_file false false) ;;
          ret tt
      end ;;
      let last_check := Py.set (path_name md_file) current_mtime last_check in
      files_to_sync <- lift (_parse_definition PATH_PREFIX_MAP (settings self) md_file) ;;
      let collection_name := path_stem md_file in
      collection_cache <- gets (fun w => collection_of (cache w) collection_name) ;;
      match find (source_changed collection_cache) files_to_sync with
      | Some file_path =>
          say (SaidSourceChanged (path_name file_path)) ;;
          lift (sync_collection PATH_PREFIX_MAP (settings self) md_file false false) ;;
          ret last_check
      | None => ret last_check
      end
  end.

(** One round of [watch]: what is done between two sleeps. *)
Definition watch_round (last_check : Py.dict Z) : D (Py.dict Z) :=
  for_each md_files watch_file last_check.

(* ---------------------------------------------------------------- *)
(** ** Vocabulary of the driver's logs *)

(** The events of the passes in a log of the driver. *)
Definition passes (l : list Step) : list (@Event Path) :=
  flat_map (fun s => match s with Pass ev => [ev] | Say _ => [] end) l.

Definition is_summary (s : Step) : bool :=
  match s with Say (SaidSummary _ _ _ _) => true | _ => false end.

(** [dsat P m]: every run of [m] is related by [P], which relates the world
    before, the world after and the events of the passes. *)
Definition dsat (P : @World R -> @World R -> list (@Event Path) -> Prop) {A} (m : D A)
  : Prop :=
  forall w r w' l, m w = (r, w', l) -> P w w' (passes l).

End Driver.

Arguments Done {Path A} a.
Arguments Stopped {Path A} s.

End Driver.

(* ================================================================== *)
(** * The document indexer: chunking

    [DocumentIndexer._chunk_text] of [indexer/index_docs.py].  The chunk
    size and the overlap are read from the environment with [int], so they
    are any two integers. *)

Module Indexer.

(** A bound of a slice of a sequence of length [len], as Python reads it:
    a negative bound counts from the end, and the result is kept within
    [0 .. len]. *)
Definition slice_bound (len i : Z) : nat :=
  Z.to_nat (if (i <? 0)%Z then Z.max 0 (i + len) else Z.min i len).

(** [s[a:b]] *)
Definition slice (s : string) (a b : Z) : string :=
  let len := Z.of_nat (String.length s) in
  let lo := slice_bound len a in
  let hi := slice_bound len b in
  String.substring lo (hi - lo) s.

(** [if chunk.strip()] *)
Definition not_blank (chunk : string) : bool := negb (Py.strip chunk =? "")%string.

Section Chunking.

Variables CHUNK_SIZE CHUNK_OVERLAP : Z.

(** The [while] loop of [_chunk_text], run for at most [fuel] tests of its
    condition: [None] when the loop is still going after them. *)
Fixpoint chunk_loop (fuel : nat) (text : string) (start : Z) (chunks : list string)
  : option (list string) :=
  match fuel with
  | 0 => None
  | S fuel' =>
      if (start <? Z.of_nat (String.length text))%Z then
        let end_ := (start + CHUNK_SIZE)%Z in
        let chunk := slice text start end_ in
        let chunks := if not_blank chunk then chunks ++ [chunk] else chunks in
        chunk_loop fuel' text (end_ - CHUNK_OVERLAP)%Z chunks
      else Some chunks
  end.

(** [_chunk_text] *)
Definition _chunk_text (fuel : nat) (text : string) : option (list string) :=
  chunk_loop fuel text 0 [].

(** The [k]-th window on the text: [CHUNK_SIZE] characters from the
    position [k * (CHUNK_SIZE - CHUNK_OVERLAP)]. *)
Definition window (text : string) (from : Z) (k : nat) : string :=
  let start := (from + Z.of_nat k * (CHUNK_SIZE - CHUNK_OVERLAP))%Z in
  slice text start (start + CHUNK_SIZE).

End Chunking.

End Indexer.

(* ================================================================== *)
(** * A deterministic fake of the environment

    A small filesystem, a scripted remote store and stand-ins for the
    libraries, on which the engine can be run. *)

Module Fake.

(** Paths are their strings; the accessors split at the last [/] and at the
    last [.] of the name. *)
Fixpoint name_of (acc s : string) : string :=
  match s with
  | EmptyString => acc
  | String c s' =>
      if (nat_of_ascii c =? 47)%nat then name_of EmptyString s'
      else name_of (Py.snoc acc c) s'
  end.

Fixpoint last_dot (i : nat) (s : string) : option nat :=
  match s with
  | EmptyString => None
  | String c s' =>
      match last_dot (S i) s' with
      | Some j => Some j
      | None => if (nat_of_ascii c =? 46)%nat then Some i else None
      end
  end.

Definition suffix_of (p : string) : string :=
  let n := name_of "" p in
  match last_dot 0 n with
  | Some (S j) => String.substring (S j) (String.length n - S j) n
  | _ => ""
  end.

Definition stem_of (p : string) : string :=
  let n := name_of "" p in
  match last_dot 0 n with
  | Some (S j) => String.substring 0 (S j) n
  | _ => n
  end.

#[export] Instance path_lib : PathLib string := {|
  mkPath := fun s => s;
  path_str := fun p => p;
  path_name := name_of "";
  path_stem := stem_of;
  path_suffix := suffix_of
|}.

Definition nl : string := String (ascii_of_nat 10) EmptyString.

(** The files of the snapshot with their contents, and its directories with
    the files below them. *)
Definition files : list (string * string) :=
  [ ("/k/empty.md", "# nothing listed");
    ("/k/notes.md", ("# notes" ++ nl ++ "/docs/a.md")%string);
    ("/k/twice.md", ("/docs/a.md" ++ nl ++ "/docs/a.md")%string);
    ("/k/clash.md", ("/docs/a.md" ++ nl ++ "/other/a.md")%string);
    ("/k/pair.md", ("/docs" ++ nl ++ "/gone.md")%string);
    ("/docs/a.md", "alpha");
    ("/docs/b.txt", "beta");
    ("/docs/c.bin", "gamma");
    ("/other/a.md", "another alpha") ].

Definition dirs : list (string * list string) :=
  [ ("/docs", ["/docs/a.md"; "/docs/b.txt"; "/docs/c.bin"]);
    ("/other", ["/other/a.md"]);
    ("/k", ["/k/empty.md"; "/k/notes.md"; "/k/twice.md"; "/k/clash.md"; "/k/pair.md"]) ].

#[export] Instance file_system : FileSystem string := {|
  is_symlink := fun _ => false;
  resolve := fun p => p;
  exists_ := fun p => Py.has p files || Py.has p dirs;
  is_file := fun p => Py.has p files;
  is_dir := fun p => Py.has p dirs;
  rglob := fun p => match Py.get p dirs with Some l => l | None => [] end;
  read_text := fun p => Py.get p files;
  read_bytes := fun p => option_map list_byte_of_string (Py.get p files)
|}.

(** A stand-in digest: the content preceded by a tag, cut or filled with
    zeros to 64 characters. *)
Fixpoint pad (n : nat) (s : string) : string :=
match n with
| 0 => EmptyString
| S n' =>
    match s with
    | EmptyString => String "0" (pad n' EmptyString)
    | String c s' => String c (pad n' s')
    end
end.

Lemma pad_length n : forall s, String.length (pad n s) = n.
Proof.
induction n as [|n IH]; intros s; simpl; [reflexivity|].
destruct s; simpl; now rewrite IH.
Defined.

#[export] Instance hash_lib : Hashlib := {|
  sha256_hexdigest := fun b => pad 64 ("h:" ++ string_of_list_byte b);
  hexdigest_length := fun b => pad_length 64 _
|}.

(** Shell-style matching with [*] and [?]. *)
Fixpoint glob (pat s : string) : bool :=
  match pat with
  | EmptyString => match s with EmptyString => true | _ => false end
  | String c pat' =>
      if (nat_of_ascii c =? 42)%nat then
        (fix star (t : string) : bool :=
           glob pat' t || match t with
                          | EmptyString => false
                          | String _ t' => star t'
                          end) s
      else
        match s with
        | EmptyString => false
        | String d s' =>
            ((nat_of_ascii c =? 63)%nat || Ascii.eqb c d) && glob pat' s'
        end
  end.

#[export] Instance fn_match : Fnmatch := {| fnmatch := fun name pat => glob pat name |}.

(** Only the empty object is recognised. *)
#[export] Instance json_lib : JsonLib := {|
  json_loads := fun t => if (Py.strip t =? "{}")%string then Some (JObj []) else None;
  json_dumps := fun _ => "{...}"
|}.

(** The remote store: one file listing shared by every collection, upload
    identifiers drawn from a counter, and scripts for the answers of the
    attach, detach and create endpoints. *)
Record Remote : Type := mkRemote {
  bases : list (string * string);
  listing : list (string * string);
  uploads : list (string * string);
  next_id : nat;
  add_script : list AddResp;
  remove_ok : bool;
  create_ok : bool
}.

Definition fresh_id (n : nat) : string :=
  ("file-" ++ NilEmpty.string_of_uint (Nat.to_uint n))%string.

Definition attach (fid : string) (r : Remote) : Remote :=
  match Py.get fid (uploads r) with
  | Some name =>
      mkRemote (bases r) (Py.set name fid (listing r)) (uploads r) (next_id r)
               (tl (add_script r)) (remove_ok r) (create_ok r)
  | None =>
      mkRemote (bases r) (listing r) (uploads r) (next_id r)
               (tl (add_script r)) (remove_ok r) (create_ok r)
  end.

#[export] Instance remote_store : RemoteStore Remote := {|
  http_get_knowledge := fun r => (Some (bases r), r);
  http_post_create := fun name r =>
    if create_ok r then
      (Some ("kb-" ++ name)%string,
       mkRemote (bases r ++ [(name, ("kb-" ++ name)%string)]) (listing r) (uploads r)
                (next_id r) (add_script r) (remove_ok r) (create_ok r))
    else (None, r);
  http_get_files := fun _ r => (Some (listing r), r);
  http_post_file := fun name _ r =>
    (Some (fresh_id (next_id r)),
     mkRemote (bases r) (listing r) (Py.set (fresh_id (next_id r)) name (uploads r))
              (S (next_id r)) (add_script r) (remove_ok r) (create_ok r));
  http_post_points_delete := fun _ _ r => r;
  http_post_file_add := fun _ fid r =>
    match add_script r with
    | [] | AddOk :: _ => (AddOk, attach fid r)
    | resp :: rest =>
        (resp, mkRemote (bases r) (listing r) (uploads r) (next_id r) rest
                        (remove_ok r) (create_ok r))
    end;
  http_post_file_remove := fun _ fid r =>
    if remove_ok r then
      (true, mkRemote (bases r)
                      (filter (fun f => negb (snd f =? fid)%string) (listing r))
                      (uploads r) (next_id r) (add_script r) (remove_ok r)
                      (create_ok r))
    else (false, r)
|}.

Definition self : KnowledgeSync := mkSelf DEFAULT_EXTENSIONS DEFAULT_EXCLUDES.

Definition empty_remote : Remote := mkRemote [] [] [] 0 [] true true.

(** [sync_collection] on the fake, with no path-prefix map. *)
Definition run (md : string) (force dry_run : bool) (w : @World Remote) :=
  sync_collection "" self md force dry_run w.

Definition Outcome (A : Type) : Type :=
(@Result string A * @World Remote * list (@Event string))%type.

Definition result_of {A} (o : Outcome A) : @Result string A := fst (fst o).
Definition world_of {A} (o : Outcome A) : @World Remote := snd (fst o).
Definition log_of {A} (o : Outcome A) : list (@Event string) := snd o.

(** Worlds to start from: nothing synced yet; the worlds left by a first
    live pass over three of the definitions; a remote store that answers
    the next attach with the duplicate-content condition; one that refuses
    every detach while it still lists a file no definition names; one that
    cannot create a collection. *)
Definition w0 : @World Remote := mkWorld empty_remote [] Missing.

Definition w_notes : @World Remote := world_of (run "/k/notes.md" false false w0).
Definition w_pair : @World Remote := world_of (run "/k/pair.md" false false w0).
Definition w_clash : @World Remote := world_of (run "/k/clash.md" false false w0).

Definition w_dup : @World Remote :=
mkWorld (mkRemote [("notes", "kb-notes")] [] [] 0
                  [AddHTTPError 400 "Duplicate content detected"] true true)
        [] Missing.

Definition w_stuck : @World Remote :=
mkWorld (mkRemote [("notes", "kb-notes")]
                  [("a.md", "file-0"); ("b.txt", "file-1")]
                  [("file-0", "a.md"); ("file-1", "b.txt")] 2 [] false true)
        [("notes", [("b.txt", mkEntry (Some "old") (Some "file-1"))])]
        Missing.

Definition w_nocreate : @World Remote :=
mkWorld (mkRemote [] [] [] 0 [] true false) [] Missing.

(** A JSON library for the values a cache is made of, objects and strings.
    An object is written with a comma after each of its members and a
    string between quotes, as it is: the texts of the fixture need no
    escape.  Any other value is written [null], which is not read back. *)
Definition quote : ascii := ascii_of_nat 34.

Fixpoint write_json (j : Json) : string :=
  match j with
  | JStr text => String quote (text ++ String quote EmptyString)
  | JObj members =>
      String "{"
        ((fix write_members (ms : list (string * Json)) : string :=
            match ms with
            | [] => "}"
            | (k, v) :: ms' =>
                String quote (k ++ String quote (":" ++ write_json v ++ ","
                                                   ++ write_members ms'))
            end) members)
  | _ => "null"
  end.

(** The text up to the next quote, and what follows that quote. *)
Fixpoint until_quote (s : string) : option (string * string) :=
  match s with
  | EmptyString => None
  | String c s' =>
      if Ascii.eqb c quote then Some (EmptyString, s')
      else match until_quote s' with
           | Some (text, rest) => Some (String c text, rest)
           | None => None
           end
  end.

(** Reads a value from the head of [s]; within an object, [members] holds
    the members read so far, last first. *)
Fixpoint read_json (fuel : nat) (members : option (list (string * Json)))
         (s : string) : option (Json * string) :=
  match fuel, s with
  | S fuel', String c s' =>
      match members with
      | None =>
          if Ascii.eqb c quote then
            match until_quote s' with
            | Some (text, rest) => Some (JStr text, rest)
            | None => None
            end
          else if Ascii.eqb c "{" then read_json fuel' (Some []) s'
          else None
      | Some acc =>
          if Ascii.eqb c "}" then Some (JObj (rev acc), s')
          else if Ascii.eqb c quote then
            match until_quote s' with
            | Some (k, String colon rest) =>
                if Ascii.eqb colon ":" then
                  match read_json fuel' None rest with
                  | Some (v, String comma rest') =>
                      if Ascii.eqb comma ","
                      then read_json fuel' (Some ((k, v) :: acc)) rest'
                      else None
                  | _ => None
                  end
                else None
            | _ => None
            end
          else None
      end
  | _, _ => None
  end.

Definition plain_json : JsonLib := {|
  json_loads := fun t =>
    match read_json (S (String.length t)) None (Py.strip t) with
    | Some (j, EmptyString) => Some j
    | _ => None
    end;
  json_dumps := write_json
|}.

End Fake.

(* ================================================================== *)
(** * A knowledge directory to run the driver on

    A second small filesystem: a knowledge directory with its [config.md]
    and two definitions, and the documents they name.  The libraries and
    the remote store are those of [Fake]. *)

Module Site.

Import Fake.

Definition config_text : string :=
  ("# Knowledge sync settings" ++ nl ++
   ".txt" ++ nl ++
   "## Extensions" ++ nl ++
   ".md" ++ nl ++
   ".MD" ++ nl ++
   "rst" ++ nl ++
   "## Remarks" ++ nl ++
   ".rst" ++ nl ++
   "  .md  " ++ nl ++
   nl ++
   "## Exclude patterns" ++ nl ++
   "**/drafts/**" ++ nl ++
   "# **/old/**" ++ nl)%string.

Definition files : list (string * string) :=
  [ ("/site/config.md", config_text);
    ("/site/faq.md", "/site/docs/faq.md");
    ("/site/handbook.md", ("# the handbook" ++ nl ++ "/site/docs")%string);
    ("/site/docs/intro.md", "welcome");
    ("/site/docs/faq.md", "questions");
    ("/site/docs/notes.txt", "notes");
    ("/site/docs/drafts/todo.md", "to do") ].

(** A second knowledge directory, [/vault], holds one definition, which
    is there but cannot be read. *)
Definition sealed : list string := ["/vault/sealed.md"].

(** The entries of each directory, and the files below it. *)
Definition children : list (string * list string) :=
  [ ("/site", ["/site/config.md"; "/site/faq.md"; "/site/handbook.md"; "/site/docs"]);
    ("/site/docs", ["/site/docs/intro.md"; "/site/docs/faq.md"; "/site/docs/notes.txt";
                    "/site/docs/drafts"]);
    ("/site/docs/drafts", ["/site/docs/drafts/todo.md"]);
    ("/vault", ["/vault/sealed.md"]) ].

Definition below : list (string * list string) :=
  [ ("/site", ["/site/config.md"; "/site/faq.md"; "/site/handbook.md";
               "/site/docs/intro.md"; "/site/docs/faq.md"; "/site/docs/notes.txt";
               "/site/docs/drafts/todo.md"]);
    ("/site/docs", ["/site/docs/intro.md"; "/site/docs/faq.md"; "/site/docs/notes.txt";
                    "/site/docs/drafts/todo.md"]);
    ("/site/docs/drafts", ["/site/docs/drafts/todo.md"]) ].

#[export] Instance file_system : FileSystem string := {|
  is_symlink := fun _ => false;
  resolve := fun p => p;
  exists_ := fun p => Py.has p files || Py.has p below || Py.mem p sealed;
  is_file := fun p => Py.has p files || Py.mem p sealed;
  is_dir := fun p => Py.has p below;
  rglob := fun p => match Py.get p below with Some l => l | None => [] end;
  read_text := fun p => Py.get p files;
  read_bytes := fun p => option_map list_byte_of_string (Py.get p files)
|}.

(** Every file was last modified at time 7.  Nothing below [/locked] can
    be examined. *)
#[export] Instance directory : Directory string := {|
  joinpath := fun dir name => (dir ++ "/" ++ name)%string;
  glob_md := fun dir =>
    filter (fun p => (Py.has p files || Py.mem p sealed)
                     && (suffix_of p =? ".md")%string)
           (match Py.get dir children with Some l => l | None => [] end);
  st_mtime := fun p => if Py.has p files || Py.mem p sealed then Some 7%Z else None;
  exists_raises := fun p => Py.startswith p "/locked/"
|}.

Definition Outcome (A : Type) : Type :=
(@Driver.Outcome string A * @World Remote * list (@Driver.Step string))%type.

(** [_load_config] on the knowledge directory, and the settings it gives. *)
Definition load_config : Outcome KnowledgeSync :=
  @Driver._load_config string file_system directory Remote "/site" w0.

Definition loaded : KnowledgeSync :=
  match load_config with
  | (Driver.Done cfg, _, _) => cfg
  | _ => self
  end.

Definition syncer : Syncer string :=
  mkSyncer "/site" "http://localhost:8000" "secret" loaded.

Definition anonymous : Syncer string :=
  mkSyncer "/site" "http://localhost:8000" "" loaded.

Definition vault : Syncer string :=
  mkSyncer "/vault" "http://localhost:8000" "secret" loaded.

(** [sync_all] and a round of [watch] on the site, with no path-prefix
    map. *)
Definition run_all (s : Syncer string) (force dry_run : bool) (w : @World Remote)
  : Outcome unit :=
  @Driver.sync_all string path_lib file_system directory hash_lib fn_match json_lib
                   Remote remote_store "" s force dry_run w.

Definition run_round (last_check : Py.dict Z) (w : @World Remote)
  : Outcome (Py.dict Z) :=
  @Driver.watch_round string path_lib file_system directory hash_lib fn_match json_lib
                      Remote remote_store "" syncer last_check w.

(** The world a first live [sync_all] leaves, and the modification times
    the watcher has seen by then. *)
Definition w_synced : @World Remote := snd (fst (run_all syncer false false w0)).

Definition checked : Py.dict Z := [("faq.md", 7%Z); ("handbook.md", 7%Z)].

End Site.

(* ================================================================== *)
(** * Properties of the engine *)

Unset Implicit Arguments.

Section Properties.

Context {Path : Type} {PL : PathLib Path} {FS : FileSystem Path}.
Context {HL : Hashlib} {FM : Fnmatch} {JL : JsonLib}.
Context {R : Type} {RS : RemoteStore R}.

Variable PATH_PREFIX_MAP : string.
Variable self : KnowledgeSync.

Local Abbreviation World := (@World R).
Local Abbreviation Event := (@Event Path).
Local Abbreviation Result := (@Result Path).
Local Abbreviation M := (@M Path R).

(* ---------------------------------------------------------------- *)
(** ** Vocabulary *)

(** Prefixing the log of an outcome. *)
Definition logged {A} (l : list Event) (o : Result A * World * list Event)
: Result A * World * list Event :=
let '(r, w, l') := o in (r, w, l ++ l').

(** [sat P m]: every run of [m] is related by [P], which relates the world
    before, the world after and the log. *)
Definition sat (P : World -> World -> list Event -> Prop) {A} (m : M A) : Prop :=
forall w r w' l, m w = (r, w', l) -> P w w' l.

Definition is_print (ev : Event) : bool :=
  match ev with Print _ => true | _ => false end.

(** A computation that only prints: the world is left as it was. *)
Definition printing (w w' : World) (l : list Event) : Prop :=
  w' = w /\ forallb is_print l = true.

(** The files one path reference stands for: [_resolve_path] without its
    warning. *)
Definition resolve_files (path_str : string) : list Path :=
let path := mkPath (_translate_path PATH_PREFIX_MAP (Py.strip path_str)) in
let path := if is_symlink path then resolve path else path in
if negb (exists_ path) then []
else if is_file path then (if accepted self path then [path] else [])
else if is_dir path then
  filter (fun item => is_file item && accepted self item) (rglob path)
else [].

(** The path references of a definition document: its stripped lines that
    are neither empty nor comments. *)
Definition path_references (content : string) : list string :=
filter (fun line => negb ((line =? "")%string || Py.startswith line "#"))
       (map Py.strip (Py.splitlines content)).

(** The world after the purge of a content hash, and the two requests the
    purge makes. *)
Definition purged (h : string) (w : World) : World :=
mkWorld (http_post_points_delete "open-webui_files" h
           (http_post_points_delete "open-webui_knowledge" h (remote w)))
        (cache w) (cache_file w).

Definition purge_log (h : string) : list Event :=
[PostPointsDelete "open-webui_knowledge" h; PostPointsDelete "open-webui_files" h].

(** The locals once the file name is recorded in [synced_filenames]. *)
Definition seen (filename : string) (l : Locals) : Locals :=
mkLocals (added l) (updated l) (filename :: synced_filenames l).

Definition is_ok (resp : AddResp) : bool :=
match resp with AddOk => true | _ => false end.

(** The duplicate-content condition: status 400 with the words
    "Duplicate content" in the body. *)
Definition is_duplicate (resp : AddResp) : bool :=
match resp with
| AddHTTPError status text =>
    (status =? 400)%nat && Py.contains "Duplicate content" text
| _ => false
end.

(** What [_add_file_to_knowledge kb_id fid h] can do, with its result. *)
Inductive attach_log (kb_id fid h : string) : bool -> list Event -> Prop :=
| attach_first :
    attach_log kb_id fid h true [PostFileAdd kb_id fid AddOk]
| attach_retry (resp1 resp2 : AddResp) (ok : bool) :
    is_duplicate resp1 = true -> is_ok resp2 = ok ->
    attach_log kb_id fid h ok
      (PostFileAdd kb_id fid resp1 :: Print MsgClearing :: purge_log h ++
       PostFileAdd kb_id fid resp2 ::
       (if ok then [] else [Print MsgWarnDuplicate]))
| attach_error (resp1 : AddResp) :
    is_ok resp1 = false -> is_duplicate resp1 = false ->
    attach_log kb_id fid h false [PostFileAdd kb_id fid resp1; Print MsgErrorAdding].

Section FileStep.

Variables (force : bool) (kb_id : string) (existing_files : Py.dict string).
Variables (cache_key : string) (file_path : Path) (l : Locals) (w : World).

Let filename := path_name file_path.
Let file_hash := _file_hash file_path.
Let skip :=
skip_condition force file_hash (entry_of (cache w) cache_key filename)
               existing_files filename.
Let action : Event := Print (MsgAction (Py.has filename existing_files) filename).

(** The entry written for the file under a new remote identifier. *)
Definition new_entry (fid : string) : CacheEntry :=
mkEntry (Some (_file_hash file_path)) (Some fid).

(** The outcomes of [process_file] in a live pass. *)
Inductive file_step : Result Locals -> World -> list Event -> Prop :=
| step_skip :
    skip = true ->
    file_step (Ok (seen filename l)) w []
| step_unreadable :
    skip = false -> read_bytes file_path = None ->
    file_step (Raise (FileError file_path)) w [action]
| step_no_upload content up w' :
    skip = false -> read_bytes file_path = Some content ->
    Py.truthy up = false ->
    cache w' = cache w -> cache_file w' = cache_file w ->
    file_step (Ok (seen filename l)) w'
      (action :: purge_log (sha256_hexdigest content) ++ PostFile file_path up ::
       match up with None => [Print (MsgErrorUploading filename)] | Some _ => [] end)
| step_synced content fid w' attempts :
    skip = false -> read_bytes file_path = Some content ->
    fid <> "" ->
    attach_log kb_id fid (sha256_hexdigest content) true attempts ->
    cache w' = Py.set cache_key
                 (Py.set filename (new_entry fid) (collection_of (cache w) cache_key))
                 (cache w) ->
    cache_file w' = cache_file w ->
    file_step (Ok (count existing_files filename (seen filename l))) w'
      (action :: purge_log (sha256_hexdigest content) ++
       PostFile file_path (Some fid) :: attempts ++
       [CacheSet cache_key filename (new_entry fid)])
| step_not_attached content fid w' attempts :
    skip = false -> read_bytes file_path = Some content ->
    fid <> "" ->
    attach_log kb_id fid (sha256_hexdigest content) false attempts ->
    cache w' = cache w -> cache_file w' = cache_file w ->
    file_step (Ok (seen filename l)) w'
      (action :: purge_log (sha256_hexdigest content) ++
       PostFile file_path (Some fid) :: attempts ++
       [Print (MsgFailedToAdd filename)]).

End FileStep.

Definition is_attach (ev : Event) : bool :=
match ev with PostFileAdd _ _ _ => true | _ => false end.

Definition is_cache_set (ev : Event) : bool :=
match ev with CacheSet _ _ _ => true | _ => false end.

(** Every cache write of the log is preceded by the upload that returned its
    remote identifier and comes right after the successful attachment of
    that identifier. *)
Definition confirmed (l : list Event) : Prop :=
forall l1 key filename e l2,
  l = l1 ++ CacheSet key filename e :: l2 ->
  exists file_path fid kb_id la lb,
    filename = path_name file_path
    /\ e = new_entry file_path fid /\ fid <> ""
    /\ l1 = la ++ PostFile file_path (Some fid) :: lb ++ [PostFileAdd kb_id fid AddOk].

(** The entries of the cache after are those of the cache before or were
    written by a logged cache write. *)
Definition tracked (w w' : World) (l : list Event) : Prop :=
forall key filename e,
  entry_of (cache w') key filename = Some e ->
  entry_of (cache w) key filename = Some e \/ In (CacheSet key filename e) l.

Definition confirmed_writes (w w' : World) (l : list Event) : Prop :=
confirmed l /\ tracked w w' l.

(** The get-or-create phase of [sync_collection]: the identifier of the
    remote collection to work on, or [None] when its creation failed and the
    pass is over. *)
Definition bootstrap (collection_name : string) (dry_run : bool) : M (option string) :=
bind _get_knowledge_bases (fun knowledge_bases =>
  let kb_id := Py.get collection_name knowledge_bases in
  if negb (Py.truthy kb_id) then
    bind (print (MsgCreating collection_name)) (fun _ =>
      if negb dry_run then
        bind (_create_knowledge_base collection_name) (fun kb_id =>
          if negb (Py.truthy kb_id) then ret None else ret (Some (id_of kb_id)))
      else ret (Some "dry-run-id"))
  else ret (Some (id_of kb_id))).

(** [sync_collection] as the sequence of its phases. *)
Definition phases (md : Path) (force dry_run : bool) : M (nat * nat * nat) :=
bind (print (MsgSyncing dry_run (path_stem md))) (fun _ =>
bind (_parse_definition PATH_PREFIX_MAP self md) (fun files_to_sync =>
bind (print (MsgFound (length files_to_sync))) (fun _ =>
  match files_to_sync with
  | [] => ret (0, 0, 0)
  | _ :: _ =>
      bind (bootstrap (path_stem md) dry_run) (fun kb =>
        match kb with
        | None => ret (0, 0, 0)
        | Some kb_id => sync_files force dry_run (path_stem md) kb_id files_to_sync
        end)
  end))).

(** The world with another remote state. *)
Definition with_remote (r : R) (w : World) : World :=
mkWorld r (cache w) (cache_file w).

(** The dictionaries built from the answers of the two listing endpoints. *)
Definition bases_of (res : option (list (string * string))) : Py.dict string :=
match res with Some items => Py.of_pairs items | None => [] end.

Definition listing_of (res : option (list (string * string))) : Py.dict string :=
match res with
| Some items => Py.of_pairs (filter (fun f => negb (fst f =? "")%string) items)
| None => []
end.

Definition fetch_error (m : Msg) (res : option (list (string * string))) : list Event :=
match res with Some _ => [] | None => [Print m] end.

Definition create_error (name : string) (created : option string) : list Event :=
match created with Some _ => [] | None => [Print (MsgErrorCreating name)] end.

(** No event of the log satisfies [f]. *)
Definition avoids (f : Event -> bool) (w w' : World) (l : list Event) : Prop :=
forallb (fun ev => negb (f ev)) l = true.

Definition is_get_files (ev : Event) : bool :=
match ev with GetFiles _ _ => true | _ => false end.

Definition is_detach (ev : Event) : bool :=
match ev with PostFileRemove _ _ _ => true | _ => false end.

(** The entries of the remote listing whose file name was not seen among the
    resolved files. *)
Definition stale (synced : list string) (existing : Py.dict string)
  : list (string * string) :=
filter (fun item => negb (Py.mem (fst item) synced)) existing.

(** The detach requests of a log, as (collection id, file id). *)
Definition detaches (l : list Event) : list (string * string) :=
flat_map (fun ev => match ev with
                    | PostFileRemove kb_id fid _ => [(kb_id, fid)]
                    | _ => []
                    end) l.

(** The world once [cache_open] has made room for the collection, and once
    [_save_cache] has written the cache file. *)
Definition opened (key : string) (w : World) : World :=
if Py.has key (cache w) then w
else mkWorld (remote w) (Py.set key [] (cache w)) (cache_file w).

Definition saved (w : World) : World :=
mkWorld (remote w) (cache w) (Content (json_dumps (cache_to_json (cache w)))).

Definition is_save (ev : Event) : bool :=
match ev with SaveCache _ => true | _ => false end.

(** A computation that neither changes the remote store nor touches the
    cache file. *)
Definition harmless (w w' : World) (l : list Event) : Prop :=
cache_file w' = cache_file w
/\ forallb (fun ev => negb (is_mutation ev || is_save ev)) l = true.

(** Nothing failed in a live pass: every upload and every creation returned
    an identifier and no file was left unattached. *)
Definition clean (ev : Event) : bool :=
match ev with
| PostFile _ res => Py.truthy res
| PostCreate _ res => Py.truthy res
| Print (MsgFailedToAdd _) => false
| _ => true
end.

(** The cache records the file as synced with its current content. *)
Definition in_sync (c : Cache) (key : string) (p : Path) : Prop :=
exists e, entry_of c key (path_name p) = Some e
          /\ hash e = Some (_file_hash p) /\ Py.truthy (file_id e) = true.

(** The paths sent to the upload endpoint, in order. *)
Definition sent_files (l : list Event) : list Path :=
flat_map (fun ev => match ev with PostFile p _ => [p] | _ => [] end) l.

Definition is_upload (ev : Event) : bool :=
match ev with PostFile _ _ => true | _ => false end.

(** The number of cache writes of a log. *)
Definition cache_writes (l : list Event) : nat := length (filter is_cache_set l).

(** The cache operations of the log are made under [key], and the cache of
    every other collection is kept as it was. *)
Definition own_cache_event (key : string) (ev : Event) : bool :=
match ev with
| CacheSet k _ _ | CacheDel k _ => (k =? key)%string
| _ => true
end.

Definition others_kept (key : string) (w w' : World) (l : list Event) : Prop :=
(forall k, k <> key -> Py.get k (cache w') = Py.get k (cache w))
/\ forallb (own_cache_event key) l = true.

(** The events that send a file or record something: an upload, a cache
    write, the writing of the cache file. *)
Definition is_record (ev : Event) : bool :=
is_upload ev || is_cache_set ev || is_save ev.

(* ---------------------------------------------------------------- *)
(** ** The built-ins on examples *)

Example strip_ex : Py.strip "  docs/a.md	 " = "docs/a.md".
Proof. reflexivity. Qed.

Example splitlines_ex :
  Py.splitlines ("# c" ++ String (ascii_of_nat 13) (String (ascii_of_nat 10) "a.md")
                 ++ String (ascii_of_nat 10) (String (ascii_of_nat 10) "b"
                 ++ String (ascii_of_nat 10) ""))
  = ["# c"; "a.md"; ""; "b"].
Proof. reflexivity. Qed.

Example replace_first_ex : Py.replace_first "/home" "/mnt" "/home/x/home" = "/mnt/x/home".
Proof. reflexivity. Qed.

Example split_once_ex : Py.split_once ":" "/a:/b:c" = Some ("/a", "/b:c").
Proof. reflexivity. Qed.

(* ---------------------------------------------------------------- *)
(** ** Facts about dictionaries *)

Lemma get_set_same {V} (k : string) (v : V) (d : Py.dict V) :
  Py.get k (Py.set k v d) = Some v.
Proof.
  induction d as [|[k' v'] d IH]; simpl.
  - now rewrite String.eqb_refl.
  - destruct (k' =? k)%string eqn:E; simpl.
    + now rewrite String.eqb_refl.
    + now rewrite E.
Qed.

Lemma get_set_other {V} (k k0 : string) (v : V) (d : Py.dict V) :
  k <> k0 -> Py.get k0 (Py.set k v d) = Py.get k0 d.
Proof.
  intros Hne. induction d as [|[k' v'] d IH]; simpl.
  - destruct (k =? k0)%string eqn:E; [apply String.eqb_eq in E; contradiction | reflexivity].
  - destruct (k' =? k)%string eqn:E; simpl.
    + apply String.eqb_eq in E; subst k'.
      destruct (k =? k0)%string eqn:E0; [apply String.eqb_eq in E0; contradiction | reflexivity].
    + destruct (k' =? k0)%string; [reflexivity | exact IH].
Qed.

Lemma get_del_same {V} (k : string) (d : Py.dict V) : Py.get k (Py.del k d) = None.
Proof.
  induction d as [|[k' v'] d IH]; simpl; [reflexivity|].
  destruct (k' =? k)%string eqn:E; simpl; [exact IH | now rewrite E].
Qed.

Lemma get_del_other {V} (k k0 : string) (d : Py.dict V) :
  k <> k0 -> Py.get k0 (Py.del k d) = Py.get k0 d.
Proof.
  intros Hne. induction d as [|[k' v'] d IH]; simpl; [reflexivity|].
  destruct (k' =? k)%string eqn:E; simpl.
  - apply String.eqb_eq in E; subst k'.
    destruct (k =? k0)%string eqn:E0; [apply String.eqb_eq in E0; contradiction | exact IH].
  - destruct (k' =? k0)%string; [reflexivity | exact IH].
Qed.

Lemma has_true {V} (k : string) (d : Py.dict V) :
  Py.has k d = true <-> exists v, Py.get k d = Some v.
Proof.
  unfold Py.has. destruct (Py.get k d); split; intros H; eauto; try discriminate.
  destruct H as [v H]; discriminate.
Qed.

Lemma get_in_keys {V} (k : string) (d : Py.dict V) (v : V) :
  Py.get k d = Some v -> In k (Py.keys d).
Proof.
  induction d as [|[k' v'] d IH]; simpl; [discriminate|].
  destruct (k' =? k)%string eqn:E.
  - apply String.eqb_eq in E. now left.
  - intros H. right. now apply IH.
Qed.

Lemma in_keys_has {V} (k : string) (d : Py.dict V) :
  In k (Py.keys d) -> Py.has k d = true.
Proof.
  unfold Py.has. induction d as [|[k' v'] d IH]; simpl; [tauto|].
  intros [->|H].
  - now rewrite String.eqb_refl.
  - destruct (k' =? k)%string; [reflexivity | now apply IH].
Qed.

Lemma mem_true (x : string) (xs : list string) : Py.mem x xs = true <-> In x xs.
Proof.
  unfold Py.mem. rewrite existsb_exists. split.
  - intros [y [Hin E]]. apply String.eqb_eq in E. now subst.
  - intros H. exists x. split; [exact H | apply String.eqb_refl].
Qed.

Lemma mem_false (x : string) (xs : list string) : Py.mem x xs = false <-> ~ In x xs.
Proof.
  rewrite <- mem_true. destruct (Py.mem x xs); split; intros; congruence.
Qed.

Lemma truthy_true (o : option string) :
  Py.truthy o = true <-> exists s, o = Some s /\ s <> "".
Proof.
  destruct o as [[|c s]|]; simpl; split; intros H; try discriminate.
  - destruct H as [s [E N]]. inversion E; subst. contradiction.
  - exists (String c s). split; [reflexivity | discriminate].
  - reflexivity.
  - destruct H as [s [E _]]. discriminate.
Qed.

(* ---------------------------------------------------------------- *)
(** ** Reasoning about computations *)

Lemma logged_nil {A} (o : Result A * World * list Event) : logged [] o = o.
Proof. now destruct o as [[r w] l]. Qed.

Lemma logged_logged {A} l1 l2 (o : Result A * World * list Event) :
  logged l1 (logged l2 o) = logged (l1 ++ l2) o.
Proof. destruct o as [[r w] l]. simpl. now rewrite app_assoc. Qed.

Lemma bind_ret {A B} (a : A) (f : A -> M B) w : bind (ret a) f w = f a w.
Proof. unfold bind, ret. now destruct (f a w) as [[r w2] l2]. Qed.

Lemma bind_gets {A B} (g : World -> A) (f : A -> M B) w :
  bind (gets g) f w = f (g w) w.
Proof. unfold bind, gets. now destruct (f (g w) w) as [[r w2] l2]. Qed.

Lemma bind_emit {B} (ev : Event) (f : unit -> M B) w :
  bind (emit ev) f w = logged [ev] (f tt w).
Proof. unfold bind, emit, logged. now destruct (f tt w) as [[r w2] l2]. Qed.

Lemma bind_print {B} (m : Msg) (f : unit -> M B) w :
  bind (print m) f w = logged [Print m] (f tt w).
Proof. apply bind_emit. Qed.

Lemma bind_raise {A B} (e : PyExc) (f : A -> M B) w :
  bind (raise e) f w = (Raise e, w, []).
Proof. reflexivity. Qed.

Lemma bind_set_cache {B} (c : Cache) (f : unit -> M B) w :
  bind (set_cache c) f w = f tt (mkWorld (remote w) c (cache_file w)).
Proof.
  unfold bind, set_cache.
  now destruct (f tt (mkWorld (remote w) c (cache_file w))) as [[r w2] l2].
Qed.

Lemma bind_request {A B} (g : R -> A * R) (ev : A -> Event) (f : A -> M B) w :
  bind (request g ev) f w =
  logged [ev (fst (g (remote w)))]
         (f (fst (g (remote w)))
            (mkWorld (snd (g (remote w))) (cache w) (cache_file w))).
Proof.
  unfold bind, request, logged. destruct (g (remote w)) as [a r]. simpl.
  now destruct (f a (mkWorld r (cache w) (cache_file w))) as [[r' w2] l2].
Qed.

Lemma bind_assoc {A B C} (m : M A) (f : A -> M B) (g : B -> M C) w :
  bind (bind m f) g w = bind m (fun a => bind (f a) g) w.
Proof.
  unfold bind. destruct (m w) as [[[a|e] w1] l1]; [|reflexivity].
  destruct (f a w1) as [[[b|e] w2] l2]; [|reflexivity].
  destruct (g b w2) as [[r w3] l3]. now rewrite app_assoc.
Qed.

Lemma bind_cong {A B} (m : M A) (f g : A -> M B) w :
(forall a w1, f a w1 = g a w1) -> bind m f w = bind m g w.
Proof.
intros H. unfold bind. destruct (m w) as [[[a|e] w1] l1]; [|reflexivity].
now rewrite H.
Qed.

(** The two ways a sequence can end. *)
Lemma bind_inv {A B} (m : M A) (f : A -> M B) w r w' l :
  bind m f w = (r, w', l) ->
  (exists a w1 l1 l2,
      m w = (Ok a, w1, l1) /\ f a w1 = (r, w', l2) /\ l = l1 ++ l2)
  \/ (exists e, m w = (Raise e, w', l) /\ r = Raise e).
Proof.
  unfold bind. destruct (m w) as [[[a|e] w1] l1].
  - destruct (f a w1) as [[r2 w2] l2] eqn:E. intros H. inversion H; subst.
    left. now exists a, w1, l1, l2.
  - intros H. inversion H; subst. right. now exists e.
Qed.

Lemma bind_ok {A B} {m : M A} (f : A -> M B) {w a w1 l1} :
  m w = (Ok a, w1, l1) -> bind m f w = logged l1 (f a w1).
Proof. intros E. unfold bind, logged. now rewrite E. Qed.

Lemma bind_fail {A B} {m : M A} (f : A -> M B) {w e w1 l1} :
  m w = (Raise e, w1, l1) -> bind m f w = (Raise e, w1, l1).
Proof. intros E. unfold bind. now rewrite E. Qed.

Lemma logged_inv {A} l1 (o : Result A * World * list Event) r w l :
  logged l1 o = (r, w, l) -> exists l2, o = (r, w, l2) /\ l = l1 ++ l2.
Proof.
  destruct o as [[r' w'] l']. simpl. intros H. inversion H; subst. now exists l'.
Qed.

(** ** Properties kept by every step

    [P w w' l] relates the world before, the world after and the log of a
    computation.  When [P] holds of doing nothing and composes along
    sequencing, it is enough to check it on the primitive steps. *)

Section Sat.

Variable P : World -> World -> list Event -> Prop.
Hypothesis P_nil : forall w, P w w [].
Hypothesis P_app :
  forall w1 w2 w3 l1 l2, P w1 w2 l1 -> P w2 w3 l2 -> P w1 w3 (l1 ++ l2).

Lemma sat_ret {A} (a : A) : sat P (ret a).
Proof. intros w r w' l H. inversion H; subst. apply P_nil. Qed.

Lemma sat_raise {A} (e : PyExc) : sat P (@raise Path R A e).
Proof. intros w r w' l H. inversion H; subst. apply P_nil. Qed.

Lemma sat_gets {A} (g : World -> A) : sat P (gets g).
Proof. intros w r w' l H. inversion H; subst. apply P_nil. Qed.

Lemma sat_bind {A B} (m : M A) (f : A -> M B) :
  sat P m -> (forall a, sat P (f a)) -> sat P (bind m f).
Proof.
  intros Hm Hf w r w' l H. apply bind_inv in H.
  destruct H as [(a & w1 & l1 & l2 & E1 & E2 & ->) | (e & E & ->)].
  - eapply P_app; [eapply Hm | eapply Hf]; eassumption.
  - eapply Hm; eassumption.
Qed.

Lemma sat_try_except {A} (m h : M A) : sat P m -> sat P h -> sat P (try_except m h).
Proof.
  intros Hm Hh w r w' l. unfold try_except.
  destruct (m w) as [[[a|e] w1] l1] eqn:E.
  - intros H. inversion H; subst. eapply Hm; eassumption.
  - destruct (h w1) as [[r2 w2] l2] eqn:E2. intros H. inversion H; subst.
    eapply P_app; [eapply Hm | eapply Hh]; eassumption.
Qed.

Lemma sat_for_each {X S} (xs : list X) (body : X -> S -> M S) :
  (forall x s, In x xs -> sat P (body x s)) -> forall s, sat P (for_each xs body s).
Proof.
  induction xs as [|x xs IH]; intros Hb s; simpl.
  - apply sat_ret.
  - apply sat_bind.
    + apply Hb. now left.
    + intros s'. apply IH. intros y t Hy. apply Hb. now right.
Qed.

Lemma sat_if {A} (b : bool) (m1 m2 : M A) :
  sat P m1 -> sat P m2 -> sat P (if b then m1 else m2).
Proof. now destruct b. Qed.

End Sat.

(** Breaks a goal [sat P m] down to the primitive steps of [m]; [prim]
    closes the steps already known to keep [P]. *)
Ltac sat_steps_with P Pnil Papp prim :=
  repeat first
    [ prim
    | apply (sat_ret P Pnil)
    | apply (sat_raise P Pnil)
    | apply (sat_gets P Pnil)
    | apply (sat_bind P Papp)
    | apply (sat_try_except P Papp)
    | apply (sat_if P)
    | apply (sat_for_each P Pnil Papp); intros
    | match goal with |- sat _ (match ?x with _ => _ end) => destruct x end
    | match goal with |- forall _, _ => intro end ].

Ltac sat_steps P Pnil Papp := sat_steps_with P Pnil Papp fail.

Lemma printing_nil w : printing w w [].
Proof. now split. Qed.

Lemma printing_app w1 w2 w3 l1 l2 :
  printing w1 w2 l1 -> printing w2 w3 l2 -> printing w1 w3 (l1 ++ l2).
Proof.
  intros [-> H1] [-> H2]. split; [reflexivity|].
  rewrite forallb_app, H1, H2. reflexivity.
Qed.

Lemma printing_print m : sat printing (@print Path R m).
Proof. intros w r w' l H. inversion H; subst. now split. Qed.

Lemma resolve_path_printing s :
  sat printing (_resolve_path PATH_PREFIX_MAP self s).
Proof.
  unfold _resolve_path.
  sat_steps printing printing_nil printing_app; apply printing_print.
Qed.

Lemma parse_definition_printing md :
  sat printing (_parse_definition PATH_PREFIX_MAP self md).
Proof.
  unfold _parse_definition. destruct (read_text md).
  - apply (sat_for_each printing printing_nil printing_app).
    intros line files _. unfold parse_line.
    sat_steps printing printing_nil printing_app;
      first [apply printing_print | apply resolve_path_printing].
  - apply (sat_raise printing printing_nil).
Qed.


(** C10. When the definition resolves to no file, [sync_collection]
    returns [(0, 0, 0)] at once: the world (remote store, cache in memory,
    cache file) is exactly as before, and the pass has only printed its
    header, the parser's warnings and the file count: no remote call and
    no cache operation is made. *)
Theorem empty_definition_returns_at_once
        (md : Path) (force dry_run : bool) (w w1 : World) (l1 : list Event) :
  _parse_definition PATH_PREFIX_MAP self md w = (Ok [], w1, l1) ->
  sync_collection PATH_PREFIX_MAP self md force dry_run w
  = (Ok (0, 0, 0), w,
     Print (MsgSyncing dry_run (path_stem md)) :: l1 ++ [Print (MsgFound 0)])
  /\ forallb is_print l1 = true.
Proof.
  intros Hparse.
  destruct (parse_definition_printing md _ _ _ _ Hparse) as [-> Hl1].
  split; [|exact Hl1].
  unfold sync_collection. rewrite bind_print.
  rewrite (bind_ok _ Hparse). rewrite bind_print. simpl.
  unfold ret, logged. simpl. reflexivity.
Qed.

(* ---------------------------------------------------------------- *)
(** ** Definition parser *)

Lemma resolve_path_files (s : string) (w : World) :
exists l : list Event, _resolve_path PATH_PREFIX_MAP self s w = (Ok (resolve_files s), w, l).
Proof.
unfold _resolve_path, resolve_files.
set (path := if is_symlink _ then _ else _).
destruct (negb (exists_ path)).
- rewrite bind_print. simpl. eexists. reflexivity.
- destruct (is_file path); [eexists; reflexivity|].
  destruct (is_dir path); eexists; reflexivity.
Qed.

Lemma parse_lines_concat lines : forall (files : list Path) (w : World),
exists l : list Event,
  for_each lines (parse_line PATH_PREFIX_MAP self) files w
  = (Ok (files ++ concat (map resolve_files
           (filter (fun line => negb ((line =? "")%string || Py.startswith line "#"))
                   (map Py.strip lines)))), w, l).
Proof.
induction lines as [|line lines IH]; intros files w; simpl.
- rewrite app_nil_r. eexists. reflexivity.
- unfold parse_line at 1.
  destruct ((Py.strip line =? "")%string || Py.startswith (Py.strip line) "#") eqn:E;
    simpl.
  + rewrite bind_ret. apply IH.
  + rewrite bind_assoc.
    destruct (resolve_path_files (Py.strip line) w) as [l1 E1].
    rewrite (bind_ok _ E1). rewrite bind_ret.
    destruct (IH (files ++ resolve_files (Py.strip line)) w) as [l2 E2].
    rewrite E2. simpl. rewrite <- app_assoc. eexists. reflexivity.
Qed.

Lemma parse_definition_run (md : Path) (content : string) (w : World) :
read_text md = Some content ->
exists l,
  _parse_definition PATH_PREFIX_MAP self md w
  = (Ok (concat (map resolve_files (path_references content))), w, l).
Proof.
intros Hread. unfold _parse_definition. rewrite Hread.
destruct (parse_lines_concat (Py.splitlines content) [] w) as [l E].
exists l. exact E.
Qed.

(** C7 (amended). Whenever the parser returns, what it returns is an
    ordered sequence: the files of each path reference of the document,
    reference after reference in the order of the document, joined end to
    end.  Nothing is removed from the joined sequence, so a file reached by
    several references is listed once for each of them.  The parser has
    only printed warnings and the world is left as it was. *)
Theorem parse_definition_concatenates
      (md : Path) (content : string) (w w' : World)
      (files : list Path) (l : list Event) :
read_text md = Some content ->
_parse_definition PATH_PREFIX_MAP self md w = (Ok files, w', l) ->
files = concat (map resolve_files (path_references content))
/\ w' = w
/\ forallb is_print l = true.
Proof.
intros Hread Hrun. destruct (parse_definition_run md content w Hread) as [l0 E].
rewrite E in Hrun. inversion Hrun; subst files w' l0.
split; [reflexivity|]. split; [reflexivity|].
exact (proj2 (parse_definition_printing md _ _ _ _ E)).
Qed.

(* ---------------------------------------------------------------- *)
(** ** One file of the reconciliation loop *)

Lemma clear_run (h : string) (w : World) :
_clear_qdrant_duplicates h w = (Ok true, purged h w, purge_log h).
Proof. reflexivity. Qed.

Lemma skip_condition_true force file_hash cached existing filename :
skip_condition force file_hash cached existing filename = true <->
force = false
/\ (exists e, cached = Some e /\ hash e = Some file_hash
              /\ exists id, file_id e = Some id /\ id <> "")
/\ In filename (Py.keys existing).
Proof.
unfold skip_condition. rewrite !andb_true_iff, negb_true_iff.
rewrite truthy_true. split.
- intros [[[Hf Hh] (id & Hid & Hne)] Hin]. split; [exact Hf|]. split.
  + destruct cached as [e|]; [|discriminate].
    exists e. split; [reflexivity|]. split.
    * destruct (hash e) as [h|]; [|discriminate].
      apply String.eqb_eq in Hh. now subst.
    * now exists id.
  + apply has_true in Hin. destruct Hin as [v Hv].
    eapply get_in_keys; eassumption.
- intros (Hf & (e & -> & Hh & id & Hid & Hne) & Hin).
  rewrite Hh, String.eqb_refl. repeat split; try assumption.
  + now exists id.
  + now apply in_keys_has.
Qed.


(** *** The attach step *)

Lemma add_file_spec (kb_id fid h : string) (w : World) r w' log :
h <> "" ->
_add_file_to_knowledge kb_id fid (Some h) w = (r, w', log) ->
exists ok, r = Ok ok /\ attach_log kb_id fid h ok log
           /\ cache w' = cache w /\ cache_file w' = cache_file w.
Proof.
intros Hh. unfold _add_file_to_knowledge, post_file_add.
rewrite bind_request.
destruct (http_post_file_add kb_id fid (remote w)) as [resp1 r1] eqn:E1. simpl.
destruct resp1 as [|status text|].
- intros H. inversion H; subst. exists true. repeat split. constructor.
- destruct ((status =? 400)%nat && Py.contains "Duplicate content" text) eqn:Edup.
  + destruct h as [|c h]; [contradiction|].
    rewrite bind_print. rewrite (bind_ok _ (clear_run _ _)). rewrite bind_request.
    match goal with |- context [http_post_file_add kb_id fid ?x] =>
      destruct (http_post_file_add kb_id fid x) as [resp2 r2] eqn:E2 end.
    simpl. intros H.
    assert (Hd : is_duplicate (AddHTTPError status text) = true) by exact Edup.
    pose proof (attach_retry kb_id fid (String c h) _ resp2 _ Hd eq_refl) as Hlog.
    destruct resp2; inversion H; subst; eexists; (split; [reflexivity|]);
      (split; [exact Hlog|]); split; reflexivity.
  + intros H. inversion H; subst. exists false. repeat split.
    now apply attach_error.
- intros H. inversion H; subst. exists false. repeat split.
  now apply attach_error.
Qed.

(** *** One file in a live pass *)

Section FileStepFacts.

Variables (force : bool) (kb_id : string) (existing_files : Py.dict string).
Variables (cache_key : string) (file_path : Path) (l : Locals) (w : World).

Let filename := path_name file_path.
Let file_hash := _file_hash file_path.
Let skip :=
skip_condition force file_hash (entry_of (cache w) cache_key filename)
               existing_files filename.
Let action : Event := Print (MsgAction (Py.has filename existing_files) filename).

Lemma digest_not_empty (content : list Byte.byte) : sha256_hexdigest content <> "".
Proof.
intros E. pose proof (hexdigest_length content) as H. rewrite E in H. discriminate.
Qed.

Lemma process_file_live r w' log :
process_file force false kb_id existing_files cache_key file_path l w = (r, w', log) ->
file_step force kb_id existing_files cache_key file_path l w r w' log.
Proof.
unfold process_file. rewrite bind_gets.
fold filename file_hash. fold (seen filename l). fold skip.
destruct skip eqn:Hskip.
- intros H. inversion H; subst. now constructor.
- rewrite bind_print. fold action. unfold negb.
  destruct (read_bytes file_path) as [content|] eqn:Hread.
  + rewrite (bind_ok _ (clear_run _ _)).
    unfold _upload_file. rewrite Hread. rewrite bind_assoc, bind_request.
    fold filename.
    destruct (http_post_file filename content (remote (purged (sha256_hexdigest content) w)))
      as [up r2] eqn:Eup.
    simpl fst; simpl snd.
    destruct up as [[|c fid]|].
    * rewrite !bind_ret. intros H. inversion H; subst.
      now apply (step_no_upload force kb_id existing_files cache_key file_path l w content (Some "")).
    * rewrite bind_ret.
      match goal with |- context [bind ?m ?k ?x] =>
        match m with _add_file_to_knowledge _ _ _ =>
          destruct (m x) as [[ra wa] la] eqn:Eadd end end.
      destruct (add_file_spec _ _ _ _ _ _ _ (digest_not_empty content) Eadd)
        as (ok & -> & Hlog & Hc & Hf).
      rewrite (bind_ok _ Eadd).
      destruct ok.
      -- unfold cache_write. rewrite bind_assoc, bind_gets, bind_assoc, bind_set_cache,
           bind_emit.
         intros H. simpl in H. inversion H; subst.
         apply (step_synced force kb_id existing_files cache_key file_path l w content (String c fid) _ la); try assumption;
           try discriminate; simpl; now rewrite ?Hc, ?Hf.
      -- rewrite bind_print. intros H. simpl in H. inversion H; subst.
         apply (step_not_attached force kb_id existing_files cache_key file_path l w content (String c fid) _ la); try assumption;
           try discriminate.
    * rewrite bind_assoc, bind_print, !bind_ret. intros H. simpl in H.
      inversion H; subst. now apply (step_no_upload force kb_id existing_files cache_key file_path l w content None).
  + intros H. simpl in H. inversion H; subst. now constructor.
Qed.

Lemma process_file_dry :
process_file force true kb_id existing_files cache_key file_path l w
= if skip then (Ok (seen filename l), w, [])
  else (Ok (count existing_files filename (seen filename l)), w, [action]).
Proof.
unfold process_file. rewrite bind_gets.
fold filename file_hash. fold (seen filename l). fold skip.
destruct skip; [reflexivity|]. rewrite bind_print. reflexivity.
Qed.

End FileStepFacts.

(** *** The first attach attempt of a file *)

Lemma first_split {X} (f : X -> bool) :
forall a a' x x' b b',
  forallb (fun e => negb (f e)) a = true ->
  forallb (fun e => negb (f e)) a' = true ->
  f x = true -> f x' = true ->
  a ++ x :: b = a' ++ x' :: b' ->
  a = a' /\ x = x' /\ b = b'.
Proof.
induction a as [|y a IH]; intros [|y' a'] x x' b b' Ha Ha' Hx Hx' E; simpl in *.
- inversion E. auto.
- inversion E; subst. apply andb_true_iff in Ha'. destruct Ha' as [Hy _].
  rewrite Hx in Hy. discriminate.
- inversion E; subst. apply andb_true_iff in Ha. destruct Ha as [Hy _].
  rewrite Hx' in Hy. discriminate.
- inversion E; subst. apply andb_true_iff in Ha, Ha'.
  destruct Ha as [_ Ha], Ha' as [_ Ha'].
  destruct (IH a' x x' b b' Ha Ha' Hx Hx' H1) as (-> & -> & ->). auto.
Qed.

Lemma no_split {X} (f : X -> bool) (log a : list X) x b :
forallb (fun e => negb (f e)) log = true -> f x = true -> log <> a ++ x :: b.
Proof.
intros Hlog Hx ->. rewrite forallb_app in Hlog. simpl in Hlog.
rewrite Hx in Hlog. simpl in Hlog. rewrite andb_false_r in Hlog. discriminate.
Qed.

Lemma only_split {X} (f : X -> bool) :
forall a x a' x' b',
  forallb (fun e => negb (f e)) a = true -> f x' = true ->
  a ++ [x] = a' ++ x' :: b' ->
  a' = a /\ x' = x /\ b' = [].
Proof.
induction a as [|y a IH]; intros x [|y' a'] x' b' Ha Hx' E; simpl in *.
- inversion E. auto.
- inversion E as [[E1 E2]]. destruct a'; discriminate.
- inversion E; subst. apply andb_true_iff in Ha. destruct Ha as [Hy _].
  rewrite Hx' in Hy. discriminate.
- inversion E; subst. apply andb_true_iff in Ha. destruct Ha as [_ Ha].
  destruct (IH x a' x' b' Ha Hx' H1) as (-> & -> & ->). auto.
Qed.

Lemma entry_of_written (c : Cache) (key filename : string) (e : CacheEntry) :
entry_of (Py.set key (Py.set filename e (collection_of c key)) c) key filename = Some e.
Proof.
unfold entry_of, collection_of at 1. rewrite get_set_same.
apply get_set_same.
Qed.

(** Identifies the first attach attempt in a log whose first four events are
    known not to be attach attempts. *)
Ltac first_attach Hsplit Hpre E :=
match type of Hsplit with
| ?e1 :: ?e2 :: ?e3 :: ?e4 :: ?x :: ?b = ?pre ++ ?x' :: ?post =>
    destruct (first_split is_attach [e1; e2; e3; e4] pre x x' b post
                eq_refl Hpre eq_refl eq_refl Hsplit) as (<- & E & <-)
end.

(** C5. Take a file of a live pass and its first attach attempt.  If the
    attempt succeeds the entry is written and the file is counted.  If it
    fails with the duplicate-content condition, the content hash is purged
    and the attachment is tried again, once: when the second attempt
    succeeds the file is counted and its cache entry holds the new remote
    identifier; when it fails a warning is printed, the file is not counted
    and the cache is as before.  If the first attempt fails otherwise there
    is no second attempt: an error is printed, the file is not counted and
    the cache is as before.  In every case the file ends normally and the
    loop goes on with the files that follow. *)
Theorem duplicate_content_recovery
      (force : bool) (kb_id : string) (existing_files : Py.dict string)
      (cache_key : string) (file_path : Path) (l : Locals) (w w' : World)
      (r : Result Locals) (log pre post : list Event)
      (kb' fid : string) (resp : AddResp) :
process_file force false kb_id existing_files cache_key file_path l w = (r, w', log) ->
log = pre ++ PostFileAdd kb' fid resp :: post ->
forallb (fun ev => negb (is_attach ev)) pre = true ->
let filename := path_name file_path in
let entry := new_entry file_path fid in
let body := process_file force false kb_id existing_files cache_key in
exists content l',
  read_bytes file_path = Some content /\ kb' = kb_id /\ r = Ok l'
  /\ (forall rest, for_each (file_path :: rest) body l w
                   = logged log (for_each rest body l' w'))
  /\ let h := sha256_hexdigest content in
     let synced :=
       l' = count existing_files filename (seen filename l)
       /\ entry_of (cache w') cache_key filename = Some entry in
     let unsynced := l' = seen filename l /\ cache w' = cache w in
     if is_ok resp then post = [CacheSet cache_key filename entry] /\ synced
     else if is_duplicate resp then
       exists resp2,
         post = Print MsgClearing :: purge_log h ++ PostFileAdd kb_id fid resp2 ::
                (if is_ok resp2 then [CacheSet cache_key filename entry]
                 else [Print MsgWarnDuplicate; Print (MsgFailedToAdd filename)])
         /\ if is_ok resp2 then synced else unsynced
     else post = [Print MsgErrorAdding; Print (MsgFailedToAdd filename)] /\ unsynced.
Proof.
intros Hrun Hsplit Hpre. cbv zeta.
assert (Hnext : forall l', r = Ok l' ->
          forall rest,
            for_each (file_path :: rest)
              (process_file force false kb_id existing_files cache_key) l w
            = logged log (for_each rest
                (process_file force false kb_id existing_files cache_key) l' w')).
{ intros l' -> rest. simpl. now rewrite (bind_ok _ Hrun). }
pose proof (process_file_live _ _ _ _ _ _ _ _ _ _ Hrun) as Hstep.
clear Hrun. revert Hnext Hsplit.
destruct Hstep as
  [ Hs | Hs Hr | content up w1 Hs Hr Hup Hc Hf
  | content fid0 w1 attempts Hs Hr Hfid Hatt Hc Hf
  | content fid0 w1 attempts Hs Hr Hfid Hatt Hc Hf ]; intros Hnext Hsplit.
- destruct pre; discriminate.
- exfalso. revert Hsplit. now apply (no_split is_attach).
- exfalso. revert Hsplit. apply (no_split is_attach); [|reflexivity].
  destruct up as [u|]; reflexivity.
- assert (Hw : entry_of (cache w1) cache_key (path_name file_path)
               = Some (new_entry file_path fid0))
    by (rewrite Hc; apply entry_of_written).
  inversion Hatt as [E1 E2 | resp1 resp2 ok Hdup Hok2 E1 E2 | ]; subst;
    simpl in Hsplit;
    first_attach Hsplit Hpre E; inversion E; subst;
    exists content; eexists;
    (split; [exact Hr|]); (split; [reflexivity|]); (split; [reflexivity|]);
    (split; [apply Hnext; reflexivity|]); cbv zeta.
  + simpl. auto.
  + assert (Hnok : is_ok resp = false)
      by (clear - Hdup; destruct resp; simpl in *; congruence).
    rewrite Hnok, Hdup. exists resp2. rewrite Hok2. simpl. auto.
- inversion Hatt as [ | resp1 resp2 ok Hdup Hok2 E1 E2 | resp1 Hnok Hndup E1 E2 ];
    subst; simpl in Hsplit;
    first_attach Hsplit Hpre E; inversion E; subst;
    exists content; eexists;
    (split; [exact Hr|]); (split; [reflexivity|]); (split; [reflexivity|]);
    (split; [apply Hnext; reflexivity|]); cbv zeta.
  + assert (Hnok : is_ok resp = false)
      by (clear - Hdup; destruct resp; simpl in *; congruence).
    rewrite Hnok, Hdup. exists resp2. rewrite Hok2. simpl. auto.
  + rewrite Hnok, Hndup. auto.
Qed.

(* ---------------------------------------------------------------- *)
(** ** Cache writes follow confirmation *)

Lemma confirmed_quiet (l : list Event) :
forallb (fun ev => negb (is_cache_set ev)) l = true -> confirmed l.
Proof.
intros H l1 key filename e l2 E. exfalso. revert E.
now apply (no_split is_cache_set).
Qed.

Lemma confirmed_app l1 l2 : confirmed l1 -> confirmed l2 -> confirmed (l1 ++ l2).
Proof.
intros H1 H2 a key filename e b E.
apply app_eq_app in E. destruct E as [m [[E1 E2] | [E1 E2]]].
- destruct m as [|x m].
  + simpl in E2. rewrite app_nil_r in E1. subst a.
    destruct (H2 [] key filename e b (eq_sym E2))
      as (p & fid & kb & la & lb & Hn & He & Hf & Hl).
    destruct la; discriminate.
  + simpl in E2. inversion E2; subst x b.
    destruct (H1 a key filename e m E1) as (p & fid & kb & la & lb & Hx).
    now exists p, fid, kb, la, lb.
- destruct (H2 m key filename e b E2)
    as (p & fid & kb & la & lb & Hn & He & Hf & Hl).
  exists p, fid, kb, (l1 ++ la), lb. repeat split; try assumption.
  rewrite E1, Hl. now rewrite app_assoc.
Qed.

Lemma confirmed_writes_nil w : confirmed_writes w w [].
Proof.
split; [now apply confirmed_quiet|]. intros key filename e H. now left.
Qed.

Lemma confirmed_writes_app w1 w2 w3 l1 l2 :
confirmed_writes w1 w2 l1 -> confirmed_writes w2 w3 l2 ->
confirmed_writes w1 w3 (l1 ++ l2).
Proof.
intros [C1 T1] [C2 T2]. split; [now apply confirmed_app|].
intros key filename e H.
destruct (T2 _ _ _ H) as [H'|H']; [|right; apply in_or_app; now right].
destruct (T1 _ _ _ H') as [H''|H'']; [now left|right; apply in_or_app; now left].
Qed.

(** A step that leaves the cache alone and writes no entry. *)
Lemma confirmed_writes_frame (w w' : World) (l : list Event) :
cache w' = cache w -> forallb (fun ev => negb (is_cache_set ev)) l = true ->
confirmed_writes w w' l.
Proof.
intros Hc Hl. split; [now apply confirmed_quiet|].
intros key filename e H. left. now rewrite <- Hc.
Qed.

Lemma cw_print m : sat confirmed_writes (@print Path R m).
Proof. intros w r w' l H. inversion H; subst. now apply confirmed_writes_frame. Qed.

Lemma cw_request {A} (g : R -> A * R) (ev : A -> Event) :
(forall a, is_cache_set (ev a) = false) -> sat confirmed_writes (request g ev).
Proof.
intros Hev w r w' l. unfold request. destruct (g (remote w)) as [a r1].
intros H. inversion H; subst. apply confirmed_writes_frame; [reflexivity|].
simpl. now rewrite Hev.
Qed.

Lemma entry_of_other_key (c : Cache) (key key' filename : string) d :
key <> key' -> entry_of (Py.set key d c) key' filename = entry_of c key' filename.
Proof.
intros Hne. unfold entry_of, collection_of. now rewrite get_set_other.
Qed.

Lemma entry_of_same_key (c : Cache) (key filename : string) d :
entry_of (Py.set key d c) key filename = Py.get filename d.
Proof. unfold entry_of, collection_of. now rewrite get_set_same. Qed.

Lemma cw_cache_open key : sat confirmed_writes (@cache_open Path R key).
Proof.
intros w r w' l. unfold cache_open. rewrite bind_gets.
destruct (Py.has key (cache w)) eqn:Hhas; intros H; inversion H; subst.
- apply confirmed_writes_nil.
- split; [now apply confirmed_quiet|]. intros k fn e. simpl.
  destruct (String.eqb_spec key k) as [->|Hne].
  + rewrite entry_of_same_key. discriminate.
  + rewrite entry_of_other_key by assumption. now left.
Qed.

Lemma cw_cache_delete key filename :
sat confirmed_writes (@cache_delete Path R key filename).
Proof.
intros w r w' l. unfold cache_delete. rewrite bind_gets.
destruct (Py.has filename (collection_of (cache w) key)) eqn:Hhas.
- rewrite bind_set_cache. intros H. inversion H; subst.
  split; [now apply confirmed_quiet|]. intros k fn e. simpl.
  destruct (String.eqb_spec key k) as [->|Hne].
  + rewrite entry_of_same_key.
    destruct (String.eqb_spec filename fn) as [->|Hfn].
    * now rewrite get_del_same.
    * rewrite get_del_other by assumption. now left.
  + rewrite entry_of_other_key by assumption. now left.
- intros H. inversion H; subst. apply confirmed_writes_nil.
Qed.

Lemma cw_save_cache : sat confirmed_writes (@_save_cache Path JL R).
Proof.
intros w r w' l. unfold _save_cache. rewrite bind_gets.
intros H. inversion H; subst. now apply confirmed_writes_frame.
Qed.

Lemma attach_log_quiet kb_id fid h ok l :
attach_log kb_id fid h ok l ->
forallb (fun ev => negb (is_cache_set ev)) l = true.
Proof. intros H. destruct H as [|resp1 resp2 [|] Hd Ho|]; reflexivity. Qed.

Lemma attach_log_success kb_id fid h l :
attach_log kb_id fid h true l -> exists lb, l = lb ++ [PostFileAdd kb_id fid AddOk].
Proof.
intros H. inversion H as [E1 E2 | resp1 resp2 ok Hd Ho E1 E2 | ]; subst.
- now exists [].
- destruct resp2; try discriminate.
  now exists [PostFileAdd kb_id fid resp1; Print MsgClearing;
              PostPointsDelete "open-webui_knowledge" h;
              PostPointsDelete "open-webui_files" h].
Qed.

Lemma cw_process_file force dry_run kb_id existing_files cache_key file_path l :
sat confirmed_writes
    (process_file force dry_run kb_id existing_files cache_key file_path l).
Proof.
intros w r w' log Hrun. destruct dry_run.
- rewrite process_file_dry in Hrun.
  destruct (skip_condition _ _ _ _ _); inversion Hrun; subst;
    now apply confirmed_writes_frame.
- apply process_file_live in Hrun.
  destruct Hrun as
    [ Hs | Hs Hr | content up w1 Hs Hr Hup Hc Hf
    | content fid w1 attempts Hs Hr Hfid Hatt Hc Hf
    | content fid w1 attempts Hs Hr Hfid Hatt Hc Hf ].
  + apply confirmed_writes_nil.
  + now apply confirmed_writes_frame.
  + apply confirmed_writes_frame; [assumption|]. destruct up; reflexivity.
  + pose proof (attach_log_quiet _ _ _ _ _ Hatt) as Hq.
    destruct (attach_log_success _ _ _ _ Hatt) as [lb Hlb].
    split.
    * intros l1 key fn e l2 E.
      change (?a :: purge_log ?h ++ ?b :: attempts ++ ?c)
        with ((a :: purge_log h ++ b :: attempts) ++ c) in E.
      apply (only_split is_cache_set) in E; [|simpl; exact Hq|reflexivity].
      destruct E as (-> & E & ->). inversion E; subst.
      exists file_path, fid, kb_id,
        (Print (MsgAction (Py.has (path_name file_path) existing_files)
                  (path_name file_path)) :: purge_log (sha256_hexdigest content)),
        lb.
      repeat split; try assumption.
    * intros key fn e. rewrite Hc.
      destruct (String.eqb_spec cache_key key) as [->|Hne].
      -- rewrite entry_of_same_key.
         destruct (String.eqb_spec (path_name file_path) fn) as [->|Hfn].
         ++ rewrite get_set_same. intros H. inversion H; subst.
            right. apply in_cons, in_or_app. right. apply in_cons, in_or_app.
            right. now left.
         ++ rewrite get_set_other by assumption. now left.
      -- rewrite entry_of_other_key by assumption. now left.
  + apply confirmed_writes_frame; [assumption|].
    simpl. rewrite forallb_app, (attach_log_quiet _ _ _ _ _ Hatt). reflexivity.
Qed.

Ltac cw_prim :=
first
  [ apply cw_print
  | apply cw_request; intros; reflexivity
  | apply cw_cache_open
  | apply cw_cache_delete
  | apply cw_save_cache
  | apply cw_process_file ].

Ltac cw_steps :=
sat_steps_with confirmed_writes confirmed_writes_nil confirmed_writes_app cw_prim.

Lemma cw_printing {A} (m : M A) : sat printing m -> sat confirmed_writes m.
Proof.
intros Hm w r w' l H. destruct (Hm _ _ _ _ H) as [-> Hl].
apply confirmed_writes_frame; [reflexivity|].
apply forallb_forall. intros ev Hin.
apply (proj1 (forallb_forall _ _) Hl) in Hin. now destruct ev.
Qed.

Lemma cw_remove_stale dry_run kb_id cache_key synced item removed :
sat confirmed_writes (remove_stale dry_run kb_id cache_key synced item removed).
Proof.
unfold remove_stale. destruct item as [filename fid].
unfold _remove_file_from_knowledge. cw_steps.
Qed.

Lemma cw_sync_files force dry_run collection_name kb_id files_to_sync :
sat confirmed_writes (sync_files force dry_run collection_name kb_id files_to_sync).
Proof.
unfold sync_files, _get_knowledge_files.
sat_steps_with confirmed_writes confirmed_writes_nil confirmed_writes_app
  ltac:(first [ apply cw_remove_stale | cw_prim ]).
Qed.

Lemma cw_sync_collection md force dry_run :
sat confirmed_writes (sync_collection PATH_PREFIX_MAP self md force dry_run).
Proof.
unfold sync_collection, _get_knowledge_bases, _create_knowledge_base.
sat_steps_with confirmed_writes confirmed_writes_nil confirmed_writes_app
  ltac:(first [ apply cw_sync_files
              | apply cw_printing, parse_definition_printing
              | cw_prim ]).
Qed.

(** C6. In every pass, live or dry, forced or not: each cache write of the
    log is preceded by the upload that returned its remote identifier and
    comes right after the successful attachment of that identifier (as the
    retry, when the first attempt met the duplicate-content condition); the
    identifier is not empty and the entry holds the hash of the uploaded
    file.  An entry of the cache after the pass either was in the cache
    before it, unchanged, or was written by such a cache write.  This holds
    too when the pass ends with an exception. *)
Theorem cache_written_after_confirmation
      (md : Path) (force dry_run : bool) (w w' : World)
      (r : Result (nat * nat * nat)) (log : list Event) :
sync_collection PATH_PREFIX_MAP self md force dry_run w = (r, w', log) ->
(forall l1 key filename e l2,
   log = l1 ++ CacheSet key filename e :: l2 ->
   exists file_path fid kb_id la lb,
     filename = path_name file_path
     /\ e = mkEntry (Some (_file_hash file_path)) (Some fid)
     /\ fid <> ""
     /\ l1 = la ++ PostFile file_path (Some fid) :: lb ++ [PostFileAdd kb_id fid AddOk])
/\ (forall key filename e,
      entry_of (cache w') key filename = Some e ->
      entry_of (cache w) key filename = Some e \/ In (CacheSet key filename e) log).
Proof.
intros Hrun. exact (cw_sync_collection md force dry_run _ _ _ _ Hrun).
Qed.

(* ---------------------------------------------------------------- *)
(** ** The phases of a pass *)

Lemma sync_collection_phases md force dry_run (w : World) :
sync_collection PATH_PREFIX_MAP self md force dry_run w = phases md force dry_run w.
Proof.
unfold sync_collection, phases.
apply bind_cong; intros _ w0. apply bind_cong; intros files w1.
apply bind_cong; intros _ w2.
destruct files as [|p files]; [reflexivity|].
unfold bootstrap. rewrite bind_assoc. apply bind_cong; intros bases w3.
destruct (negb (Py.truthy (Py.get (path_stem md) bases))); [|now rewrite bind_ret].
rewrite bind_assoc. apply bind_cong; intros _ w4.
destruct (negb dry_run); [|now rewrite bind_ret].
rewrite bind_assoc. apply bind_cong; intros kb w5.
destruct (negb (Py.truthy kb)); now rewrite bind_ret.
Qed.

Lemma get_knowledge_bases_run (w : World) :
_get_knowledge_bases w
= (Ok (bases_of (fst (http_get_knowledge (remote w)))),
   with_remote (snd (http_get_knowledge (remote w))) w,
   GetBases (fst (http_get_knowledge (remote w)))
   :: fetch_error MsgErrorFetchingBases (fst (http_get_knowledge (remote w)))).
Proof.
unfold _get_knowledge_bases. rewrite bind_request.
destruct (http_get_knowledge (remote w)) as [[items|] r1]; reflexivity.
Qed.

Lemma get_knowledge_files_run (kb_id : string) (w : World) :
_get_knowledge_files kb_id w
= (Ok (listing_of (fst (http_get_files kb_id (remote w)))),
   with_remote (snd (http_get_files kb_id (remote w))) w,
   GetFiles kb_id (fst (http_get_files kb_id (remote w)))
   :: fetch_error MsgErrorFetchingFiles (fst (http_get_files kb_id (remote w)))).
Proof.
unfold _get_knowledge_files. rewrite bind_request.
destruct (http_get_files kb_id (remote w)) as [[items|] r1]; reflexivity.
Qed.

Lemma create_knowledge_base_run (name : string) (w : World) :
_create_knowledge_base name w
= (Ok (fst (http_post_create name (remote w))),
   with_remote (snd (http_post_create name (remote w))) w,
   PostCreate name (fst (http_post_create name (remote w)))
   :: create_error name (fst (http_post_create name (remote w)))).
Proof.
unfold _create_knowledge_base. rewrite bind_request.
destruct (http_post_create name (remote w)) as [[id|] r1]; reflexivity.
Qed.

(** C8 (amended). In a live pass over a definition that resolves to at
    least one file, when the remote listing gives no usable identifier for
    the collection name, the creation request is made right after the
    listing, before anything is done for a file.  If the request returns no
    usable identifier the pass returns [(0, 0, 0)], has made no file-level
    remote call (no upload, attach, detach or purge) and has left the cache
    and the cache file as they were. *)
Theorem collection_created_before_files
      (md : Path) (force : bool) (w w0 : World)
      (files : list Path) (lp : list Event) :
_parse_definition PATH_PREFIX_MAP self md w = (Ok files, w0, lp) ->
files <> [] ->
Py.truthy (Py.get (path_stem md) (bases_of (fst (http_get_knowledge (remote w)))))
= false ->
let name := path_stem md in
let res := fst (http_get_knowledge (remote w)) in
exists created r w' rest,
  sync_collection PATH_PREFIX_MAP self md force false w
  = (r, w',
     Print (MsgSyncing false name) :: lp ++ Print (MsgFound (length files))
     :: GetBases res :: fetch_error MsgErrorFetchingBases res
     ++ Print (MsgCreating name) :: PostCreate name created :: rest)
  /\ forallb is_print lp = true
  /\ (Py.truthy created = false ->
      r = Ok (0, 0, 0) /\ forallb is_print rest = true
      /\ cache w' = cache w /\ cache_file w' = cache_file w).
Proof.
intros Hparse Hfiles Habsent. cbv zeta.
destruct (parse_definition_printing md _ _ _ _ Hparse) as [-> Hlp].
destruct files as [|p files]; [contradiction|].
rewrite sync_collection_phases. unfold phases.
rewrite bind_print, (bind_ok _ Hparse), bind_print.
unfold bootstrap. rewrite bind_assoc, (bind_ok _ (get_knowledge_bases_run w)).
rewrite Habsent. simpl negb. cbv iota.
rewrite bind_assoc, bind_print, bind_assoc.
rewrite (bind_ok _ (create_knowledge_base_run _ _)).
set (res := fst (http_get_knowledge (remote w))).
set (w1 := with_remote (snd (http_get_knowledge (remote w))) w).
set (created := fst (http_post_create (path_stem md) (remote w1))).
destruct (Py.truthy created) eqn:Hcreated; simpl negb; cbv iota; rewrite bind_ret.
- match goal with |- context [sync_files ?f ?d ?n ?k ?fs ?x] =>
    destruct (sync_files f d n k fs x) as [[r w'] ls] eqn:Es end.
  exists created, r, w', (create_error (path_stem md) created ++ ls).
  split; [|split; [exact Hlp | intros H; congruence]].
  simpl. rewrite <- ?app_assoc. reflexivity.
- eexists created, _, _, _. split; [|split; [exact Hlp|]].
  + simpl. rewrite <- ?app_assoc. simpl. reflexivity.
  + intros _. repeat split. destruct created; reflexivity.
Qed.

(* ---------------------------------------------------------------- *)
(** ** Events a computation never emits *)

Lemma avoids_nil f w : avoids f w w [].
Proof. reflexivity. Qed.

Lemma avoids_app f w1 w2 w3 l1 l2 :
avoids f w1 w2 l1 -> avoids f w2 w3 l2 -> avoids f w1 w3 (l1 ++ l2).
Proof. unfold avoids. intros H1 H2. now rewrite forallb_app, H1, H2. Qed.

Lemma avoids_emit f ev : f ev = false -> sat (avoids f) (@emit Path R ev).
Proof. intros Hf w r w' l H. inversion H; subst. unfold avoids. simpl. now rewrite Hf. Qed.

Lemma avoids_request f {A} (g : R -> A * R) (ev : A -> Event) :
(forall a, f (ev a) = false) -> sat (avoids f) (request g ev).
Proof.
intros Hf w r w' l. unfold request. destruct (g (remote w)) as [a r1].
intros H. inversion H; subst. unfold avoids. simpl. now rewrite Hf.
Qed.

Lemma avoids_set_cache f c : sat (avoids f) (@set_cache Path R c).
Proof. intros w r w' l H. inversion H; subst. reflexivity. Qed.

Lemma avoids_save_cache f :
(forall t, f (SaveCache t) = false) -> sat (avoids f) (@_save_cache Path JL R).
Proof.
intros Hf w r w' l. unfold _save_cache. rewrite bind_gets.
intros H. inversion H; subst. unfold avoids. simpl. now rewrite Hf.
Qed.

(** Proves [sat (avoids f) m] by going through the code of [m]. *)
Ltac avoid_steps f :=
sat_steps_with (avoids f) (avoids_nil f) (avoids_app f)
  ltac:(first
    [ apply avoids_emit; reflexivity
    | apply avoids_request; intros; reflexivity
    | apply avoids_set_cache
    | apply avoids_save_cache; intros; reflexivity
    | progress cbn [negb] ]).

Lemma printing_avoids f {A} (m : M A) :
(forall msg, f (Print msg) = false) -> sat printing m -> sat (avoids f) m.
Proof.
intros Hf Hm w r w' l H. destruct (Hm _ _ _ _ H) as [_ Hl].
apply forallb_forall. intros ev Hin.
apply (proj1 (forallb_forall _ _) Hl) in Hin. destruct ev; try discriminate.
now rewrite Hf.
Qed.

Lemma bootstrap_avoids_get_files name dry_run :
sat (avoids is_get_files) (bootstrap name dry_run).
Proof.
unfold bootstrap, _get_knowledge_bases, _create_knowledge_base.
avoid_steps is_get_files.
Qed.

Lemma bootstrap_avoids_detach name dry_run :
sat (avoids is_detach) (bootstrap name dry_run).
Proof.
unfold bootstrap, _get_knowledge_bases, _create_knowledge_base.
avoid_steps is_detach.
Qed.

Lemma process_file_avoids_get_files force dry_run kb_id existing key p l :
sat (avoids is_get_files) (process_file force dry_run kb_id existing key p l).
Proof.
unfold process_file, _clear_qdrant_duplicates, _upload_file,
  _add_file_to_knowledge, post_file_add, cache_write.
avoid_steps is_get_files.
Qed.

Lemma process_file_avoids_detach force dry_run kb_id existing key p l :
sat (avoids is_detach) (process_file force dry_run kb_id existing key p l).
Proof.
unfold process_file, _clear_qdrant_duplicates, _upload_file,
  _add_file_to_knowledge, post_file_add, cache_write.
avoid_steps is_detach.
Qed.

Lemma remove_stale_avoids_get_files dry_run kb_id key synced item n :
sat (avoids is_get_files) (remove_stale dry_run kb_id key synced item n).
Proof.
unfold remove_stale, _remove_file_from_knowledge, cache_delete.
destruct item as [filename fid]. avoid_steps is_get_files.
Qed.

(* ---------------------------------------------------------------- *)
(** ** The two loops of a pass *)

Lemma process_file_synced force dry_run kb_id existing key p l (w : World) l' w' log :
process_file force dry_run kb_id existing key p l w = (Ok l', w', log) ->
synced_filenames l' = path_name p :: synced_filenames l.
Proof.
intros H. destruct dry_run.
- rewrite process_file_dry in H.
  destruct (skip_condition _ _ _ _ _); inversion H; subst; [reflexivity|].
  unfold count. now destruct (Py.has _ _).
- apply process_file_live in H. inversion H; subst; try reflexivity.
  unfold count. now destruct (Py.has _ _).
Qed.

Lemma loop_synced force dry_run kb_id existing key files :
forall l (w : World) l' w' log,
  for_each files (process_file force dry_run kb_id existing key) l w = (Ok l', w', log) ->
  synced_filenames l' = rev (map path_name files) ++ synced_filenames l.
Proof.
induction files as [|p files IH]; intros l w l' w' log H; simpl in H.
- inversion H; subst. reflexivity.
- apply bind_inv in H.
  destruct H as [(l1 & w1 & la & lb & E1 & E2 & ->) | (e & _ & E)]; [|discriminate].
  rewrite (IH _ _ _ _ _ E2), (process_file_synced _ _ _ _ _ _ _ _ _ _ _ E1).
  simpl. now rewrite <- app_assoc.
Qed.

Lemma detaches_app l1 l2 : detaches (l1 ++ l2) = detaches l1 ++ detaches l2.
Proof. apply flat_map_app. Qed.

Lemma detaches_avoided l :
forallb (fun ev => negb (is_detach ev)) l = true -> detaches l = [].
Proof.
induction l as [|ev l IH]; simpl; [reflexivity|].
intros H. apply andb_true_iff in H. destruct H as [H1 H2].
destruct ev; try discriminate; simpl; now apply IH.
Qed.

Lemma remove_stale_kept dry_run kb_id key synced filename fid n (w : World) :
Py.mem filename synced = true ->
remove_stale dry_run kb_id key synced (filename, fid) n w
= (Ok n, w, @nil Event).
Proof. intros H. unfold remove_stale. now rewrite H. Qed.

Lemma remove_stale_live kb_id key synced filename fid n (w : World) :
Py.mem filename synced = false ->
exists (w' : World) (log : list Event),
  remove_stale false kb_id key synced (filename, fid) n w = (Ok (S n), w', log)
  /\ detaches log = [(kb_id, fid)]
  /\ entry_of (cache w') key filename = None
  /\ (forall k f, k <> key \/ f <> filename ->
                  entry_of (cache w') k f = entry_of (cache w) k f)
  /\ cache_file w' = cache_file w.
Proof.
intros H. unfold remove_stale. rewrite H. cbn [negb].
rewrite bind_print, bind_assoc.
unfold _remove_file_from_knowledge. rewrite bind_assoc, bind_request.
set (ok := fst (http_post_file_remove kb_id fid (remote w))).
set (w1 := mkWorld (snd (http_post_file_remove kb_id fid (remote w)))
                   (cache w) (cache_file w)).
assert (Hdel : exists (w' : World) (ld : list Event),
          cache_delete key filename w1 = (Ok tt, w', ld)
          /\ detaches ld = []
          /\ entry_of (cache w') key filename = None
          /\ (forall k f, k <> key \/ f <> filename ->
                          entry_of (cache w') k f = entry_of (cache w) k f)
          /\ cache_file w' = cache_file w).
{ unfold cache_delete. rewrite bind_gets.
  destruct (Py.has filename (collection_of (cache w1) key)) eqn:Hhas.
  - rewrite bind_set_cache. eexists _, _. split; [reflexivity|].
    split; [reflexivity|]. simpl. split.
    + rewrite entry_of_same_key. apply get_del_same.
    + split; [|reflexivity]. intros k f Hkf.
      destruct (String.eqb_spec key k) as [->|Hne].
      * rewrite entry_of_same_key. destruct Hkf as [Hk|Hf]; [contradiction|].
        rewrite get_del_other by congruence. reflexivity.
      * now rewrite entry_of_other_key.
  - eexists _, _. split; [reflexivity|]. split; [reflexivity|]. simpl. split.
    + unfold entry_of. unfold Py.has in Hhas. simpl in Hhas.
      now destruct (Py.get filename (collection_of (cache w) key)).
    + split; reflexivity. }
destruct Hdel as (w' & ld & Ed & Hd & He & Hother & Hf).
destruct ok; rewrite ?bind_assoc, ?bind_print, ?bind_ret, (bind_ok _ Ed); simpl;
  eexists _, _; (split; [reflexivity|]); simpl; rewrite ?app_nil_r, ?Hd; auto.
Qed.

Lemma for_each_cons {X S} (x : X) (xs : list X) (body : X -> S -> M S) s w :
for_each (x :: xs) body s w = bind (body x s) (for_each xs body) w.
Proof. reflexivity. Qed.

Lemma stale_cons synced filename fid existing :
stale synced ((filename, fid) :: existing)
= if Py.mem filename synced then stale synced existing
  else (filename, fid) :: stale synced existing.
Proof. unfold stale. simpl. now destruct (Py.mem filename synced). Qed.

Lemma remove_loop_live kb_id key synced existing :
forall n (w : World),
exists (w' : World) (log : list Event),
  for_each existing (remove_stale false kb_id key synced) n w
  = (Ok (n + length (stale synced existing)), w', log)
  /\ detaches log = map (fun item => (kb_id, snd item)) (stale synced existing)
  /\ (forall item, In item (stale synced existing) ->
                   entry_of (cache w') key (fst item) = None)
  /\ (forall k f, k <> key \/ ~ In f (Py.keys (stale synced existing)) ->
                  entry_of (cache w') k f = entry_of (cache w) k f)
  /\ cache_file w' = cache_file w.
Proof.
induction existing as [|[filename fid] existing IH]; intros n w.
- exists w, []. simpl. rewrite Nat.add_0_r. repeat split; auto. intros item [].
- rewrite for_each_cons, stale_cons.
  destruct (Py.mem filename synced) eqn:Hmem.
  + rewrite (bind_ok _ (remove_stale_kept _ _ _ _ _ _ _ _ Hmem)).
    destruct (IH n w) as (w' & log & E & H1 & H2 & H3 & H4).
    exists w', log. rewrite E. repeat split; auto.
  + destruct (remove_stale_live kb_id key synced filename fid n w Hmem)
      as (w1 & l1 & E1 & D1 & N1 & O1 & F1).
    rewrite (bind_ok _ E1).
    destruct (IH (S n) w1) as (w' & log & E & H1 & H2 & H3 & H4).
    exists w', (l1 ++ log). rewrite E. simpl. split.
    { f_equal. f_equal. f_equal. lia. }
    split; [rewrite detaches_app, D1, H1; reflexivity|].
    split; [|split; [|congruence]].
    * intros item [<-|Hin]; [|now apply H2]. simpl.
      destruct (in_dec string_dec filename (Py.keys (stale synced existing)))
        as [Hk|Hk].
      -- apply in_map_iff in Hk. destruct Hk as (item & Hfst & Hitem).
         rewrite <- Hfst. now apply H2.
      -- rewrite H3 by (right; exact Hk). exact N1.
    * intros k f Hkf. rewrite H3.
      -- apply O1. destruct Hkf as [Hk|Hf]; [now left|]. right.
         intros ->. apply Hf. now left.
      -- destruct Hkf as [Hk|Hf]; [now left|]. right.
         intros Hin. apply Hf. now right.
Qed.

Lemma cache_open_run key (w : World) :
cache_open key w = (Ok tt, opened key w, @nil Event).
Proof.
unfold cache_open, opened. rewrite bind_gets. now destruct (Py.has key (cache w)).
Qed.

Lemma save_cache_run (w : World) :
_save_cache w
= (Ok tt, saved w, [@SaveCache Path (json_dumps (cache_to_json (cache w)))]).
Proof. unfold _save_cache. now rewrite bind_gets. Qed.

Lemma opened_entry key (w : World) k f :
entry_of (cache (opened key w)) k f = entry_of (cache w) k f.
Proof.
unfold opened. destruct (Py.has key (cache w)) eqn:Hhas; [reflexivity|]. simpl.
destruct (String.eqb_spec key k) as [->|Hne].
- rewrite entry_of_same_key. unfold entry_of, collection_of.
  unfold Py.has in Hhas. now destruct (Py.get k (cache w)).
- now apply entry_of_other_key.
Qed.

Lemma opened_cache_file key (w : World) : cache_file (opened key w) = cache_file w.
Proof. unfold opened. now destruct (Py.has key (cache w)). Qed.

Lemma mem_rev x xs : Py.mem x (rev xs) = Py.mem x xs.
Proof.
destruct (Py.mem x xs) eqn:E.
- apply mem_true. apply -> in_rev. now apply mem_true.
- apply mem_false. intros H. apply in_rev in H.
  apply mem_false in E. contradiction.
Qed.

Lemma stale_rev names existing : stale (rev names) existing = stale names existing.
Proof. unfold stale. apply filter_ext. intros item. now rewrite mem_rev. Qed.

(** The shape of a live [sync_files]. *)
Lemma sync_files_live force name kb_id files (w : World) r w' log :
sync_files force false name kb_id files w = (r, w', log) ->
let res := fst (http_get_files kb_id (remote w)) in
let existing := listing_of res in
let w1 := opened name (with_remote (snd (http_get_files kb_id (remote w))) w) in
let head := GetFiles kb_id res :: fetch_error MsgErrorFetchingFiles res in
exists rl w2 ll,
  for_each files (process_file force false kb_id existing name) (mkLocals 0 0 []) w1
  = (rl, w2, ll)
  /\ match rl with
     | Raise e => r = Raise e /\ w' = w2 /\ log = head ++ ll
     | Ok l =>
         let gone := stale (map path_name files) existing in
         exists w3 lr,
           r = Ok (added l, updated l, length gone)
           /\ w' = saved w3
           /\ log = head ++ ll ++ lr ++ [SaveCache (json_dumps (cache_to_json (cache w3)))]
           /\ detaches lr = map (fun item => (kb_id, snd item)) gone
           /\ forallb (fun ev => negb (is_get_files ev)) lr = true
           /\ (forall item, In item gone -> entry_of (cache w3) name (fst item) = None)
           /\ (forall k f, k <> name \/ ~ In f (Py.keys gone) ->
                           entry_of (cache w3) k f = entry_of (cache w2) k f)
     end.
Proof.
intros Hrun. cbv zeta. unfold sync_files in Hrun. cbv iota in Hrun.
rewrite (bind_ok _ (get_knowledge_files_run _ _)) in Hrun.
rewrite (bind_ok _ (cache_open_run _ _)) in Hrun.
match type of Hrun with context [bind (for_each ?fs ?b ?l0) ?k ?x] =>
  destruct (for_each fs b l0 x) as [[rl w2] ll] eqn:El end.
exists rl, w2, ll. split; [reflexivity|].
destruct rl as [l|e].
- rewrite (bind_ok _ El) in Hrun.
  destruct (remove_loop_live kb_id name (synced_filenames l)
              (listing_of (fst (http_get_files kb_id (remote w)))) 0 w2)
    as (w3 & lr & Er & Hd & Hnone & Hother & Hfile).
  pose proof (sat_for_each (avoids is_get_files) (avoids_nil _) (avoids_app _) _ _
                (fun x s _ => remove_stale_avoids_get_files false kb_id name
                                (synced_filenames l) x s) _ _ _ _ _ Er) as Hg.
  rewrite (loop_synced _ _ _ _ _ _ _ _ _ _ _ El) in Hd, Hnone, Hother, Er.
  simpl in Hd, Hnone, Hother, Er. rewrite app_nil_r, stale_rev in Hd, Hnone, Hother, Er.
  rewrite (loop_synced _ _ _ _ _ _ _ _ _ _ _ El) in Hrun. simpl in Hrun.
  rewrite app_nil_r in Hrun.
  assert (Er' : for_each (listing_of (fst (http_get_files kb_id (remote w))))
                  (remove_stale false kb_id name (rev (map path_name files))) 0 w2
                = (Ok (length (stale (map path_name files)
                         (listing_of (fst (http_get_files kb_id (remote w)))))), w3, lr)).
  { exact Er. }
  rewrite (bind_ok _ Er') in Hrun. cbn [negb] in Hrun.
  rewrite (bind_ok _ (save_cache_run _)) in Hrun. simpl in Hrun.
  inversion Hrun; subst. exists w3, lr. repeat split; auto.
- rewrite (bind_fail _ El) in Hrun. simpl in Hrun. inversion Hrun; subst.
  repeat split.
Qed.

Lemma bootstrap_ok name dry_run (w : World) :
exists kb (wb : World) (lb : list Event),
  bootstrap name dry_run w = (Ok kb, wb, lb)
  /\ cache wb = cache w /\ cache_file wb = cache_file w.
Proof.
unfold bootstrap. rewrite (bind_ok _ (get_knowledge_bases_run w)).
destruct (negb (Py.truthy _)).
- rewrite bind_print. destruct (negb dry_run).
  + rewrite (bind_ok _ (create_knowledge_base_run _ _)).
    destruct (negb (Py.truthy _)); eexists _, _, _; (split; [reflexivity|]);
      split; reflexivity.
  + eexists _, _, _. split; [reflexivity|]. split; reflexivity.
- eexists _, _, _. split; [reflexivity|]. split; reflexivity.
Qed.

(** The shape of a pass whose definition could be read. *)
Lemma pass_inv md force dry_run (w w0 : World) files lp r w' log :
_parse_definition PATH_PREFIX_MAP self md w = (Ok files, w0, lp) ->
sync_collection PATH_PREFIX_MAP self md force dry_run w = (r, w', log) ->
let name := path_stem md in
let pre := Print (MsgSyncing dry_run name) :: lp ++ [Print (MsgFound (length files))] in
(files = [] /\ r = Ok (0, 0, 0) /\ w' = w /\ log = pre)
\/ (files <> [] /\
    exists kb wb lb,
      bootstrap name dry_run w = (Ok kb, wb, lb)
      /\ cache wb = cache w /\ cache_file wb = cache_file w
      /\ match kb with
         | None => r = Ok (0, 0, 0) /\ w' = wb /\ log = pre ++ lb
         | Some kb_id =>
             exists ls,
               sync_files force dry_run name kb_id files wb = (r, w', ls)
               /\ log = pre ++ lb ++ ls
         end).
Proof.
intros Hparse Hrun. cbv zeta.
destruct (parse_definition_printing md _ _ _ _ Hparse) as [-> _].
rewrite sync_collection_phases in Hrun. unfold phases in Hrun.
rewrite bind_print, (bind_ok _ Hparse), bind_print in Hrun.
destruct files as [|p files].
- left. simpl in Hrun. inversion Hrun; subst. auto.
- right. split; [discriminate|].
  destruct (bootstrap_ok (path_stem md) dry_run w) as (kb & wb & lb & Eb & Hc & Hf).
  exists kb, wb, lb. split; [exact Eb|]. split; [exact Hc|]. split; [exact Hf|].
  rewrite (bind_ok _ Eb) in Hrun. destruct kb as [kb_id|].
  + destruct (sync_files force dry_run (path_stem md) kb_id (p :: files) wb)
      as [[rs ws] ls] eqn:Es.
    exists ls. simpl in Hrun. inversion Hrun; subst. split; [reflexivity|].
    simpl. rewrite <- !app_assoc. reflexivity.
  + simpl in Hrun. inversion Hrun; subst. repeat split.
    simpl. rewrite <- !app_assoc. simpl. rewrite app_nil_r. reflexivity.
Qed.

Lemma in_avoided (f : Event -> bool) (ev : Event) (l : list Event) :
forallb (fun e => negb (f e)) l = true -> In ev l -> f ev = false.
Proof.
intros H Hin. apply (proj1 (forallb_forall _ _) H) in Hin.
now apply negb_true_iff in Hin.
Qed.

Lemma parse_avoids f md (w w0 : World) r lp :
(forall msg, f (Print msg) = false) ->
_parse_definition PATH_PREFIX_MAP self md w = (r, w0, lp) ->
forallb (fun ev => negb (f ev)) lp = true.
Proof.
intros Hf H.
exact (printing_avoids f _ Hf (parse_definition_printing md) _ _ _ _ H).
Qed.

Lemma loop_avoids f force dry_run kb_id existing key files l (w : World) r w' log :
(forall p l0, sat (avoids f) (process_file force dry_run kb_id existing key p l0)) ->
for_each files (process_file force dry_run kb_id existing key) l w = (r, w', log) ->
forallb (fun ev => negb (f ev)) log = true.
Proof.
intros Hf H.
exact (sat_for_each (avoids f) (avoids_nil f) (avoids_app f) _ _
         (fun x s _ => Hf x s) _ _ _ _ _ H).
Qed.

Lemma fetch_error_prints m res : forallb is_print (fetch_error m res) = true.
Proof. now destruct res. Qed.

(** C3 (amended). In a live pass that ends normally, let [gone] be the
    entries of the fetched remote listing whose file name is not the name of
    a resolved file.  The removed count is the number of these entries; the
    detach requests of the pass are exactly one per entry, in the order of
    the listing, for the entry's remote identifier; and after the pass the
    cache holds no entry for any of these file names, whatever the remote
    store answered to the detach requests. *)
Theorem stale_files_detached
      (md : Path) (force : bool) (w w0 w' : World)
      (files : list Path) (lp log : list Event)
      (n_added n_updated n_removed : nat)
      (kb_id : string) (res : option (list (string * string))) :
_parse_definition PATH_PREFIX_MAP self md w = (Ok files, w0, lp) ->
sync_collection PATH_PREFIX_MAP self md force false w
= (Ok (n_added, n_updated, n_removed), w', log) ->
In (GetFiles kb_id res) log ->
let gone := stale (map path_name files) (listing_of res) in
n_removed = length gone
/\ detaches log = map (fun item => (kb_id, snd item)) gone
/\ (forall item, In item gone ->
                 entry_of (cache w') (path_stem md) (fst item) = None).
Proof.
intros Hparse Hrun Hin. cbv zeta.
pose proof (parse_avoids is_get_files md _ _ _ _ (fun _ => eq_refl) Hparse) as Hlp_g.
pose proof (parse_avoids is_detach md _ _ _ _ (fun _ => eq_refl) Hparse) as Hlp_d.
destruct (pass_inv md force false _ _ _ _ _ _ _ Hparse Hrun)
  as [(-> & _ & _ & ->) | (Hne & kb & wb & lb & Eb & Hc & Hf & Hrest)].
- exfalso. simpl in Hin. destruct Hin as [Hin|Hin]; [discriminate|].
  apply in_app_or in Hin. destruct Hin as [Hin|[Hin|[]]]; [|discriminate].
  pose proof (in_avoided _ _ _ Hlp_g Hin). discriminate.
- pose proof (bootstrap_avoids_get_files _ _ _ _ _ _ Eb) as Hlb_g.
  pose proof (bootstrap_avoids_detach _ _ _ _ _ _ Eb) as Hlb_d.
  assert (Hpre : forall ev, is_get_files ev = true ->
            ~ In ev (Print (MsgSyncing false (path_stem md))
                     :: lp ++ [Print (MsgFound (length files))])).
  { intros ev Hev [Hx|Hx]; [subst; discriminate|].
    apply in_app_or in Hx. destruct Hx as [Hx|[Hx|[]]]; [|subst; discriminate].
    pose proof (in_avoided _ _ _ Hlp_g Hx). congruence. }
  destruct kb as [kb0|].
  + destruct Hrest as (ls & Es & ->).
    destruct (sync_files_live _ _ _ _ _ _ _ _ Es) as (rl & w2 & ll & El & Hshape).
    destruct rl as [l|e]; [|destruct Hshape as [Hr _]; discriminate].
    destruct Hshape as (w3 & lr & Hr & -> & -> & Hd & Hlr_g & Hnone & Hother).
    pose proof (loop_avoids is_get_files _ _ _ _ _ _ _ _ _ _ _
                  (fun p l0 => process_file_avoids_get_files _ _ _ _ _ p l0) El) as Hll_g.
    pose proof (loop_avoids is_detach _ _ _ _ _ _ _ _ _ _ _
                  (fun p l0 => process_file_avoids_detach _ _ _ _ _ p l0) El) as Hll_d.
    assert (Hsame : kb_id = kb0 /\ res = fst (http_get_files kb0 (remote wb))).
    { apply in_app_or in Hin. destruct Hin as [Hin|Hin];
        [exfalso; exact (Hpre (GetFiles kb_id res) eq_refl Hin)|].
      apply in_app_or in Hin. destruct Hin as [Hin|Hin];
        [pose proof (in_avoided _ _ _ Hlb_g Hin); discriminate|].
      simpl in Hin. destruct Hin as [Hin|Hin]; [inversion Hin; auto|].
      exfalso. repeat (apply in_app_or in Hin; destruct Hin as [Hin|Hin]).
      - pose proof (fetch_error_prints MsgErrorFetchingFiles
                      (fst (http_get_files kb0 (remote wb)))) as Hp.
        apply (proj1 (forallb_forall _ _) Hp) in Hin. discriminate.
      - pose proof (in_avoided _ _ _ Hll_g Hin). discriminate.
      - pose proof (in_avoided _ _ _ Hlr_g Hin). discriminate.
      - destruct Hin as [Hin|[]]. discriminate. }
    destruct Hsame as [-> ->]. inversion Hr; subst. split; [reflexivity|]. split.
    * change (Print (MsgSyncing false (path_stem md))
              :: lp ++ [Print (MsgFound (length files))])
        with ([Print (MsgSyncing false (path_stem md))]
              ++ lp ++ [Print (MsgFound (length files))]).
      change (GetFiles kb0 ?x :: ?t) with ([GetFiles kb0 x] ++ t).
      rewrite !detaches_app.
      rewrite (detaches_avoided lp Hlp_d), (detaches_avoided lb Hlb_d),
        (detaches_avoided ll Hll_d), Hd.
      rewrite (detaches_avoided (fetch_error _ _)).
      -- simpl. now rewrite app_nil_r.
      -- now destruct (fst (http_get_files kb0 (remote wb))).
    * intros item Hitem. simpl. now apply Hnone.
  + destruct Hrest as (_ & _ & ->). exfalso.
    apply in_app_or in Hin. destruct Hin as [Hin|Hin];
      [exact (Hpre (GetFiles kb_id res) eq_refl Hin)|].
    pose proof (in_avoided _ _ _ Hlb_g Hin). discriminate.
Qed.

(* ---------------------------------------------------------------- *)
(** ** Dry runs *)

Lemma harmless_nil w : harmless w w [].
Proof. now split. Qed.

Lemma harmless_app w1 w2 w3 l1 l2 :
harmless w1 w2 l1 -> harmless w2 w3 l2 -> harmless w1 w3 (l1 ++ l2).
Proof.
intros [F1 H1] [F2 H2]. split; [congruence|]. now rewrite forallb_app, H1, H2.
Qed.

Lemma harmless_emit ev :
is_mutation ev || is_save ev = false -> sat harmless (@emit Path R ev).
Proof.
intros Hf w r w' l H. inversion H; subst. split; [reflexivity|].
simpl. now rewrite Hf.
Qed.

Lemma harmless_request {A} (g : R -> A * R) (ev : A -> Event) :
(forall a, is_mutation (ev a) || is_save (ev a) = false) ->
sat harmless (request g ev).
Proof.
intros Hf w r w' l. unfold request. destruct (g (remote w)) as [a r1].
intros H. inversion H; subst. split; [reflexivity|]. simpl. now rewrite Hf.
Qed.

Lemma harmless_set_cache c : sat harmless (@set_cache Path R c).
Proof. intros w r w' l H. inversion H; subst. now split. Qed.

Ltac harmless_steps :=
sat_steps_with harmless harmless_nil harmless_app
  ltac:(first
    [ apply harmless_emit; reflexivity
    | apply harmless_request; intros; reflexivity
    | apply harmless_set_cache
    | progress cbn [negb] ]).

Lemma harmless_printing {A} (m : M A) : sat printing m -> sat harmless m.
Proof.
intros Hm w r w' l H. destruct (Hm _ _ _ _ H) as [-> Hl]. split; [reflexivity|].
apply forallb_forall. intros ev Hin.
apply (proj1 (forallb_forall _ _) Hl) in Hin. now destruct ev.
Qed.

Lemma dry_sync_files_harmless force name kb_id files :
sat harmless (sync_files force true name kb_id files).
Proof.
unfold sync_files, process_file, remove_stale, cache_open, cache_delete.
harmless_steps.
Qed.

Lemma dry_pass_harmless md force :
sat harmless (sync_collection PATH_PREFIX_MAP self md force true).
Proof.
unfold sync_collection, _get_knowledge_bases.
sat_steps_with harmless harmless_nil harmless_app
  ltac:(first
    [ apply dry_sync_files_harmless
    | apply harmless_printing, parse_definition_printing
    | apply harmless_emit; reflexivity
    | apply harmless_request; intros; reflexivity
    | progress cbn [negb] ]).
Qed.

Lemma skip_condition_empty force file_hash cached filename :
skip_condition force file_hash cached [] filename = false.
Proof. unfold skip_condition. simpl. now rewrite andb_false_r. Qed.

Lemma parse_independent md (w w0 w2 : World) files lp :
_parse_definition PATH_PREFIX_MAP self md w = (Ok files, w0, lp) ->
exists lp2, _parse_definition PATH_PREFIX_MAP self md w2 = (Ok files, w2, lp2).
Proof.
intros H. destruct (read_text md) as [content|] eqn:Hread.
- destruct (parse_definition_run md content w Hread) as [l1 E1].
  destruct (parse_definition_run md content w2 Hread) as [l2 E2].
  rewrite E1 in H. inversion H; subst. now exists l2.
- unfold _parse_definition in H. rewrite Hread in H. discriminate.
Qed.

(** With an empty remote listing a clean live loop adds every file. *)
Lemma live_loop_adds force kb_id key files :
forall l (w : World) l' w' log,
  for_each files (process_file force false kb_id [] key) l w = (Ok l', w', log) ->
  forallb clean log = true ->
  added l' = added l + length files /\ updated l' = updated l.
Proof.
induction files as [|p files IH]; intros l w l' w' log H Hclean.
- simpl in H. inversion H; subst. simpl. split; [lia|reflexivity].
- rewrite for_each_cons in H. apply bind_inv in H.
  destruct H as [(l1 & w1 & la & lb & E1 & E2 & ->) | (e & _ & E)]; [|discriminate].
  rewrite forallb_app in Hclean. apply andb_true_iff in Hclean.
  destruct Hclean as [Ha Hb].
  destruct (IH _ _ _ _ _ E2 Hb) as [Hadd Hupd].
  apply process_file_live in E1.
  inversion E1 as
    [ Hs | Hs Hr | content up wx Hs Hr Hup Hc Hf
    | content fid wx attempts Hs Hr Hfid Hatt Hc Hf
    | content fid wx attempts Hs Hr Hfid Hatt Hc Hf ]; subst.
  + rewrite skip_condition_empty in Hs. discriminate.
  + simpl in Ha. rewrite Hup in Ha. simpl in Ha. discriminate.
  + rewrite Hadd, Hupd. simpl. split; [lia|reflexivity].
  + exfalso. simpl in Ha. rewrite !forallb_app in Ha. simpl in Ha.
    rewrite !andb_false_r in Ha. discriminate.
Qed.

(** With an empty remote listing a dry loop counts every file as added. *)
Lemma dry_loop_adds force kb_id key files :
forall l (w : World),
exists l' log,
  for_each files (process_file force true kb_id [] key) l w = (Ok l', w, log)
  /\ added l' = added l + length files /\ updated l' = updated l.
Proof.
induction files as [|p files IH]; intros l w.
- exists l, []. simpl. repeat split. lia.
- rewrite for_each_cons. unfold bind.
  rewrite process_file_dry, skip_condition_empty.
  destruct (IH (count [] (path_name p) (seen (path_name p) l)) w)
    as (l' & log & E & Hadd & Hupd).
  rewrite E. eexists _, _. split; [reflexivity|].
  rewrite Hadd, Hupd. simpl. split; [lia|reflexivity].
Qed.

Lemma forallb_false_in {X} (f : X -> bool) (x : X) (l : list X) :
In x l -> f x = false -> forallb f l = false.
Proof.
intros Hin Hf. destruct (forallb f l) eqn:E; [|reflexivity].
rewrite (proj1 (forallb_forall _ _) E x Hin) in Hf. discriminate.
Qed.

Lemma bootstrap_none_unclean name (w wb : World) lb :
bootstrap name false w = (Ok None, wb, lb) -> forallb clean lb = false.
Proof.
unfold bootstrap. rewrite (bind_ok _ (get_knowledge_bases_run w)).
destruct (negb (Py.truthy _)); [|discriminate].
rewrite bind_print. cbn [negb].
rewrite (bind_ok _ (create_knowledge_base_run _ _)).
match goal with |- context [create_error name ?c] => set (created := c) end.
destruct (Py.truthy created) eqn:Hc; cbn [negb]; [discriminate|].
intros H. inversion H; subst.
apply (forallb_false_in clean (PostCreate name created)); [|exact Hc].
right. apply in_or_app. right. right. left. reflexivity.
Qed.

Lemma bootstrap_dry_some name (w : World) :
exists kb_id (wb : World) (lb : list Event),
  bootstrap name true w = (Ok (Some kb_id), wb, lb)
  /\ cache wb = cache w /\ cache_file wb = cache_file w.
Proof.
unfold bootstrap. rewrite (bind_ok _ (get_knowledge_bases_run w)).
destruct (negb (Py.truthy _)).
- rewrite bind_print. cbn [negb].
  eexists _, _, _. split; [reflexivity|]. split; reflexivity.
- eexists _, _, _. split; [reflexivity|]. split; reflexivity.
Qed.

Lemma sync_files_dry force name kb_id files (w : World) :
exists (w' : World) (log : list Event),
  sync_files force true name kb_id files w = (Ok (length files, 0, 0), w', log).
Proof.
unfold sync_files. rewrite bind_ret.
rewrite (bind_ok _ (cache_open_run _ _)).
destruct (dry_loop_adds force kb_id name files (mkLocals 0 0 []) (opened name w))
  as (l' & log & E & Hadd & Hupd).
rewrite (bind_ok _ E). simpl in Hadd, Hupd. simpl.
rewrite Hadd, Hupd. eexists _, _. reflexivity.
Qed.

Lemma forallb_app_inv {X} (f : X -> bool) (a b : list X) :
forallb f (a ++ b) = true -> forallb f a = true /\ forallb f b = true.
Proof. rewrite forallb_app. apply andb_true_iff. Qed.

(** C1 (amended). A dry run makes no create, upload, attach, detach or
    purge request, does not write the cache file and leaves it as it was.
    Its counts are those of a live pass on the same fixture whenever that
    live pass ends normally, finds the remote listing of the collection
    empty and has no failure (every creation and upload returns an
    identifier, every file gets attached). *)
Theorem dry_run_preview
      (md : Path) (force : bool) (w wd : World)
      (rd : Result (nat * nat * nat)) (ld : list Event) :
sync_collection PATH_PREFIX_MAP self md force true w = (rd, wd, ld) ->
cache_file wd = cache_file w
/\ forallb (fun ev => negb (is_mutation ev)) ld = true
/\ forallb (fun ev => negb (is_save ev)) ld = true
/\ (forall counts wl ll,
      sync_collection PATH_PREFIX_MAP self md force false w = (Ok counts, wl, ll) ->
      (forall kb_id res, In (GetFiles kb_id res) ll -> listing_of res = []) ->
      forallb clean ll = true ->
      rd = Ok counts).
Proof.
intros Hdry.
destruct (dry_pass_harmless md force _ _ _ _ Hdry) as [Hfile Hlog].
split; [exact Hfile|]. split; [|split].
- apply forallb_forall. intros ev Hin.
  apply (proj1 (forallb_forall _ _) Hlog) in Hin.
  apply negb_true_iff in Hin. apply orb_false_iff in Hin. destruct Hin as [Hm _].
  now rewrite Hm.
- apply forallb_forall. intros ev Hin.
  apply (proj1 (forallb_forall _ _) Hlog) in Hin.
  apply negb_true_iff in Hin. apply orb_false_iff in Hin. destruct Hin as [_ Hs].
  now rewrite Hs.
- intros counts wl ll Hlive Hempty Hclean.
  destruct (_parse_definition PATH_PREFIX_MAP self md w) as [[[files|e] wp] lp] eqn:Hparse.
  2:{ rewrite sync_collection_phases in Hlive. unfold phases in Hlive.
      rewrite bind_print, (bind_fail _ Hparse) in Hlive. discriminate. }
  destruct (pass_inv md force false _ _ _ _ _ _ _ Hparse Hlive)
    as [(-> & Hr & _ & _) | (Hne & kb & wb & lb & Eb & _ & _ & Hrest)].
  + destruct (pass_inv md force true _ _ _ _ _ _ _ Hparse Hdry)
      as [(_ & -> & _ & _) | (Hne & _)]; [exact (eq_sym Hr)|contradiction].
  + destruct (pass_inv md force true _ _ _ _ _ _ _ Hparse Hdry)
      as [(-> & _) | (_ & kbd & wbd & lbd & Ebd & _ & _ & Hrestd)]; [contradiction|].
    destruct (bootstrap_dry_some (path_stem md) w) as (kd & wx & lx & Ex & _ & _).
    rewrite Ex in Ebd. inversion Ebd; subst kbd wbd lbd.
    destruct Hrestd as (lsd & Esd & _).
    destruct (sync_files_dry force (path_stem md) kd files wx) as (wy & ly & Ey).
    rewrite Ey in Esd. inversion Esd; subst rd.
    destruct kb as [kb_id|].
    * destruct Hrest as (ls & Es & ->).
      destruct (sync_files_live _ _ _ _ _ _ _ _ Es) as (rl & w2 & lloop & El & Hshape).
      destruct rl as [l|e]; [|destruct Hshape as [Hr _]; discriminate].
      destruct Hshape as (w3 & lr & Hr & _ & -> & _).
      assert (Hlist : listing_of (fst (http_get_files kb_id (remote wb))) = []).
      { apply (Hempty kb_id). apply in_or_app. right. apply in_or_app. right.
        left. reflexivity. }
      rewrite Hlist in El, Hr.
      apply forallb_app_inv in Hclean. destruct Hclean as [_ Hclean].
      apply forallb_app_inv in Hclean. destruct Hclean as [_ Hclean].
      change (GetFiles kb_id ?x :: ?t ++ ?u) with ((GetFiles kb_id x :: t) ++ u)
        in Hclean.
      apply forallb_app_inv in Hclean. destruct Hclean as [_ Hclean].
      apply forallb_app_inv in Hclean. destruct Hclean as [Hclean _].
      destruct (live_loop_adds _ _ _ _ _ _ _ _ _ El Hclean) as [Hadd Hupd].
      simpl in Hadd, Hupd. inversion Hr; subst counts.
      rewrite Hadd, Hupd. reflexivity.
    * destruct Hrest as (_ & _ & ->). exfalso.
      apply forallb_app_inv in Hclean. destruct Hclean as [_ Hclean].
      rewrite (bootstrap_none_unclean _ _ _ _ Eb) in Hclean. discriminate.
Qed.

(* ---------------------------------------------------------------- *)
(** ** The skip condition in a pass *)




(* ---------------------------------------------------------------- *)
(** ** A second pass *)

Lemma truthy_nonempty (s : string) : s <> "" -> Py.truthy (Some s) = true.
Proof. destruct s; [contradiction|reflexivity]. Qed.

Lemma step_in_sync force kb_id existing key p l (w : World) l' w' log :
process_file force false kb_id existing key p l w = (Ok l', w', log) ->
forallb clean log = true ->
in_sync (cache w') key p.
Proof.
intros H Hclean. apply process_file_live in H.
inversion H as
  [ Hs | Hs Hr | content up wx Hs Hr Hup Hc Hf
  | content fid wx attempts Hs Hr Hfid Hatt Hc Hf
  | content fid wx attempts Hs Hr Hfid Hatt Hc Hf ]; subst.
- apply skip_condition_true in Hs.
  destruct Hs as (_ & (e & He & Hh & id & Hid & Hne) & _).
  exists e. repeat split; try assumption. rewrite Hid. now apply truthy_nonempty.
- simpl in Hclean. rewrite Hup in Hclean. simpl in Hclean. discriminate.
- exists (new_entry p fid). rewrite Hc. split; [apply entry_of_written|].
  split; [reflexivity|]. now apply truthy_nonempty.
- exfalso. simpl in Hclean. rewrite !forallb_app in Hclean. simpl in Hclean.
  rewrite !andb_false_r in Hclean. discriminate.
Qed.

Lemma step_keeps_in_sync force kb_id existing key p q l (w : World) l' w' log :
process_file force false kb_id existing key q l w = (Ok l', w', log) ->
(path_name q = path_name p -> _file_hash q = _file_hash p) ->
in_sync (cache w) key p -> in_sync (cache w') key p.
Proof.
intros H Hsame Hin. apply process_file_live in H.
inversion H as
  [ Hs | Hs Hr | content up wx Hs Hr Hup Hc Hf
  | content fid wx attempts Hs Hr Hfid Hatt Hc Hf
  | content fid wx attempts Hs Hr Hfid Hatt Hc Hf ]; subst;
  try exact Hin; try (unfold in_sync; rewrite Hc; exact Hin).
unfold in_sync. rewrite Hc, entry_of_same_key.
destruct (String.eqb_spec (path_name q) (path_name p)) as [E|E].
- rewrite E, get_set_same. exists (new_entry q fid).
  split; [reflexivity|]. split; [simpl; now rewrite Hsame|].
  now apply truthy_nonempty.
- rewrite get_set_other by assumption. exact Hin.
Qed.

Lemma loop_keeps_in_sync force kb_id existing key p files :
forall l (w : World) l' w' log,
  for_each files (process_file force false kb_id existing key) l w = (Ok l', w', log) ->
  (forall q, In q files -> path_name q = path_name p -> _file_hash q = _file_hash p) ->
  in_sync (cache w) key p -> in_sync (cache w') key p.
Proof.
induction files as [|q files IH]; intros l w l' w' log H Hsame Hin.
- simpl in H. inversion H; subst. exact Hin.
- rewrite for_each_cons in H. apply bind_inv in H.
  destruct H as [(l1 & w1 & la & lb & E1 & E2 & ->) | (e & _ & E)]; [|discriminate].
  apply (IH _ _ _ _ _ E2).
  + intros q' Hq'. apply Hsame. now right.
  + apply (step_keeps_in_sync _ _ _ _ _ _ _ _ _ _ _ E1); [|exact Hin].
    apply Hsame. now left.
Qed.

Lemma loop_in_sync force kb_id existing key files :
forall l (w : World) l' w' log,
  for_each files (process_file force false kb_id existing key) l w = (Ok l', w', log) ->
  forallb clean log = true ->
  (forall p q, In p files -> In q files ->
               path_name p = path_name q -> _file_hash p = _file_hash q) ->
  forall p, In p files -> in_sync (cache w') key p.
Proof.
induction files as [|q files IH]; intros l w l' w' log H Hclean Hsame p Hp.
- destruct Hp.
- rewrite for_each_cons in H. apply bind_inv in H.
  destruct H as [(l1 & w1 & la & lb & E1 & E2 & ->) | (e & _ & E)]; [|discriminate].
  apply forallb_app_inv in Hclean. destruct Hclean as [Ha Hb].
  destruct Hp as [<-|Hp].
  + apply (loop_keeps_in_sync _ _ _ _ _ _ _ _ _ _ _ E2).
    * intros q' Hq' Hn. apply Hsame; [now right | now left | exact Hn].
    * exact (step_in_sync _ _ _ _ _ _ _ _ _ _ E1 Ha).
  + apply (IH _ _ _ _ _ E2 Hb); [|exact Hp].
    intros a b Ha' Hb'. apply Hsame; now right.
Qed.

Lemma process_file_skip force dry_run kb_id existing key p l (w : World) :
skip_condition force (_file_hash p) (entry_of (cache w) key (path_name p))
               existing (path_name p) = true ->
process_file force dry_run kb_id existing key p l w
= (Ok (seen (path_name p) l), w, @nil Event).
Proof.
intros Hskip. unfold process_file. rewrite bind_gets.
fold (seen (path_name p) l). now rewrite Hskip.
Qed.

Lemma skip_loop force dry_run kb_id existing key files :
forall l (w : World),
  (forall p, In p files ->
     skip_condition force (_file_hash p) (entry_of (cache w) key (path_name p))
                    existing (path_name p) = true) ->
  for_each files (process_file force dry_run kb_id existing key) l w
  = (Ok (mkLocals (added l) (updated l)
           (rev (map path_name files) ++ synced_filenames l)), w, @nil Event).
Proof.
induction files as [|p files IH]; intros l w Hskip.
- simpl. now destruct l.
- rewrite for_each_cons.
  rewrite (bind_ok _ (process_file_skip _ _ _ _ _ _ _ _ (Hskip p (or_introl eq_refl)))).
  rewrite IH by (intros q Hq; apply Hskip; now right).
  simpl. now rewrite <- app_assoc.
Qed.

Lemma remove_loop_idle dry_run kb_id key synced existing :
forall n (w : World),
  (forall item, In item existing -> Py.mem (fst item) synced = true) ->
  for_each existing (remove_stale dry_run kb_id key synced) n w
  = (Ok n, w, @nil Event).
Proof.
induction existing as [|[filename fid] existing IH]; intros n w Hall.
- reflexivity.
- rewrite for_each_cons.
  rewrite (bind_ok _ (remove_stale_kept _ _ _ _ _ _ _ _
                        (Hall (filename, fid) (or_introl eq_refl)))).
  rewrite IH by (intros item Hitem; apply Hall; now right).
  reflexivity.
Qed.

Lemma stale_not_resolved names existing f :
In f (Py.keys (stale names existing)) -> ~ In f names.
Proof.
unfold Py.keys, stale. intros H. apply in_map_iff in H.
destruct H as (item & <- & Hitem). apply filter_In in Hitem.
destruct Hitem as [_ Hm]. apply negb_true_iff in Hm.
now apply mem_false.
Qed.

Lemma bootstrap_found name dry_run (w : World) :
Py.truthy (Py.get name (bases_of (fst (http_get_knowledge (remote w))))) = true ->
bootstrap name dry_run w
= (Ok (Some (id_of (Py.get name (bases_of (fst (http_get_knowledge (remote w))))))),
   with_remote (snd (http_get_knowledge (remote w))) w,
   GetBases (fst (http_get_knowledge (remote w)))
   :: fetch_error MsgErrorFetchingBases (fst (http_get_knowledge (remote w)))).
Proof.
intros H. unfold bootstrap. rewrite (bind_ok _ (get_knowledge_bases_run w)).
rewrite H. simpl. now rewrite app_nil_r.
Qed.

Lemma fetch_error_harmless m res :
forallb (fun ev : Event => negb (is_mutation ev)) (fetch_error m res) = true.
Proof. now destruct res. Qed.

(** After a live pass without failure every resolved file is in sync,
    provided files of the same name have the same hash. *)
Lemma clean_pass_in_sync md force (w w0 w1 : World) files lp counts log :
_parse_definition PATH_PREFIX_MAP self md w = (Ok files, w0, lp) ->
sync_collection PATH_PREFIX_MAP self md force false w = (Ok counts, w1, log) ->
forallb clean log = true ->
(forall p q, In p files -> In q files ->
             path_name p = path_name q -> _file_hash p = _file_hash q) ->
forall p, In p files -> in_sync (cache w1) (path_stem md) p.
Proof.
intros Hparse Hrun Hclean Hsame p Hp.
destruct (pass_inv md force false _ _ _ _ _ _ _ Hparse Hrun)
  as [(-> & _) | (Hne & kb & wb & lb & Eb & _ & _ & Hrest)]; [destruct Hp|].
destruct kb as [kb_id|].
- destruct Hrest as (ls & Es & ->).
  destruct (sync_files_live _ _ _ _ _ _ _ _ Es) as (rl & w2 & lloop & El & Hshape).
  destruct rl as [l|e]; [|destruct Hshape as [Hr _]; discriminate].
  destruct Hshape as (w3 & lr & _ & -> & -> & _ & _ & _ & Hother).
  apply forallb_app_inv in Hclean. destruct Hclean as [_ Hclean].
  apply forallb_app_inv in Hclean. destruct Hclean as [_ Hclean].
  change (GetFiles kb_id ?x :: ?t ++ ?u) with ((GetFiles kb_id x :: t) ++ u)
    in Hclean.
  apply forallb_app_inv in Hclean. destruct Hclean as [_ Hclean].
  apply forallb_app_inv in Hclean. destruct Hclean as [Hclean _].
  destruct (loop_in_sync _ _ _ _ _ _ _ _ _ _ El Hclean Hsame p Hp)
    as (e & He & Hh & Ht).
  exists e. split; [|split; assumption]. simpl. rewrite Hother; [exact He|].
  right. intros Hin. apply stale_not_resolved in Hin. apply Hin.
  now apply in_map.
- destruct Hrest as (_ & _ & ->). exfalso.
  apply forallb_app_inv in Hclean. destruct Hclean as [_ Hclean].
  rewrite (bootstrap_none_unclean _ _ _ _ Eb) in Hclean. discriminate.
Qed.

(** C2 (amended). Take a live pass that ended normally and without failure
    (every creation and upload returned an identifier, every file got
    attached), over resolved files among which files of the same name have
    the same content hash.  Suppose that in the next pass, not forced, the
    remote store lists the collection with a usable identifier and lists for
    it exactly the names of the resolved files.  Then that pass makes no
    create, upload, attach, detach or purge request: every file meets the
    skip condition and the removal scan finds nothing; it returns
    [(0, 0, 0)] and every cache entry is as before. *)
Theorem second_pass_is_idle
      (md : Path) (force : bool) (w w0 w1 : World)
      (files : list Path) (lp log : list Event) (counts : nat * nat * nat) :
_parse_definition PATH_PREFIX_MAP self md w = (Ok files, w0, lp) ->
sync_collection PATH_PREFIX_MAP self md force false w = (Ok counts, w1, log) ->
forallb clean log = true ->
(forall p q, In p files -> In q files ->
             path_name p = path_name q -> _file_hash p = _file_hash q) ->
let name := path_stem md in
let bases := bases_of (fst (http_get_knowledge (remote w1))) in
let listing :=
  listing_of (fst (http_get_files (id_of (Py.get name bases))
                     (snd (http_get_knowledge (remote w1))))) in
Py.truthy (Py.get name bases) = true ->
(forall filename, In filename (Py.keys listing) <-> In filename (map path_name files)) ->
exists w2 log2,
  sync_collection PATH_PREFIX_MAP self md false false w1 = (Ok (0, 0, 0), w2, log2)
  /\ forallb (fun ev => negb (is_mutation ev)) log2 = true
  /\ (forall key filename,
        entry_of (cache w2) key filename = entry_of (cache w1) key filename).
Proof.
intros Hparse Hrun Hclean Hsame name bases listing Hbase Hlisting.
pose proof (clean_pass_in_sync md force _ _ _ _ _ _ _ Hparse Hrun Hclean Hsame)
  as Hsync.
destruct (parse_independent md _ _ w1 _ _ Hparse) as [lp2 Hparse2].
pose proof (parse_avoids is_mutation md _ _ _ _ (fun _ => eq_refl) Hparse2) as Hlp2.
rewrite sync_collection_phases. unfold phases.
rewrite bind_print, (bind_ok _ Hparse2), bind_print.
destruct files as [|p0 files0] eqn:Hfiles.
- eexists _, _. split; [reflexivity|]. split; [|reflexivity].
  simpl. rewrite !forallb_app, Hlp2. reflexivity.
- rewrite <- Hfiles in *. clear Hfiles.
  rewrite (bind_ok _ (bootstrap_found _ _ _ Hbase)).
  fold name bases.
  set (kb_id := id_of (Py.get name bases)) in *.
  set (wb := with_remote (snd (http_get_knowledge (remote w1))) w1).
  unfold sync_files. cbv iota.
  rewrite (bind_ok _ (get_knowledge_files_run kb_id wb)).
  rewrite (bind_ok _ (cache_open_run _ _)).
  change (listing_of (fst (http_get_files kb_id (remote wb)))) with listing.
  set (wo := opened name (with_remote (snd (http_get_files kb_id (remote wb))) wb)).
  assert (Hentry : forall k f, entry_of (cache wo) k f = entry_of (cache w1) k f).
  { intros k f. unfold wo. now rewrite opened_entry. }
  assert (Hskip : forall p, In p files ->
            skip_condition false (_file_hash p)
              (entry_of (cache wo) name (path_name p)) listing (path_name p) = true).
  { intros p Hp. apply skip_condition_true. split; [reflexivity|].
    destruct (Hsync p Hp) as (e & He & Hh & Ht). split.
    - exists e. rewrite Hentry. split; [exact He|]. split; [exact Hh|].
      apply truthy_true in Ht. destruct Ht as (id & Hid & Hne).
      now exists id.
    - apply Hlisting. now apply in_map. }
  rewrite (bind_ok _ (skip_loop false false kb_id listing name files _ wo Hskip)).
  cbn [synced_filenames added updated].
  assert (Hidle : forall item, In item listing ->
            Py.mem (fst item) (rev (map path_name files) ++ []) = true).
  { intros item Hitem. apply mem_true. apply in_or_app. left.
    apply -> in_rev. apply Hlisting. unfold Py.keys. now apply in_map. }
  rewrite (bind_ok _ (remove_loop_idle false kb_id name _ listing 0 wo Hidle)).
  cbn [negb]. rewrite (bind_ok _ (save_cache_run wo)).
  eexists _, _. split; [reflexivity|]. split.
  + simpl. rewrite !forallb_app, Hlp2. simpl.
    rewrite ?forallb_app, ?fetch_error_harmless. simpl.
    rewrite ?forallb_app, ?fetch_error_harmless. reflexivity.
  + intros k f. simpl. apply Hentry.
Qed.

(* ---------------------------------------------------------------- *)
(** ** Path translation *)

Lemma prefix_nil (s : string) : String.prefix "" s = true.
Proof. now destruct s. Qed.

Lemma prefix_cons (a b : ascii) (p s : string) :
String.prefix (String a p) (String b s)
= if ascii_dec a b then String.prefix p s else false.
Proof. reflexivity. Qed.

Lemma index_cons (p : string) (c : ascii) (s : string) :
String.index 0 p (String c s)
= if String.prefix p (String c s) then Some 0
  else match String.index 0 p s with Some n => Some (S n) | None => None end.
Proof. reflexivity. Qed.

Lemma prefix_app (p rest : string) : String.prefix p (p ++ rest) = true.
Proof.
induction p as [|c p IH]; [apply prefix_nil|].
cbn [append]. rewrite prefix_cons.
destruct (ascii_dec c c); [exact IH | contradiction].
Qed.

Lemma index_of_prefix (p s : string) :
String.prefix p s = true -> String.index 0 p s = Some 0.
Proof.
destruct s; intros H.
- destruct p; [reflexivity | discriminate].
- now rewrite index_cons, H.
Qed.

Lemma string_length_app (a b : string) :
String.length (a ++ b) = String.length a + String.length b.
Proof. induction a as [|c a IH]; simpl; [reflexivity | now rewrite IH]. Qed.

Lemma substring_all (s : string) : String.substring 0 (String.length s) s = s.
Proof. induction s as [|c s IH]; simpl; [reflexivity | now rewrite IH]. Qed.

Lemma substring_app_left (p rest : string) :
String.substring 0 (String.length p) (p ++ rest) = p.
Proof.
induction p as [|c p IH]; simpl; [now destruct rest | now rewrite IH].
Qed.

Lemma substring_app_right (p rest : string) (m : nat) :
String.substring (String.length p) m (p ++ rest) = String.substring 0 m rest.
Proof. induction p as [|c p IH]; simpl; [reflexivity | exact IH]. Qed.

Lemma suffix_after (p rest : string) (i : nat) :
i = String.length p ->
String.substring i (String.length (p ++ rest) - i) (p ++ rest) = rest.
Proof.
intros ->. rewrite substring_app_right, string_length_app.
replace (String.length p + String.length rest - String.length p)
  with (String.length rest) by lia.
apply substring_all.
Qed.

Lemma index_colon (a b : string) :
Py.contains ":" a = false ->
String.index 0 ":" (a ++ ":" ++ b) = Some (String.length a).
Proof.
unfold Py.contains. induction a as [|c a IH]; intros H.
- cbn [append]. rewrite index_cons, prefix_cons, prefix_nil.
  destruct (ascii_dec ":" ":") as [_|N]; [reflexivity | now elim N].
- cbn [append String.length]. rewrite index_cons, prefix_cons, prefix_nil in *.
  destruct (ascii_dec ":" c) as [E|E]; [discriminate|].
  destruct (String.index 0 ":" a); [discriminate|].
  specialize (IH eq_refl). cbn [append] in IH. now rewrite IH.
Qed.

Lemma contains_colon (a b : string) : Py.contains ":" (a ++ ":" ++ b) = true.
Proof.
unfold Py.contains. induction a as [|c a IH]; cbn [append];
  rewrite index_cons, prefix_cons, prefix_nil.
- destruct (ascii_dec ":" ":") as [_|N]; [reflexivity | now elim N].
- destruct (ascii_dec ":" c); [reflexivity|].
  cbn [append] in IH. now destruct (String.index 0 ":" (a ++ String ":" b)).
Qed.

Lemma split_once_colon (a b : string) :
Py.contains ":" a = false ->
Py.split_once ":" (a ++ ":" ++ b) = Some (a, b).
Proof.
intros H. unfold Py.split_once. rewrite (index_colon a b H).
rewrite substring_app_left. f_equal. f_equal.
replace (a ++ ":" ++ b)%string with ((a ++ ":") ++ b)%string.
- apply suffix_after. rewrite string_length_app. reflexivity.
- clear H. induction a as [|c a IH]; simpl; [reflexivity | now rewrite IH].
Qed.

(** X1. With [PATH_PREFIX_MAP] of the form [from:to], the colon being the
    first one of the map, a path that starts with [from] has that prefix
    replaced by [to] and the rest kept as it is; any other path is returned
    unchanged.  The match is on characters, not on path components, and
    [to] may itself contain colons. *)
Theorem translate_path_rewrites (from_prefix to_prefix : string) :
Py.contains ":" from_prefix = false ->
(forall rest,
   _translate_path (from_prefix ++ ":" ++ to_prefix) (from_prefix ++ rest)
   = (to_prefix ++ rest)%string)
/\ (forall path_str,
      Py.startswith path_str from_prefix = false ->
      _translate_path (from_prefix ++ ":" ++ to_prefix) path_str = path_str).
Proof.
intros Hfrom.
assert (Hmap : forall s,
  _translate_path (from_prefix ++ ":" ++ to_prefix) s
  = if Py.startswith s from_prefix
    then Py.replace_first from_prefix to_prefix s else s).
{ intros s. unfold _translate_path.
  rewrite contains_colon, (split_once_colon _ _ Hfrom).
  destruct (from_prefix ++ ":" ++ to_prefix =? "")%string eqn:E; [|reflexivity].
  apply String.eqb_eq in E. destruct from_prefix; discriminate. }
split.
- intros rest. rewrite Hmap. unfold Py.startswith. rewrite prefix_app.
  unfold Py.replace_first. rewrite (index_of_prefix _ _ (prefix_app _ _)).
  rewrite suffix_after by reflexivity.
  now destruct (from_prefix ++ rest)%string.
- intros s Hs. now rewrite Hmap, Hs.
Qed.

(* ---------------------------------------------------------------- *)
(** ** What the parser lets through *)

Lemma resolve_files_accepted (s : string) (p : Path) :
In p (resolve_files s) -> is_file p = true /\ accepted self p = true.
Proof.
unfold resolve_files. set (path := if is_symlink _ then _ else _).
destruct (negb (exists_ path)); [intros []|].
destruct (is_file path) eqn:Ef.
- destruct (accepted self path) eqn:Ea; [|intros []].
  intros [<-|[]]. now split.
- destruct (is_dir path); [|intros []].
  intros H. apply filter_In in H. destruct H as [_ H].
  now apply andb_true_iff in H.
Qed.

Lemma accepted_true (p : Path) :
accepted self p = true <->
In (Py.lower (path_suffix p)) (extensions self)
/\ forall pattern, In pattern (excludes self) -> fnmatch (path_str p) pattern = false.
Proof.
unfold accepted, _is_excluded. rewrite andb_true_iff, mem_true, negb_true_iff.
split; intros [H1 H2]; (split; [exact H1|]).
- intros pattern Hin. destruct (fnmatch (path_str p) pattern) eqn:E; [|reflexivity].
  assert (existsb (fun pattern => fnmatch (path_str p) pattern) (excludes self) = true)
    by (apply existsb_exists; eauto).
  congruence.
- destruct (existsb _ _) eqn:E; [|reflexivity].
  apply existsb_exists in E. destruct E as (pattern & Hin & E).
  rewrite (H2 _ Hin) in E. discriminate.
Qed.

(** X2. Every file the definition parser returns is a regular file whose
    lower-cased suffix is one of the configured extensions and whose path
    matches none of the exclude patterns, whether it was named by the
    definition itself or found below a directory the definition names. *)
Theorem parsed_files_are_accepted
      (md : Path) (w w' : World) (files : list Path) (l : list Event) (p : Path) :
_parse_definition PATH_PREFIX_MAP self md w = (Ok files, w', l) ->
In p files ->
is_file p = true
/\ In (Py.lower (path_suffix p)) (extensions self)
/\ forall pattern, In pattern (excludes self) -> fnmatch (path_str p) pattern = false.
Proof.
intros Hrun Hin.
destruct (read_text md) as [content|] eqn:Er.
- destruct (parse_definition_run md content w Er) as [l' E].
  rewrite E in Hrun. inversion Hrun; subst.
  apply in_concat in Hin. destruct Hin as (fs & Hfs & Hp).
  apply in_map_iff in Hfs. destruct Hfs as (s & <- & _).
  destruct (resolve_files_accepted s p Hp) as [Hf Ha].
  split; [exact Hf|]. now apply accepted_true.
- unfold _parse_definition in Hrun. rewrite Er in Hrun. discriminate.
Qed.

(* ---------------------------------------------------------------- *)
(** ** The change-detection hash *)

Lemma substring_length (n : nat) : forall s : string,
n <= String.length s -> String.length (String.substring 0 n s) = n.
Proof.
induction n as [|n IH]; intros s H.
- now destruct s.
- destruct s as [|c s]; simpl in *; [lia|]. rewrite IH; [reflexivity | lia].
Qed.

(** X11. The hash kept for change detection is the first 16 characters of
    the digest of the file's bytes; a file that cannot be read gets the empty
    string instead of an error, and no readable file has that hash. *)
Theorem file_hash_shape (p : Path) :
match read_bytes p with
| Some content =>
    _file_hash p = String.substring 0 16 (sha256_hexdigest content)
    /\ String.length (_file_hash p) = 16
| None => _file_hash p = ""
end
/\ (_file_hash p = "" <-> read_bytes p = None).
Proof.
unfold _file_hash. destruct (read_bytes p) as [content|].
- assert (Hlen : String.length (String.substring 0 16 (sha256_hexdigest content)) = 16).
  { apply substring_length. rewrite hexdigest_length. lia. }
  repeat split; try assumption.
  + intros E. rewrite E in Hlen. discriminate.
  + discriminate.
- repeat split; reflexivity.
Qed.

(* ---------------------------------------------------------------- *)
(** ** The remote listing as a dictionary *)

Lemma get_app {V} (k : string) (d1 d2 : Py.dict V) :
Py.get k (d1 ++ d2) = match Py.get k d1 with Some v => Some v | None => Py.get k d2 end.
Proof.
induction d1 as [|[k' v'] d1 IH]; simpl; [reflexivity|].
now destruct (k' =? k)%string.
Qed.

Lemma get_fold_set {V} (k : string) (l : list (string * V)) :
forall d : Py.dict V,
  Py.get k (fold_left (fun d kv => Py.set (fst kv) (snd kv) d) l d)
  = match Py.get k (rev l) with Some v => Some v | None => Py.get k d end.
Proof.
induction l as [|[k' v'] l IH]; intros d; simpl; [reflexivity|].
rewrite IH, get_app. destruct (Py.get k (rev l)); [reflexivity|]. simpl.
destruct (String.eqb_spec k' k) as [->|Hne].
- apply get_set_same.
- now apply get_set_other.
Qed.

Lemma get_of_pairs {V} (k : string) (l : list (string * V)) :
Py.get k (Py.of_pairs l) = Py.get k (rev l).
Proof.
unfold Py.of_pairs. rewrite get_fold_set. now destruct (Py.get k (rev l)).
Qed.

Lemma keys_set {V} (k : string) (v : V) (d : Py.dict V) :
Py.keys (Py.set k v d) = if Py.has k d then Py.keys d else Py.keys d ++ [k].
Proof.
unfold Py.has, Py.keys. induction d as [|[k' v'] d IH]; simpl; [reflexivity|].
destruct (String.eqb_spec k' k) as [->|Hne]; simpl; [reflexivity|].
rewrite IH. now destruct (Py.get k d).
Qed.

Lemma nodup_set {V} (k : string) (v : V) (d : Py.dict V) :
NoDup (Py.keys d) -> NoDup (Py.keys (Py.set k v d)).
Proof.
intros H. rewrite keys_set. destruct (Py.has k d) eqn:E; [exact H|].
apply NoDup_app; [exact H | repeat constructor; intros [] |].
intros x Hx [<-|[]]. apply in_keys_has in Hx. congruence.
Qed.

Lemma nodup_of_pairs {V} (l : list (string * V)) : NoDup (Py.keys (Py.of_pairs l)).
Proof.
unfold Py.of_pairs.
assert (H : forall d : Py.dict V, NoDup (Py.keys d) ->
          NoDup (Py.keys (fold_left (fun d kv => Py.set (fst kv) (snd kv) d) l d))).
{ induction l as [|kv l IH]; intros d Hd; simpl; [exact Hd|].
  apply IH. now apply nodup_set. }
apply H. constructor.
Qed.

Lemma get_filter_named {V} (k : string) (l : list (string * V)) :
k <> "" ->
Py.get k (filter (fun f => negb (fst f =? "")%string) l) = Py.get k l.
Proof.
intros Hk. induction l as [|[k' v'] l IH]; simpl; [reflexivity|].
destruct (String.eqb_spec k' "") as [->|Hne]; simpl.
- destruct k; [now elim Hk | exact IH].
- now rewrite IH.
Qed.

Lemma get_filter_unnamed {V} (l : list (string * V)) :
Py.get "" (filter (fun f => negb (fst f =? "")%string) l) = None.
Proof.
induction l as [|[k' v'] l IH]; simpl; [reflexivity|].
destruct (String.eqb_spec k' "") as [->|Hne]; simpl; [exact IH|].
destruct (String.eqb_spec k' "") as [E|_]; [now elim Hne | exact IH].
Qed.

(** X3. Fetching the files of a collection never raises.  A failed request
    gives the empty dictionary and one error line.  Otherwise the dictionary
    has one entry per file name of the answer, none for the items without a
    file name, and each name is bound to the identifier of the last item
    that carries it: when the remote store lists a name twice, the earlier
    identifier is not kept. *)
Theorem listing_keeps_last_identifier (kb_id : string) (w : World) :
let res := fst (http_get_files kb_id (remote w)) in
exists (d : Py.dict string) (w' : World) (l : list Event),
  _get_knowledge_files kb_id w = (Ok d, w', l)
  /\ cache w' = cache w /\ cache_file w' = cache_file w
  /\ NoDup (Py.keys d)
  /\ Py.get "" d = None
  /\ match res with
     | Some items =>
         l = [GetFiles kb_id res]
         /\ forall filename, filename <> "" ->
              Py.get filename d = Py.get filename (rev items)
     | None => l = [GetFiles kb_id res; Print MsgErrorFetchingFiles] /\ d = []
     end.
Proof.
cbv zeta. rewrite get_knowledge_files_run.
eexists _, _, _. split; [reflexivity|].
split; [reflexivity|]. split; [reflexivity|].
destruct (fst (http_get_files kb_id (remote w))) as [items|]; simpl.
- split; [apply nodup_of_pairs|]. split.
  + rewrite get_of_pairs, <- filter_rev. apply get_filter_unnamed.
  + split; [reflexivity|]. intros filename Hne.
    rewrite get_of_pairs, <- filter_rev. now apply get_filter_named.
- repeat split; constructor.
Qed.

(* ---------------------------------------------------------------- *)
(** ** What a dry run reports *)

Lemma dry_sync_files_fetches_nothing force name kb_id files :
sat (avoids is_get_files) (sync_files force true name kb_id files).
Proof.
unfold sync_files, cache_open. cbv iota.
sat_steps_with (avoids is_get_files) (avoids_nil is_get_files)
               (avoids_app is_get_files)
  ltac:(first [ apply process_file_avoids_get_files
              | apply remove_stale_avoids_get_files
              | apply avoids_set_cache ]).
Qed.

(** The counts of a dry run. *)
Lemma dry_pass_counts
      (md : Path) (force : bool) (w : World) (content : string) :
read_text md = Some content ->
exists (w' : World) (log : list Event),
  sync_collection PATH_PREFIX_MAP self md force true w
  = (Ok (length (concat (map resolve_files (path_references content))), 0, 0), w', log)
  /\ forallb (fun ev => negb (is_get_files ev)) log = true.
Proof.
intros Hread. destruct (parse_definition_run md content w Hread) as [lp Hparse].
set (files := concat (map resolve_files (path_references content))) in *.
destruct (sync_collection PATH_PREFIX_MAP self md force true w) as [[r w'] log] eqn:Hrun.
exists w', log.
pose proof (parse_avoids is_get_files md w w _ lp (fun _ => eq_refl) Hparse) as Hlp.
destruct (pass_inv md force true w w files lp r w' log Hparse Hrun)
  as [(Hnil & -> & -> & ->) | (Hne & kb & wb & lb & Eb & _ & _ & Hkb)].
- rewrite Hnil. split; [reflexivity|].
  cbn [forallb]. rewrite forallb_app, Hlp. reflexivity.
- destruct (bootstrap_dry_some (path_stem md) w) as (kb_id & wb' & lb' & Eb' & _).
  rewrite Eb' in Eb. inversion Eb; subst kb wb' lb'.
  destruct Hkb as (ls & Es & ->).
  destruct (sync_files_dry force (path_stem md) kb_id files wb) as (w2 & l2 & E2).
  rewrite E2 in Es. inversion Es; subst. split; [reflexivity|].
  pose proof (bootstrap_avoids_get_files (path_stem md) true _ _ _ _ Eb') as Hb.
  pose proof (dry_sync_files_fetches_nothing force (path_stem md) kb_id files
                _ _ _ _ E2) as Hs.
  unfold avoids in Hb, Hs.
  rewrite !forallb_app, Hb, Hs. simpl. rewrite forallb_app, Hlp. reflexivity.
Qed.

(** X4. Whenever a dry run returns, it reports every file the parser
    resolved as added, a file listed twice being counted twice, and nothing
    as updated or removed, whether or not [force] is set; and it has not
    asked for the remote listing.  It works on an empty listing, so no file
    meets the skip condition and the removal scan has nothing to go
    through. *)
Theorem dry_run_counts_every_file
      (md : Path) (force : bool) (w w0 w' : World)
      (files : list Path) (lp log : list Event) (counts : nat * nat * nat) :
_parse_definition PATH_PREFIX_MAP self md w = (Ok files, w0, lp) ->
sync_collection PATH_PREFIX_MAP self md force true w = (Ok counts, w', log) ->
counts = (length files, 0, 0)
/\ forallb (fun ev => negb (is_get_files ev)) log = true.
Proof.
intros Hparse Hrun.
destruct (read_text md) as [content|] eqn:Er;
  [|unfold _parse_definition in Hparse; rewrite Er in Hparse; discriminate].
destruct (parse_definition_run md content w Er) as [lp' Hparse'].
rewrite Hparse' in Hparse. inversion Hparse; subst files w0 lp'.
destruct (dry_pass_counts md force w content Er) as (wd & ld & Ed & Hg).
rewrite Ed in Hrun. inversion Hrun; subst. now split.
Qed.

(* ---------------------------------------------------------------- *)
(** ** Uploads, cache writes and the cache file along a pass *)

Lemma sent_files_app l1 l2 : sent_files (l1 ++ l2) = sent_files l1 ++ sent_files l2.
Proof. apply flat_map_app. Qed.

Lemma sent_files_cons ev l :
sent_files (ev :: l) = match ev with PostFile p _ => [p] | _ => [] end ++ sent_files l.
Proof. reflexivity. Qed.

Lemma sent_files_avoided l :
forallb (fun ev => negb (is_upload ev)) l = true -> sent_files l = [].
Proof.
induction l as [|ev l IH]; [reflexivity|]. cbn [forallb].
intros H. apply andb_true_iff in H. destruct H as [H1 H2].
rewrite sent_files_cons, (IH H2). now destruct ev.
Qed.

Lemma cache_writes_app l1 l2 :
cache_writes (l1 ++ l2) = cache_writes l1 + cache_writes l2.
Proof. unfold cache_writes. now rewrite filter_app, List.length_app. Qed.

Lemma cache_writes_cons ev l :
cache_writes (ev :: l) = (if is_cache_set ev then 1 else 0) + cache_writes l.
Proof. unfold cache_writes. simpl. now destruct (is_cache_set ev). Qed.

Lemma cache_writes_avoided l :
forallb (fun ev => negb (is_cache_set ev)) l = true -> cache_writes l = 0.
Proof.
induction l as [|ev l IH]; [reflexivity|]. cbn [forallb].
intros H. apply andb_true_iff in H. destruct H as [H1 H2].
rewrite cache_writes_cons, (IH H2). now destruct (is_cache_set ev).
Qed.

Lemma attach_log_measures kb_id fid h ok l :
attach_log kb_id fid h ok l ->
sent_files l = [] /\ cache_writes l = 0
/\ forallb (fun ev => negb (is_save ev)) l = true.
Proof. intros H. destruct H as [|resp1 resp2 [|] Hd Ho|]; repeat split. Qed.

(** The log of a file that went as far as the upload. *)
Lemma upload_log_measures (a : Msg) (h : string) (p : Path) (up : option string)
      (attempts tail : list Event) :
sent_files attempts = [] -> cache_writes attempts = 0 ->
forallb (fun ev => negb (is_save ev)) attempts = true ->
sent_files tail = [] ->
forallb (fun ev => negb (is_save ev)) tail = true ->
let log := Print a :: purge_log h ++ PostFile p up :: attempts ++ tail in
sent_files log = [p] /\ cache_writes log = cache_writes tail
/\ forallb (fun ev => negb (is_save ev)) log = true.
Proof.
intros Hu Hc Hs Hut Hst log. unfold log, purge_log. cbn [app].
rewrite !sent_files_cons, !cache_writes_cons, sent_files_app, cache_writes_app, Hu, Hut, Hc.
cbn [forallb]. rewrite forallb_app, Hs, Hst. repeat split.
Qed.

(** What one file of a live pass leaves behind when the loop goes on. *)
Lemma process_file_measures force kb_id existing key p l (w : World) l' w' log :
process_file force false kb_id existing key p l w = (Ok l', w', log) ->
added l' + updated l' = added l + updated l + cache_writes log
/\ cache_writes log <= 1
/\ sent_files log
   = (if skip_condition force (_file_hash p) (entry_of (cache w) key (path_name p))
                        existing (path_name p)
      then [] else [p])
/\ cache_file w' = cache_file w
/\ forallb (fun ev => negb (is_save ev)) log = true.
Proof.
intros H. apply process_file_live in H.
inversion H as
  [ Hs | Hs Hr | content up w1 Hs Hr Hup Hc Hf
  | content fid w1 attempts Hs Hr Hfid Hatt Hc Hf
  | content fid w1 attempts Hs Hr Hfid Hatt Hc Hf ]; subst; rewrite Hs.
- repeat split; unfold cache_writes; simpl; solve [reflexivity | lia].
- destruct (upload_log_measures
              (MsgAction (Py.has (path_name p) existing) (path_name p))
              (sha256_hexdigest content) p up []
              (match up with
               | None => [Print (MsgErrorUploading (path_name p))]
               | Some _ => []
               end) eq_refl eq_refl eq_refl)
    as (Hu & Hw & Hsv); try (now destruct up).
  cbn [app] in Hu, Hw, Hsv. rewrite Hu, Hw, Hsv.
  assert (E : cache_writes (match up with
                            | None => [Print (MsgErrorUploading (path_name p))]
                            | Some _ => []
                            end) = 0) by now destruct up.
  rewrite E. repeat split; simpl; solve [assumption | lia].
- destruct (attach_log_measures _ _ _ _ _ Hatt) as (Hu0 & Hw0 & Hs0).
  destruct (upload_log_measures
              (MsgAction (Py.has (path_name p) existing) (path_name p))
              (sha256_hexdigest content) p (Some fid) attempts
              [CacheSet key (path_name p) (new_entry p fid)]
              Hu0 Hw0 Hs0 eq_refl eq_refl)
    as (Hu & Hw & Hsv).
  rewrite Hu, Hw, Hsv. repeat split; try assumption.
  + unfold count, seen. destruct (Py.has _ _); simpl; unfold cache_writes; simpl; lia.
  + unfold cache_writes. simpl. lia.
- destruct (attach_log_measures _ _ _ _ _ Hatt) as (Hu0 & Hw0 & Hs0).
  destruct (upload_log_measures
              (MsgAction (Py.has (path_name p) existing) (path_name p))
              (sha256_hexdigest content) p (Some fid) attempts
              [Print (MsgFailedToAdd (path_name p))]
              Hu0 Hw0 Hs0 eq_refl eq_refl)
    as (Hu & Hw & Hsv).
  rewrite Hu, Hw, Hsv. repeat split; try assumption; unfold cache_writes; simpl; lia.
Qed.

(** A live file raises only when its bytes cannot be read; nothing has been
    requested for it then. *)
Lemma process_file_raises force dry_run kb_id existing key p l (w : World) e w' log :
process_file force dry_run kb_id existing key p l w = (Raise e, w', log) ->
dry_run = false /\ e = FileError p /\ read_bytes p = None /\ w' = w
/\ log = [Print (MsgAction (Py.has (path_name p) existing) (path_name p))].
Proof.
intros H. destruct dry_run.
- rewrite process_file_dry in H. destruct (skip_condition _ _ _ _ _); discriminate.
- apply process_file_live in H. inversion H; subst. repeat split; assumption.
Qed.

Lemma live_loop_measures force kb_id existing key files :
forall l (w : World) l' w' log,
  for_each files (process_file force false kb_id existing key) l w = (Ok l', w', log) ->
  added l' + updated l' = added l + updated l + cache_writes log
  /\ cache_writes log <= length files
  /\ (forall p, In p (sent_files log) -> In p files)
  /\ (force = true -> sent_files log = files)
  /\ cache_file w' = cache_file w
  /\ forallb (fun ev => negb (is_save ev)) log = true.
Proof.
induction files as [|p files IH]; intros l w l' w' log H.
- simpl in H. inversion H; subst. repeat split; auto; unfold cache_writes; simpl; lia.
- rewrite for_each_cons in H. apply bind_inv in H.
  destruct H as [(l1 & w1 & la & lb & E1 & E2 & ->) | (e & _ & E)]; [|discriminate].
  destruct (process_file_measures _ _ _ _ _ _ _ _ _ _ E1) as (Hc1 & Hb1 & Hu1 & Hf1 & Hs1).
  destruct (IH _ _ _ _ _ E2) as (Hc2 & Hb2 & Hu2 & Hfo2 & Hf2 & Hs2).
  rewrite cache_writes_app, sent_files_app, forallb_app, Hs1, Hs2.
  repeat split.
  + lia.
  + simpl. lia.
  + intros q Hq. apply in_app_or in Hq. destruct Hq as [Hq|Hq].
    * rewrite Hu1 in Hq. destruct (skip_condition _ _ _ _ _); [destruct Hq|].
      destruct Hq as [<-|[]]. now left.
    * right. now apply Hu2.
  + intros ->. rewrite Hu1, (Hfo2 eq_refl). reflexivity.
  + congruence.
Qed.

(** The loop over the resolved files, however it ends. *)
Lemma loop_effects force dry_run kb_id existing key files :
forall l (w : World) r w' log,
  for_each files (process_file force dry_run kb_id existing key) l w = (r, w', log) ->
  (forall p, In p (sent_files log) -> dry_run = false /\ In p files)
  /\ cache_file w' = cache_file w
  /\ forallb (fun ev => negb (is_save ev)) log = true
  /\ (forall e, r = Raise e ->
        dry_run = false /\ exists p, In p files /\ e = FileError p /\ read_bytes p = None).
Proof.
induction files as [|p files IH]; intros l w r w' log H.
- simpl in H. inversion H; subst.
  split; [intros q []|]. split; [reflexivity|]. split; [reflexivity|]. discriminate.
- rewrite for_each_cons in H. apply bind_inv in H.
  destruct H as [(l1 & w1 & la & lb & E1 & E2 & ->) | (e & E & ->)].
  + destruct (IH _ _ _ _ _ E2) as (Hu2 & Hf2 & Hs2 & Hr2).
    assert (H1 : (forall q, In q (sent_files la) -> dry_run = false /\ q = p)
                 /\ cache_file w1 = cache_file w
                 /\ forallb (fun ev => negb (is_save ev)) la = true).
    { destruct dry_run.
      - rewrite process_file_dry in E1.
        destruct (skip_condition _ _ _ _ _); inversion E1; subst;
          (split; [intros q []|split; reflexivity]).
      - destruct (process_file_measures _ _ _ _ _ _ _ _ _ _ E1)
          as (_ & _ & Hu1 & Hf1 & Hs1).
        split; [|split; assumption]. intros q Hq. rewrite Hu1 in Hq.
        destruct (skip_condition _ _ _ _ _); [destruct Hq|].
        destruct Hq as [<-|[]]. split; reflexivity. }
    destruct H1 as (Hu1 & Hf1 & Hs1).
    rewrite sent_files_app, forallb_app, Hs1, Hs2.
    split; [|split; [congruence|split; [reflexivity|]]].
    * intros q Hq. apply in_app_or in Hq. destruct Hq as [Hq|Hq].
      -- apply Hu1 in Hq. destruct Hq as [Hd ->]. split; [exact Hd | now left].
      -- apply Hu2 in Hq. destruct Hq as [Hd Hq]. split; [exact Hd | now right].
    * intros e He. apply Hr2 in He. destruct He as (Hd & q & Hq & Hrest).
      split; [exact Hd|]. exists q. split; [now right | exact Hrest].
  + destruct (process_file_raises _ _ _ _ _ _ _ _ _ _ _ E) as (-> & -> & Hr & -> & ->).
    split; [intros q []|]. split; [reflexivity|]. split; [reflexivity|].
    intros e He. inversion He; subst. split; [reflexivity|].
    exists p. split; [now left|]. now split.
Qed.

(* ---------------------------------------------------------------- *)
(** ** The shape of a live pass *)

Lemma no_record_measures (l : list Event) :
forallb (fun ev => negb (is_record ev)) l = true ->
sent_files l = [] /\ cache_writes l = 0
/\ forallb (fun ev => negb (is_save ev)) l = true.
Proof.
induction l as [|ev l IH]; [repeat split|]. cbn [forallb].
intros H. apply andb_true_iff in H. destruct H as [H1 H2].
destruct (IH H2) as (Hu & Hw & Hs).
rewrite sent_files_cons, cache_writes_cons, Hu, Hw, Hs.
destruct ev; try discriminate; repeat split.
Qed.

Lemma printing_no_record {A} (m : M A) :
sat printing m -> sat (avoids is_record) m.
Proof. apply printing_avoids. reflexivity. Qed.

Lemma bootstrap_no_record name dry_run : sat (avoids is_record) (bootstrap name dry_run).
Proof.
unfold bootstrap, _get_knowledge_bases, _create_knowledge_base.
avoid_steps is_record.
Qed.

Lemma remove_stale_no_record dry_run kb_id key synced item n :
sat (avoids is_record) (remove_stale dry_run kb_id key synced item n).
Proof.
unfold remove_stale, _remove_file_from_knowledge, cache_delete.
destruct item as [filename fid]. avoid_steps is_record.
Qed.

Lemma unreadable_definition md force dry_run (w : World) :
read_text md = None ->
sync_collection PATH_PREFIX_MAP self md force dry_run w
= (Raise (FileError md), w, [Print (MsgSyncing dry_run (path_stem md))]).
Proof.
intros H. unfold sync_collection, _parse_definition. now rewrite H, bind_print.
Qed.

(** A live [sync_files] as the run of its two loops. *)
Lemma sync_files_runs force name kb_id files (w : World) r w' log :
sync_files force false name kb_id files w = (r, w', log) ->
let res := fst (http_get_files kb_id (remote w)) in
let existing := listing_of res in
let w1 := opened name (with_remote (snd (http_get_files kb_id (remote w))) w) in
let head := GetFiles kb_id res :: fetch_error MsgErrorFetchingFiles res in
exists rl w2 ll,
  for_each files (process_file force false kb_id existing name) (mkLocals 0 0 []) w1
  = (rl, w2, ll)
  /\ match rl with
     | Raise e => r = Raise e /\ w' = w2 /\ log = head ++ ll
     | Ok l =>
         exists n w3 lr,
           for_each existing (remove_stale false kb_id name (synced_filenames l)) 0 w2
           = (Ok n, w3, lr)
           /\ r = Ok (added l, updated l, n)
           /\ w' = saved w3
           /\ cache_file w3 = cache_file w2
           /\ log = head ++ ll ++ lr ++ [SaveCache (json_dumps (cache_to_json (cache w3)))]
     end.
Proof.
intros Hrun. cbv zeta. unfold sync_files in Hrun. cbv iota in Hrun.
rewrite (bind_ok _ (get_knowledge_files_run _ _)) in Hrun.
rewrite (bind_ok _ (cache_open_run _ _)) in Hrun.
match type of Hrun with context [bind (for_each ?fs ?b ?l0) ?k ?x] =>
  destruct (for_each fs b l0 x) as [[rl w2] ll] eqn:El end.
exists rl, w2, ll. split; [reflexivity|].
destruct rl as [l|e].
- rewrite (bind_ok _ El) in Hrun.
  destruct (remove_loop_live kb_id name (synced_filenames l)
              (listing_of (fst (http_get_files kb_id (remote w)))) 0 w2)
    as (w3 & lr & Er & _ & _ & _ & Hfile).
  rewrite (bind_ok _ Er) in Hrun. cbn [negb] in Hrun.
  rewrite (bind_ok _ (save_cache_run _)) in Hrun. simpl in Hrun.
  inversion Hrun; subst. eexists _, w3, lr. repeat split; [exact Er | exact Hfile].
- rewrite (bind_fail _ El) in Hrun. simpl in Hrun. inversion Hrun; subst.
  repeat split.
Qed.

(** A live pass over a readable definition either stops before the files
    (nothing resolved, or no collection to work on) or goes through the loop
    over the resolved files and, unless a file raised, through the removal
    scan and the writing of the cache file. *)
Lemma live_pass_shape md force (w w0 : World) files lp r w' log :
_parse_definition PATH_PREFIX_MAP self md w = (Ok files, w0, lp) ->
sync_collection PATH_PREFIX_MAP self md force false w = (r, w', log) ->
(r = Ok (0, 0, 0) /\ cache_file w' = cache_file w
 /\ forallb (fun ev => negb (is_record ev)) log = true
 /\ forallb (fun ev => negb (is_get_files ev)) log = true)
\/ (exists kb_id existing w1 rl w2 ll before after,
      for_each files (process_file force false kb_id existing (path_stem md))
               (mkLocals 0 0 []) w1 = (rl, w2, ll)
      /\ cache_file w1 = cache_file w
      /\ log = before ++ ll ++ after
      /\ forallb (fun ev => negb (is_record ev)) before = true
      /\ match rl with
         | Raise e => r = Raise e /\ w' = w2 /\ after = []
         | Ok l =>
             exists n w3 lr,
               r = Ok (added l, updated l, n)
               /\ w' = saved w3 /\ cache_file w3 = cache_file w2
               /\ after = lr ++ [SaveCache (json_dumps (cache_to_json (cache w3)))]
               /\ forallb (fun ev => negb (is_record ev)) lr = true
         end).
Proof.
intros Hparse Hrun.
pose proof (printing_no_record _ (parse_definition_printing md) _ _ _ _ Hparse) as Hlp.
pose proof (parse_avoids is_get_files md w w0 _ lp (fun _ => eq_refl) Hparse) as Hlg.
unfold avoids in Hlp.
assert (Hpre : forall dry n,
  forallb (fun ev => negb (is_record ev))
    (Print (MsgSyncing dry (path_stem md)) :: lp ++ [Print (MsgFound n)]) = true).
{ intros dry n. cbn [forallb]. now rewrite forallb_app, Hlp. }
assert (Hpreg : forall dry n,
  forallb (fun ev => negb (is_get_files ev))
    (Print (MsgSyncing dry (path_stem md)) :: lp ++ [Print (MsgFound n)]) = true).
{ intros dry n. cbn [forallb]. now rewrite forallb_app, Hlg. }
destruct (pass_inv md force false w w0 files lp r w' log Hparse Hrun)
  as [(Hnil & -> & -> & ->) | (Hne & kb & wb & lb & Eb & _ & Hfb & Hkb)].
- left. repeat split; [apply Hpre | apply Hpreg].
- pose proof (bootstrap_no_record _ _ _ _ _ _ Eb) as Hb.
  pose proof (bootstrap_avoids_get_files _ _ _ _ _ _ Eb) as Hbg.
  unfold avoids in Hb, Hbg.
  destruct kb as [kb_id|].
  + right. destruct Hkb as (ls & Es & ->).
    destruct (sync_files_runs _ _ _ _ _ _ _ _ Es) as (rl & w2 & ll & El & Hrl).
    exists kb_id, (listing_of (fst (http_get_files kb_id (remote wb)))),
      (opened (path_stem md)
         (with_remote (snd (http_get_files kb_id (remote wb))) wb)),
      rl, w2, ll,
      ((Print (MsgSyncing false (path_stem md))
        :: lp ++ [Print (MsgFound (length files))]) ++ lb
       ++ GetFiles kb_id (fst (http_get_files kb_id (remote wb)))
          :: fetch_error MsgErrorFetchingFiles (fst (http_get_files kb_id (remote wb)))).
    assert (Hbefore : forallb (fun ev => negb (is_record ev))
              ((Print (MsgSyncing false (path_stem md))
                :: lp ++ [Print (MsgFound (length files))]) ++ lb
               ++ GetFiles kb_id (fst (http_get_files kb_id (remote wb)))
                  :: fetch_error MsgErrorFetchingFiles
                       (fst (http_get_files kb_id (remote wb)))) = true).
    { rewrite !forallb_app, Hpre, Hb. simpl.
      now destruct (fst (http_get_files kb_id (remote wb))). }
    destruct rl as [l|e].
    * destruct Hrl as (n & w3 & lr & Er & -> & -> & Hf3 & ->).
      exists (lr ++ [SaveCache (json_dumps (cache_to_json (cache w3)))]).
      split; [exact El|]. split; [rewrite opened_cache_file; exact Hfb|].
      split; [now rewrite <- !app_assoc|]. split; [exact Hbefore|].
      exists n, w3, lr. repeat split; try assumption.
      exact (sat_for_each (avoids is_record) (avoids_nil _) (avoids_app _) _ _
               (fun x s _ => remove_stale_no_record false kb_id (path_stem md)
                               (synced_filenames l) x s) _ _ _ _ _ Er).
    * destruct Hrl as (-> & -> & ->). exists [].
      split; [exact El|]. split; [rewrite opened_cache_file; exact Hfb|].
      split; [now rewrite app_nil_r, <- !app_assoc|]. split; [exact Hbefore|].
      repeat split.
  + left. destruct Hkb as (-> & -> & ->).
    repeat split; [exact Hfb | |]; rewrite forallb_app.
    * now rewrite Hpre, Hb.
    * now rewrite Hpreg, Hbg.
Qed.

Lemma parsed_file_accepted md (w w0 : World) files lp p :
_parse_definition PATH_PREFIX_MAP self md w = (Ok files, w0, lp) ->
In p files -> is_file p = true /\ accepted self p = true.
Proof.
intros Hrun Hin.
destruct (read_text md) as [content|] eqn:Er.
- destruct (parse_definition_run md content w Er) as [l' E].
  rewrite E in Hrun. inversion Hrun; subst.
  apply in_concat in Hin. destruct Hin as (fs & Hfs & Hp).
  apply in_map_iff in Hfs. destruct Hfs as (s & <- & _).
  exact (resolve_files_accepted s p Hp).
- unfold _parse_definition in Hrun. rewrite Er in Hrun. discriminate.
Qed.

Lemma harmless_sent_files (l : list Event) :
forallb (fun ev => negb (is_mutation ev || is_save ev)) l = true -> sent_files l = [].
Proof.
induction l as [|ev l IH]; [reflexivity|]. cbn [forallb].
intros H. apply andb_true_iff in H. destruct H as [H1 H2].
rewrite sent_files_cons, (IH H2). now destruct ev.
Qed.

(** X5. A forced live pass that gets to the files and ends normally sends
    every resolved file to the upload endpoint, once for each time the
    definition resolves to it and in the order of the definition, whatever
    the cache and the remote listing say. *)
Theorem forced_pass_uploads_every_file
      (md : Path) (w w0 w' : World) (files : list Path) (lp log : list Event)
      (counts : nat * nat * nat)
      (kb_id : string) (res : option (list (string * string))) :
_parse_definition PATH_PREFIX_MAP self md w = (Ok files, w0, lp) ->
sync_collection PATH_PREFIX_MAP self md true false w = (Ok counts, w', log) ->
In (GetFiles kb_id res) log ->
sent_files log = files.
Proof.
intros Hparse Hrun Hin.
destruct (live_pass_shape md true w w0 files lp _ w' log Hparse Hrun)
  as [(_ & _ & _ & Hg)
     | (kb & existing & w1 & rl & w2 & ll & before & after
        & El & _ & -> & Hb & Hrl)].
- discriminate (in_avoided is_get_files _ _ Hg Hin).
- destruct rl as [l|e]; [|destruct Hrl as (Hr & _); discriminate].
  destruct Hrl as (n & w3 & lr & _ & _ & _ & -> & Hlr).
  destruct (live_loop_measures _ _ _ _ _ _ _ _ _ _ El) as (_ & _ & _ & Hu & _).
  destruct (no_record_measures _ Hb) as (Hub & _).
  destruct (no_record_measures _ Hlr) as (Hur & _).
  rewrite !sent_files_app, Hub, Hur, (Hu eq_refl). simpl. now rewrite app_nil_r.
Qed.

(** X6. A live pass that gets to the files and ends normally writes the
    cache file exactly once, as its last step, and what it writes is the
    cache as the pass leaves it in memory. *)
Theorem live_pass_saves_cache
      (md : Path) (force : bool) (w w' : World) (log : list Event)
      (counts : nat * nat * nat)
      (kb_id : string) (res : option (list (string * string))) :
sync_collection PATH_PREFIX_MAP self md force false w = (Ok counts, w', log) ->
In (GetFiles kb_id res) log ->
let text := json_dumps (cache_to_json (cache w')) in
cache_file w' = Content text
/\ exists l0, log = l0 ++ [SaveCache text]
              /\ forallb (fun ev => negb (is_save ev)) l0 = true.
Proof.
intros Hrun Hin. cbv zeta.
destruct (read_text md) as [content|] eqn:Er;
  [|rewrite (unreadable_definition md force false w Er) in Hrun; discriminate].
destruct (parse_definition_run md content w Er) as [lp Hparse].
destruct (live_pass_shape md force w w _ lp _ w' log Hparse Hrun)
  as [(_ & _ & _ & Hg)
     | (kb & existing & w1 & rl & w2 & ll & before & after
        & El & _ & -> & Hb & Hrl)].
- discriminate (in_avoided is_get_files _ _ Hg Hin).
- destruct rl as [l|e]; [|destruct Hrl as (Hr & _); discriminate].
  destruct Hrl as (n & w3 & lr & _ & -> & _ & -> & Hlr).
  split; [reflexivity|]. exists (before ++ ll ++ lr).
  split; [now rewrite <- !app_assoc|].
  destruct (live_loop_measures _ _ _ _ _ _ _ _ _ _ El) as (_ & _ & _ & _ & _ & Hs).
  destruct (no_record_measures _ Hb) as (_ & _ & Hsb).
  destruct (no_record_measures _ Hlr) as (_ & _ & Hsr).
  now rewrite !forallb_app, Hsb, Hs, Hsr.
Qed.

Lemma dry_pass_returns md (w w0 : World) files lp force e w' log :
_parse_definition PATH_PREFIX_MAP self md w = (Ok files, w0, lp) ->
sync_collection PATH_PREFIX_MAP self md force true w <> (Raise e, w', log).
Proof.
intros Hparse Hrun.
destruct (pass_inv md force true w w0 files lp _ w' log Hparse Hrun)
  as [(_ & Hr & _) | (_ & kb & wb & lb & Eb & _ & _ & Hkb)]; [discriminate|].
destruct (bootstrap_dry_some (path_stem md) w) as (kb_id & wb' & lb' & Eb' & _).
rewrite Eb' in Eb. inversion Eb; subst kb wb' lb'.
destruct Hkb as (ls & Es & _).
destruct (sync_files_dry force (path_stem md) kb_id files wb) as (w2 & l2 & E2).
rewrite E2 in Es. discriminate.
Qed.

(** The ways a pass of the model can fail: a file that cannot be read. *)
Lemma pass_failure
      (md : Path) (force dry_run : bool) (w w' : World) (e : PyExc) (log : list Event) :
sync_collection PATH_PREFIX_MAP self md force dry_run w = (Raise e, w', log) ->
cache_file w' = cache_file w
/\ forallb (fun ev => negb (is_save ev)) log = true
/\ ((e = FileError md /\ read_text md = None /\ w' = w
     /\ log = [Print (MsgSyncing dry_run (path_stem md))])
    \/ (dry_run = false /\
        exists content p,
          read_text md = Some content
          /\ In p (concat (map resolve_files (path_references content)))
          /\ e = FileError p /\ read_bytes p = None)).
Proof.
intros Hrun.
destruct (read_text md) as [content|] eqn:Er.
- destruct (parse_definition_run md content w Er) as [lp Hparse].
  destruct dry_run; [now elim (dry_pass_returns md w w _ lp force e w' log Hparse)|].
  destruct (live_pass_shape md force w w _ lp _ w' log Hparse Hrun)
    as [(Hr & _) | (kb & existing & w1 & rl & w2 & ll & before & after
                    & El & Hf1 & -> & Hb & Hrl)]; [discriminate|].
  destruct rl as [l|e'];
    [destruct Hrl as (n & w3 & lr & Hr & _); discriminate|].
  destruct Hrl as (Hr & -> & ->). inversion Hr; subst e'.
  destruct (loop_effects _ _ _ _ _ _ _ _ _ _ _ El) as (_ & Hf & Hs & Hraise).
  destruct (Hraise e eq_refl) as (_ & p & Hp & -> & Hbytes).
  destruct (no_record_measures _ Hb) as (_ & _ & Hsb).
  split; [congruence|]. split; [now rewrite !forallb_app, Hsb, Hs|].
  right. split; [reflexivity|]. now exists content, p.
- rewrite (unreadable_definition md force dry_run w Er) in Hrun.
  inversion Hrun; subst. split; [reflexivity|]. split; [reflexivity|].
  left. repeat split.
Qed.

(** X7. When a pass ends because a file cannot be read, that file is the
    definition itself, and then nothing but the header line has happened,
    or, in a live pass, a resolved file whose bytes cannot be read.  In both
    cases the cache file is left as it was: whatever the pass uploaded and
    recorded in memory before the failure is not written to disk. *)
Theorem failed_pass_keeps_cache_file
      (md p : Path) (force dry_run : bool) (w w' : World) (log : list Event) :
sync_collection PATH_PREFIX_MAP self md force dry_run w
= (Raise (FileError p), w', log) ->
cache_file w' = cache_file w
/\ forallb (fun ev => negb (is_save ev)) log = true
/\ ((p = md /\ read_text md = None /\ w' = w
     /\ log = [Print (MsgSyncing dry_run (path_stem md))])
    \/ (dry_run = false /\ read_bytes p = None /\
        exists content,
          read_text md = Some content
          /\ In p (concat (map resolve_files (path_references content))))).
Proof.
intros Hrun.
destruct (pass_failure md force dry_run w w' _ log Hrun)
  as (Hfile & Hsave & [(E & Hread & Hw & Hlog)
                      | (Hdry & content & q & Hread & Hin & E & Hbytes)]).
- inversion E; subst p. split; [exact Hfile|]. split; [exact Hsave|]. now left.
- inversion E; subst q. split; [exact Hfile|]. split; [exact Hsave|]. right.
  split; [exact Hdry|]. split; [exact Hbytes|]. now exists content.
Qed.

(** The counts of a live pass against its cache writes. *)
Lemma live_pass_counts
      (md : Path) (force : bool) (w w0 w' : World) (files : list Path)
      (lp log : list Event) (n_added n_updated n_removed : nat) :
_parse_definition PATH_PREFIX_MAP self md w = (Ok files, w0, lp) ->
sync_collection PATH_PREFIX_MAP self md force false w
= (Ok (n_added, n_updated, n_removed), w', log) ->
n_added + n_updated = cache_writes log
/\ n_added + n_updated <= length files.
Proof.
intros Hparse Hrun.
destruct (live_pass_shape md force w w0 files lp _ w' log Hparse Hrun)
  as [(Hr & _ & Hrec & _)
     | (kb & existing & w1 & rl & w2 & ll & before & after
        & El & _ & -> & Hb & Hrl)].
- inversion Hr; subst. destruct (no_record_measures _ Hrec) as (_ & -> & _).
  split; [reflexivity | apply Nat.le_0_l].
- destruct rl as [l|e]; [|destruct Hrl as (Hr & _); discriminate].
  destruct Hrl as (n & w3 & lr & Hr & _ & _ & -> & Hlr). inversion Hr; subst.
  destruct (live_loop_measures _ _ _ _ _ _ _ _ _ _ El) as (Hc & Hle & _).
  destruct (no_record_measures _ Hb) as (_ & Hwb & _).
  destruct (no_record_measures _ Hlr) as (_ & Hwr & _).
  rewrite !cache_writes_app, Hwb, Hwr.
  change (cache_writes [SaveCache (json_dumps (cache_to_json (cache w3)))]) with 0.
  simpl in Hc. lia.
Qed.

(** X9. In a live pass that ends normally, the files reported as added or
    updated are exactly the cache entries written: each counted file has been
    uploaded and attached and has its entry recorded, and a file whose upload
    or attachment failed is not counted.  The two counts together never
    exceed the number of resolved files. *)
Theorem counts_match_cache_writes
      (md : Path) (force : bool) (w w0 w' : World) (files : list Path)
      (lp log : list Event) (n_added n_updated n_removed : nat) :
_parse_definition PATH_PREFIX_MAP self md w = (Ok files, w0, lp) ->
sync_collection PATH_PREFIX_MAP self md force false w
= (Ok (n_added, n_updated, n_removed), w', log) ->
n_added + n_updated = cache_writes log
/\ n_added + n_updated <= length files.
Proof. exact (live_pass_counts md force w w0 w' files lp log n_added n_updated n_removed). Qed.

(** X10. A pass uploads nothing but resolved files: every path sent to the
    upload endpoint is in the list the definition resolves to, so it is a
    regular file with an accepted extension that no exclude pattern matches;
    and a dry run uploads nothing at all.  This holds too when the pass ends
    with an exception. *)
Theorem uploads_are_resolved_files
      (md : Path) (force dry_run : bool) (w w0 w' : World) (files : list Path)
      (lp log : list Event) (r : Result (nat * nat * nat)) (p : Path) :
_parse_definition PATH_PREFIX_MAP self md w = (Ok files, w0, lp) ->
sync_collection PATH_PREFIX_MAP self md force dry_run w = (r, w', log) ->
In p (sent_files log) ->
dry_run = false /\ In p files /\ is_file p = true /\ accepted self p = true.
Proof.
intros Hparse Hrun Hin.
assert (H : dry_run = false /\ In p files).
{ destruct dry_run.
  - destruct (dry_pass_harmless md force _ _ _ _ Hrun) as [_ Hh].
    rewrite (harmless_sent_files _ Hh) in Hin. destruct Hin.
  - split; [reflexivity|].
    destruct (live_pass_shape md force w w0 files lp _ w' log Hparse Hrun)
      as [(_ & _ & Hrec & _)
         | (kb & existing & w1 & rl & w2 & ll & before & after
            & El & _ & -> & Hb & Hrl)].
    + destruct (no_record_measures _ Hrec) as (Hu & _).
      rewrite Hu in Hin. destruct Hin.
    + destruct (loop_effects _ _ _ _ _ _ _ _ _ _ _ El) as (Hl & _).
      destruct (no_record_measures _ Hb) as (Hub & _).
      assert (Ha : sent_files after = []).
      { destruct rl as [l|e].
        - destruct Hrl as (n & w3 & lr & _ & _ & _ & -> & Hlr).
          destruct (no_record_measures _ Hlr) as (Hur & _).
          now rewrite sent_files_app, Hur.
        - now destruct Hrl as (_ & _ & ->). }
      rewrite !sent_files_app, Hub, Ha, app_nil_r in Hin. simpl in Hin.
      now apply Hl in Hin. }
destruct H as [Hd Hp]. split; [exact Hd|]. split; [exact Hp|].
exact (parsed_file_accepted md w w0 files lp p Hparse Hp).
Qed.

(* ---------------------------------------------------------------- *)
(** ** One collection at a time *)

Lemma others_kept_nil key w : others_kept key w w [].
Proof. now split. Qed.

Lemma others_kept_app key w1 w2 w3 l1 l2 :
others_kept key w1 w2 l1 -> others_kept key w2 w3 l2 ->
others_kept key w1 w3 (l1 ++ l2).
Proof.
intros [H1 E1] [H2 E2]. split.
- intros k Hk. now rewrite H2, H1.
- now rewrite forallb_app, E1, E2.
Qed.

Lemma others_kept_emit key ev :
own_cache_event key ev = true -> sat (others_kept key) (@emit Path R ev).
Proof.
intros Hev w r w' l H. inversion H; subst. split; [reflexivity|].
simpl. now rewrite Hev.
Qed.

Lemma others_kept_request key {A} (g : R -> A * R) (ev : A -> Event) :
(forall a, own_cache_event key (ev a) = true) -> sat (others_kept key) (request g ev).
Proof.
intros Hev w r w' l. unfold request. destruct (g (remote w)) as [a r1].
intros H. inversion H; subst. split; [reflexivity|]. simpl. now rewrite Hev.
Qed.

Lemma others_kept_cache_open key : sat (others_kept key) (@cache_open Path R key).
Proof.
intros w r w' l. rewrite cache_open_run. intros H. inversion H; subst.
split; [|reflexivity]. intros k Hk. unfold opened.
destruct (Py.has key (cache w)); [reflexivity|]. simpl.
apply get_set_other. congruence.
Qed.

Lemma others_kept_cache_write key filename e :
sat (others_kept key) (@cache_write Path R key filename e).
Proof.
intros w r w' l. unfold cache_write. rewrite bind_gets, bind_set_cache.
intros H. inversion H; subst. split.
- intros k Hk. simpl. apply get_set_other. congruence.
- simpl. now rewrite String.eqb_refl.
Qed.

Lemma others_kept_cache_delete key filename :
sat (others_kept key) (@cache_delete Path R key filename).
Proof.
intros w r w' l. unfold cache_delete. rewrite bind_gets.
destruct (Py.has filename (collection_of (cache w) key)).
- rewrite bind_set_cache. intros H. inversion H; subst. split.
  + intros k Hk. simpl. apply get_set_other. congruence.
  + simpl. now rewrite String.eqb_refl.
- intros H. inversion H; subst. apply others_kept_nil.
Qed.

Lemma others_kept_save_cache key : sat (others_kept key) (@_save_cache Path JL R).
Proof.
intros w r w' l. rewrite save_cache_run. intros H. inversion H; subst.
now split.
Qed.

Lemma others_kept_printing key {A} (m : M A) :
sat printing m -> sat (others_kept key) m.
Proof.
intros Hm w r w' l H. destruct (Hm _ _ _ _ H) as [-> Hl]. split; [reflexivity|].
apply forallb_forall. intros ev Hin.
apply (proj1 (forallb_forall _ _) Hl) in Hin. now destruct ev.
Qed.

Ltac others_kept_steps key :=
sat_steps_with (others_kept key) (others_kept_nil key) (others_kept_app key)
  ltac:(first
    [ apply others_kept_cache_open
    | apply others_kept_cache_write
    | apply others_kept_cache_delete
    | apply others_kept_save_cache
    | apply others_kept_emit; reflexivity
    | apply others_kept_request; intros; reflexivity ]).

Lemma others_kept_sync_files force dry_run name kb_id files :
sat (others_kept name) (sync_files force dry_run name kb_id files).
Proof.
unfold sync_files, _get_knowledge_files, process_file, remove_stale,
  _clear_qdrant_duplicates, _upload_file, _add_file_to_knowledge, post_file_add,
  _remove_file_from_knowledge.
others_kept_steps name.
Qed.

Lemma others_kept_pass md force dry_run :
sat (others_kept (path_stem md)) (sync_collection PATH_PREFIX_MAP self md force dry_run).
Proof.
unfold sync_collection, _get_knowledge_bases, _create_knowledge_base.
sat_steps_with (others_kept (path_stem md)) (others_kept_nil (path_stem md))
               (others_kept_app (path_stem md))
  ltac:(first
    [ apply others_kept_sync_files
    | apply others_kept_printing, parse_definition_printing
    | apply others_kept_emit; reflexivity
    | apply others_kept_request; intros; reflexivity ]).
Qed.

(** X8. A pass works on the cache of its own collection only: every cache
    write and cache deletion it makes is under the collection's name (the
    stem of the definition file), and what the cache holds for any other
    collection is the same after the pass as before, in every mode and
    however the pass ends. *)
Theorem other_collections_untouched
      (md : Path) (force dry_run : bool) (w w' : World)
      (r : Result (nat * nat * nat)) (log : list Event) :
sync_collection PATH_PREFIX_MAP self md force dry_run w = (r, w', log) ->
(forall key, key <> path_stem md -> Py.get key (cache w') = Py.get key (cache w))
/\ (forall key filename e, In (CacheSet key filename e) log -> key = path_stem md)
/\ (forall key filename, In (CacheDel key filename) log -> key = path_stem md).
Proof.
intros Hrun. destruct (others_kept_pass md force dry_run _ _ _ _ Hrun) as [Hk Hl].
split; [exact Hk|].
split; intros; apply String.eqb_eq;
  exact (proj1 (forallb_forall _ _) Hl _ H).
Qed.

(* ---------------------------------------------------------------- *)
(** ** The cache file read back *)

(** The cache file after a live pass that got to the files and ended
    normally. *)
Lemma live_pass_cache_file
      (md : Path) (force : bool) (w w' : World) (log : list Event)
      (counts : nat * nat * nat)
      (kb_id : string) (res : option (list (string * string))) :
sync_collection PATH_PREFIX_MAP self md force false w = (Ok counts, w', log) ->
In (GetFiles kb_id res) log ->
cache_file w' = Content (json_dumps (cache_to_json (cache w'))).
Proof.
intros Hrun Hin.
destruct (read_text md) as [content|] eqn:Er;
  [|rewrite (unreadable_definition md force false w Er) in Hrun; discriminate].
destruct (parse_definition_run md content w Er) as [lp Hparse].
destruct (live_pass_shape md force w w _ lp _ w' log Hparse Hrun)
  as [(_ & _ & _ & Hg)
     | (kb & existing & w1 & rl & w2 & ll & before & after
        & El & _ & -> & Hb & Hrl)].
- discriminate (in_avoided is_get_files _ _ Hg Hin).
- destruct rl as [l|e]; [|destruct Hrl as (Hr & _); discriminate].
  destruct Hrl as (n & w3 & lr & _ & -> & _ & -> & Hlr). reflexivity.
Qed.

(** X12. What a live pass leaves on disk is what the next start loads:
    after a live pass that got to the files and ended normally, and when
    the JSON library decodes its own encoding of the cache, [_load_cache]
    returns the cache as the pass left it in memory, without a warning and
    without changing anything. *)
Theorem saved_cache_loads_back
      (md : Path) (force : bool) (w w' : World) (log : list Event)
      (counts : nat * nat * nat)
      (kb_id : string) (res : option (list (string * string))) :
sync_collection PATH_PREFIX_MAP self md force false w = (Ok counts, w', log) ->
In (GetFiles kb_id res) log ->
json_loads (json_dumps (cache_to_json (cache w'))) = Some (cache_to_json (cache w')) ->
_load_cache w' = (Ok (cache_to_json (cache w')), w', @nil Event).
Proof.
intros Hrun Hin Hjson.
pose proof (live_pass_cache_file md force w w' log counts kb_id res Hrun Hin) as Hfile.
unfold _load_cache. rewrite bind_gets, Hfile.
unfold try_except, bind, read_cache_file. rewrite Hfile.
now rewrite Hjson.
Qed.

(* ---------------------------------------------------------------- *)
(** ** Extensions and letter case *)

Lemma lower_ascii_idempotent (c : ascii) :
Py.lower_ascii (Py.lower_ascii c) = Py.lower_ascii c.
Proof. destruct c as [[] [] [] [] [] [] [] []]; reflexivity. Qed.

Lemma lower_idempotent (s : string) : Py.lower (Py.lower s) = Py.lower s.
Proof.
induction s as [|c s IH]; simpl; [reflexivity|].
now rewrite lower_ascii_idempotent, IH.
Qed.

(** X19. The suffix of a file is put in lower case before it is looked up
    among the extensions, the extensions are not: an extension written with
    a capital letter (say [.MD]) selects no file at all, and taking such
    entries out of the list changes nothing of what is accepted. *)
Theorem capital_extensions_select_nothing (p : Path) :
accepted (mkSelf (filter (fun e => (Py.lower e =? e)%string) (extensions self))
                 (excludes self)) p
= accepted self p.
Proof.
unfold accepted, _is_excluded. cbn [extensions excludes]. f_equal.
induction (extensions self) as [|e es IH]; [reflexivity|]. simpl.
destruct (String.eqb_spec (Py.lower e) e) as [E|E]; simpl; [now rewrite IH|].
rewrite IH.
destruct (String.eqb_spec (Py.lower (path_suffix p)) e) as [<-|_]; [|reflexivity].
elim E. apply lower_idempotent.
Qed.

(* ---------------------------------------------------------------- *)
(** ** The cache in a dry run *)

Lemma dry_loop_still force kb_id key files :
forall l (w : World) r w' log,
  for_each files (process_file force true kb_id [] key) l w = (r, w', log) -> w' = w.
Proof.
intros l w r w' log H.
destruct (dry_loop_adds force kb_id key files l w) as (l' & log' & E & _).
rewrite E in H. now inversion H.
Qed.

(** X20. A dry run changes no cache entry, in memory either: for every
    collection and file name the cache holds after the pass what it held
    before.  (All it may do to the cache is to open an empty dictionary for
    a collection the cache did not know.) *)
Theorem dry_run_keeps_cache_entries
      (md : Path) (force : bool) (w w' : World)
      (r : Result (nat * nat * nat)) (log : list Event) :
sync_collection PATH_PREFIX_MAP self md force true w = (r, w', log) ->
forall key filename,
  entry_of (cache w') key filename = entry_of (cache w) key filename.
Proof.
intros Hrun key filename.
destruct (read_text md) as [content|] eqn:Er;
  [|rewrite (unreadable_definition md force true w Er) in Hrun;
    now inversion Hrun].
destruct (parse_definition_run md content w Er) as [lp Hparse].
destruct (pass_inv md force true w w _ lp r w' log Hparse Hrun)
  as [(_ & _ & -> & _) | (_ & kb & wb & lb & Eb & Hcb & _ & Hkb)]; [reflexivity|].
destruct kb as [kb_id|]; [|destruct Hkb as (_ & -> & _); now rewrite Hcb].
destruct Hkb as (ls & Es & _).
unfold sync_files in Es. cbv iota in Es.
rewrite bind_ret, (bind_ok _ (cache_open_run _ _)) in Es.
match type of Es with context [bind (for_each ?fs ?b ?l0) ?k ?x] =>
  destruct (for_each fs b l0 x) as [[rl w2] ll] eqn:El end.
pose proof (dry_loop_still _ _ _ _ _ _ _ _ _ El) as ->.
destruct rl as [l|e].
- rewrite (bind_ok _ El) in Es. simpl in Es. inversion Es; subst.
  now rewrite opened_entry, Hcb.
- rewrite (bind_fail _ El) in Es. simpl in Es. inversion Es; subst.
  now rewrite opened_entry, Hcb.
Qed.

End Properties.

(* ================================================================== *)
(** * Properties of start-up, the driver and the watcher *)

Section DriverProperties.

Context {Path : Type} {PL : PathLib Path} {FS : FileSystem Path} {DL : Directory Path}.
Context {HL : Hashlib} {FM : Fnmatch} {JL : JsonLib}.
Context {R : Type} {RS : RemoteStore R}.

Variable PATH_PREFIX_MAP : string.

Local Abbreviation World := (@World R).
Local Abbreviation Event := (@Event Path).
Local Abbreviation Step := (@Driver.Step Path).
Local Abbreviation D := (@Driver.D Path R).

(* ---------------------------------------------------------------- *)
(** ** Configuration *)

Lemma set_add_nodup (x : string) (s : list string) : NoDup s -> NoDup (set_add x s).
Proof.
intros H. unfold set_add. destruct (Py.mem x s) eqn:E; [exact H|].
apply mem_false in E. apply NoDup_app; [exact H | repeat constructor; intros [] |].
intros y Hy [<-|[]]. contradiction.
Qed.

Lemma set_add_forall (P : string -> Prop) (x : string) (s : list string) :
P x -> Forall P s -> Forall P (set_add x s).
Proof.
intros Hx Hs. unfold set_add. destruct (Py.mem x s); [exact Hs|].
apply Forall_app. split; [exact Hs | now constructor].
Qed.

Lemma config_line_inv (lines : list string) (c : ConfigLocals) (line : string) :
In line lines -> config_inv lines c -> config_inv lines (config_line c line).
Proof.
intros Hin (He & Hn & Hx). unfold config_line.
assert (Hs : In (Py.strip line) (map Py.strip lines)) by now apply in_map.
destruct (Py.startswith (Py.strip line) "## Extensions"); [now repeat split|].
destruct (Py.startswith (Py.strip line) "## Exclude"); [now repeat split|].
destruct (Py.startswith (Py.strip line) "#") eqn:Ec; [now repeat split|].
destruct (String.eqb_spec (Py.strip line) "") as [Ee|Ee]; [now repeat split|].
cbn [orb]. destruct (section c).
- now repeat split.
- destruct (Py.startswith (Py.strip line) ".") eqn:Ed; [|now repeat split].
  split; [|split]; cbn [seen_extensions seen_excludes].
  + now apply set_add_forall.
  + now apply set_add_nodup.
  + exact Hx.
- split; [|split]; cbn [seen_extensions seen_excludes]; try assumption.
  apply Forall_app. split; [exact Hx|]. now repeat constructor.
Qed.

Lemma read_config_inv (content : string) :
config_inv (Py.splitlines content) (read_config content).
Proof.
unfold read_config.
assert (H : forall (all lines : list string) c,
          incl lines all -> config_inv all c ->
          config_inv all (fold_left config_line lines c)).
{ intros all lines. induction lines as [|line lines IH]; intros c Hi Hc; [exact Hc|].
  simpl. apply IH.
  - intros x Hx. apply Hi. now right.
  - apply config_line_inv; [apply Hi; now left | exact Hc]. }
apply H; [apply incl_refl|]. repeat split; constructor.
Qed.

(** X13. [_load_config] changes nothing.  It fails in two cases: when the
    existence test of the path of [config.md] raises, and when the file is
    there and cannot be read.  What it loads is never empty: without a
    file, or when the file lists no extension (no exclude pattern), the
    defaults stand in for the whole list.  Every extension loaded from the
    file is a stripped line of the file that starts with a dot, and no
    extension is loaded twice; every exclude pattern loaded from the file is
    a stripped line that is neither empty nor a comment. *)
Theorem loaded_config_is_well_formed (dir : Path) (w : World) :
let config_path := joinpath dir CONFIG_FILE in
exists r log,
  Driver._load_config dir w = (r, w, log)
  /\ if exists_raises config_path then
       r = Driver.Stopped (Driver.OSError config_path) /\ log = []
     else if negb (exists_ config_path) then
       r = Driver.Done (mkSelf DEFAULT_EXTENSIONS DEFAULT_EXCLUDES)
       /\ log = [Driver.Say Driver.SaidNoConfig]
     else
       match read_text config_path with
       | None => r = Driver.Stopped (Driver.Exc (FileError config_path)) /\ log = []
       | Some content =>
           let lines := map Py.strip (Py.splitlines content) in
           exists cfg,
             r = Driver.Done cfg
             /\ log = [Driver.Say (Driver.SaidConfig (length (extensions cfg))
                                                     (length (excludes cfg)))]
             /\ extensions cfg <> [] /\ excludes cfg <> []
             /\ NoDup (extensions cfg)
             /\ (extensions cfg = DEFAULT_EXTENSIONS
                 \/ Forall (fun e => Py.startswith e "." = true /\ In e lines)
                           (extensions cfg))
             /\ (excludes cfg = DEFAULT_EXCLUDES
                 \/ Forall (fun x => x <> "" /\ Py.startswith x "#" = false
                                     /\ In x lines)
                           (excludes cfg))
       end.
Proof.
cbv zeta. unfold Driver._load_config.
destruct (exists_raises (joinpath dir CONFIG_FILE));
  [eexists _, _; split; [reflexivity|]; now split|].
destruct (negb (exists_ (joinpath dir CONFIG_FILE))).
- eexists _, _. split; [reflexivity|]. now split.
- destruct (read_text (joinpath dir CONFIG_FILE)) as [content|].
  + destruct (read_config_inv content) as (He & Hn & Hx).
    eexists _, _. split; [reflexivity|]. eexists. split; [reflexivity|].
    cbn [extensions excludes]. split; [reflexivity|].
    destruct (seen_extensions (read_config content)) as [|e es] eqn:Ee;
      destruct (seen_excludes (read_config content)) as [|x xs] eqn:Ex;
      cbn [or_default];
      (split; [discriminate|]); (split; [discriminate|]);
      (split; [first [exact Hn | unfold DEFAULT_EXTENSIONS;
                       repeat constructor; simpl; intuition discriminate]|]);
      (split; [first [now left | now right] | first [now left | now right]]).
  + eexists _, _. split; [reflexivity|]. now split.
Qed.

Lemma config_line_inert (c : ConfigLocals) (line : string) :
is_inert line = true -> config_line c line = c.
Proof.
unfold is_inert, config_line. intros H.
apply andb_true_iff in H. destruct H as [H H3].
apply andb_true_iff in H. destruct H as [H1 H2].
apply negb_true_iff in H1, H2. now rewrite H1, H2, H3.
Qed.

(** X14. Blank lines and comment lines of [config.md] are inert, headings
    other than the two section headings included: taking them out of the
    file changes nothing of what [_load_config] reads.  In particular a
    heading the loader does not know does not close the section it is in:
    the lines below it still go to that section. *)
Theorem config_comments_are_inert (lines : list string) (c : ConfigLocals) :
fold_left config_line (filter (fun line => negb (is_inert line)) lines) c
= fold_left config_line lines c.
Proof.
revert c. induction lines as [|line lines IH]; intros c; [reflexivity|].
simpl. destruct (is_inert line) eqn:E; simpl.
- now rewrite (config_line_inert c line E).
- apply IH.
Qed.

(* ---------------------------------------------------------------- *)
(** ** Reasoning about the driver *)

Lemma passes_app (l1 l2 : list Step) :
Driver.passes (l1 ++ l2) = Driver.passes l1 ++ Driver.passes l2.
Proof. apply flat_map_app. Qed.

Lemma passes_lifted (l : list Event) : Driver.passes (map Driver.Pass l) = l.
Proof. induction l as [|ev l IH]; simpl; [reflexivity | now rewrite IH]. Qed.

Lemma lifted_no_summary (l : list Event) :
forallb (fun st => negb (Driver.is_summary st)) (map Driver.Pass l) = true.
Proof. induction l as [|ev l IH]; simpl; [reflexivity | exact IH]. Qed.

Lemma dbind_inv {A B} (m : D A) (f : A -> D B) w r w' l :
Driver.bind m f w = (r, w', l) ->
(exists a w1 l1 l2,
    m w = (Driver.Done a, w1, l1) /\ f a w1 = (r, w', l2) /\ l = l1 ++ l2)
\/ (exists s, m w = (Driver.Stopped s, w', l) /\ r = Driver.Stopped s).
Proof.
unfold Driver.bind. destruct (m w) as [[[a|s] w1] l1].
- destruct (f a w1) as [[r2 w2] l2] eqn:E. intros H. inversion H; subst.
  left. now exists a, w1, l1, l2.
- intros H. inversion H; subst. right. now exists s.
Qed.

Lemma dbind_say {B} (m : Driver.Said) (f : unit -> D B) w :
Driver.bind (Driver.say m) f w
= let '(r, w', l) := f tt w in (r, w', Driver.Say m :: l).
Proof. unfold Driver.bind, Driver.say. now destruct (f tt w) as [[r w'] l]. Qed.

Lemma lift_inv {A} (m : @M Path R A) w r w' l :
Driver.lift m w = (r, w', l) ->
exists r0 l0,
  m w = (r0, w', l0) /\ l = map Driver.Pass l0
  /\ r = match r0 with
         | Ok a => Driver.Done a
         | Raise e => Driver.Stopped (Driver.Exc e)
         end.
Proof.
unfold Driver.lift. destruct (m w) as [[[a|e] w1] l1]; intros H; inversion H; subst;
  eexists _, _; repeat split.
Qed.

Section DSat.

Variable P : World -> World -> list Event -> Prop.
Hypothesis P_nil : forall w, P w w [].
Hypothesis P_app :
  forall w1 w2 w3 l1 l2, P w1 w2 l1 -> P w2 w3 l2 -> P w1 w3 (l1 ++ l2).

Lemma dsat_ret {A} (a : A) : Driver.dsat P (@Driver.ret Path R A a).
Proof. intros w r w' l H. inversion H; subst. apply P_nil. Qed.

Lemma dsat_stop {A} (s : Driver.Stop) : Driver.dsat P (@Driver.stop Path R A s).
Proof. intros w r w' l H. inversion H; subst. apply P_nil. Qed.

Lemma dsat_say (m : Driver.Said) : Driver.dsat P (@Driver.say Path R m).
Proof. intros w r w' l H. inversion H; subst. apply P_nil. Qed.

Lemma dsat_gets {A} (g : World -> A) : Driver.dsat P (@Driver.gets Path R A g).
Proof. intros w r w' l H. inversion H; subst. apply P_nil. Qed.

Lemma dsat_lift {A} (m : @M Path R A) : sat P m -> Driver.dsat P (Driver.lift m).
Proof.
intros Hm w r w' l H. apply lift_inv in H. destruct H as (r0 & l0 & E & -> & _).
rewrite passes_lifted. exact (Hm _ _ _ _ E).
Qed.

Lemma dsat_bind {A B} (m : D A) (f : A -> D B) :
Driver.dsat P m -> (forall a, Driver.dsat P (f a)) -> Driver.dsat P (Driver.bind m f).
Proof.
intros Hm Hf w r w' l H. apply dbind_inv in H.
destruct H as [(a & w1 & l1 & l2 & E1 & E2 & ->) | (s & E & ->)].
- rewrite passes_app. eapply P_app; [eapply Hm | eapply Hf]; eassumption.
- eapply Hm; eassumption.
Qed.

Lemma dsat_for_each {X S} (xs : list X) (body : X -> S -> D S) :
(forall x s, Driver.dsat P (body x s)) -> forall s, Driver.dsat P (Driver.for_each xs body s).
Proof.
intros Hb. induction xs as [|x xs IH]; intros s; simpl.
- apply dsat_ret.
- apply dsat_bind; [apply Hb | exact IH].
Qed.

End DSat.

(* ---------------------------------------------------------------- *)
(** ** All collections *)

Variable self : Syncer Path.

Lemma dry_sync_one_harmless force md totals :
Driver.dsat harmless (Driver.sync_one PATH_PREFIX_MAP self force true md totals).
Proof.
unfold Driver.sync_one. destruct totals as [[ta tu] tr].
apply (dsat_bind harmless harmless_app).
- apply (dsat_lift harmless). apply dry_pass_harmless.
- intros [[a u] r]. apply (dsat_ret harmless harmless_nil).
Qed.

(** X15. [sync_all] in dry-run mode is harmless as a whole: whatever the
    number of collections and however the run ends, no pass creates a
    collection, uploads, attaches, detaches or purges, and the cache file is
    neither written nor changed. *)
Theorem dry_sync_all_is_harmless
      (force : bool) (w w' : World) (r : Driver.Outcome unit) (log : list Step) :
Driver.sync_all PATH_PREFIX_MAP self force true w = (r, w', log) ->
cache_file w' = cache_file w
/\ forallb (fun ev => negb (is_mutation ev || is_save ev)) (Driver.passes log) = true.
Proof.
revert w r w' log.
change (Driver.dsat harmless (Driver.sync_all PATH_PREFIX_MAP self force true)).
unfold Driver.sync_all.
repeat (apply (dsat_bind harmless harmless_app);
        [apply (dsat_say harmless harmless_nil) | intros _]).
destruct (api_key self =? "")%string.
- repeat (apply (dsat_bind harmless harmless_app);
          [apply (dsat_say harmless harmless_nil) | intros _]).
  apply (dsat_stop harmless harmless_nil).
- destruct (Driver.md_files self) as [|md mds].
  + apply (dsat_say harmless harmless_nil).
  + apply (dsat_bind harmless harmless_app);
      [apply (dsat_say harmless harmless_nil) | intros _].
    apply (dsat_bind harmless harmless_app).
    * apply (dsat_for_each harmless harmless_nil harmless_app).
      intros x s. apply dry_sync_one_harmless.
    * intros [[a u] rm]. apply (dsat_say harmless harmless_nil).
Qed.

(** The loop of [sync_all] over the definitions. *)
Lemma totals_loop force dry_run (mds : list Path) :
forall totals (w : World) r w' l,
  Driver.for_each mds (Driver.sync_one PATH_PREFIX_MAP self force dry_run) totals w
  = (r, w', l) ->
  l = map Driver.Pass (Driver.passes l)
  /\ match r with
     | Driver.Done (a, u, rm) =>
         let '(ta, tu, tr) := totals in
         if dry_run then
           a = ta + list_sum (map (fun md =>
                 match read_text md with
                 | Some content =>
                     length (concat (map (resolve_files PATH_PREFIX_MAP (settings self))
                                         (path_references content)))
                 | None => 0
                 end) mds)
           /\ u = tu /\ rm = tr
         else a + u = ta + tu + cache_writes (Driver.passes l)
     | Driver.Stopped s =>
         exists md p,
           In md mds /\ s = Driver.Exc (FileError p)
           /\ ((p = md /\ read_text md = None)
               \/ (dry_run = false /\ read_bytes p = None /\
                   exists content,
                     read_text md = Some content
                     /\ In p (concat (map (resolve_files PATH_PREFIX_MAP (settings self))
                                          (path_references content)))))
     end.
Proof.
induction mds as [|md mds IH]; intros [[ta tu] tr] w r w' l H.
- simpl in H. inversion H; subst. split; [reflexivity|].
  destruct dry_run; simpl; [repeat split; lia|].
  change (cache_writes (@nil Event)) with 0. lia.
- simpl in H. apply dbind_inv in H.
  destruct H as [(t1 & w1 & l1 & l2 & E1 & E2 & ->) | (s & E & ->)].
  + unfold Driver.sync_one in E1. apply dbind_inv in E1.
    destruct E1 as [([[a u] rm] & w0 & la & lb & Ea & Eb & ->) | (s & _ & Es)];
      [|discriminate].
    inversion Eb; subst. clear Eb.
    apply lift_inv in Ea. destruct Ea as (r0 & l0 & Erun & -> & Er0).
    destruct r0 as [counts|e]; [|discriminate]. inversion Er0; subst counts.
    destruct (IH _ _ _ _ _ E2) as (Hl2 & Hr).
    rewrite app_nil_r, passes_app, passes_lifted, map_app, <- Hl2.
    split; [reflexivity|].
    destruct (read_text md) as [content|] eqn:Eread;
      [|rewrite (unreadable_definition _ _ md force dry_run w Eread) in Erun;
        discriminate].
    destruct r as [[[a' u'] rm']|s].
    * destruct dry_run.
      -- destruct (dry_pass_counts PATH_PREFIX_MAP (settings self) md force w
                     content Eread) as (wd & ld & Ed & _).
         rewrite Ed in Erun. inversion Erun; subst.
         destruct Hr as (-> & -> & ->). simpl. rewrite Eread. repeat split; lia.
      -- destruct (parse_definition_run PATH_PREFIX_MAP (settings self) md content w Eread)
           as [lp Hparse].
         destruct (live_pass_counts PATH_PREFIX_MAP (settings self) md force w w w1
                     _ lp l0 a u rm Hparse Erun) as (Hc & _).
         rewrite cache_writes_app. lia.
    * destruct Hr as (md' & p & Hin & Hs & Hp). exists md', p.
      split; [now right|]. now split.
  + unfold Driver.sync_one in E. apply dbind_inv in E.
    destruct E as [([[a u] rm] & w0 & la & lb & Ea & Eb & ->) | (s' & Ea & Es)];
      [discriminate|].
    inversion Es; subst s'. clear Es.
    apply lift_inv in Ea. destruct Ea as (r0 & l0 & Erun & -> & Er0).
    destruct r0 as [counts|e]; [discriminate|]. inversion Er0; subst s.
    rewrite passes_lifted. split; [reflexivity|].
    destruct (pass_failure PATH_PREFIX_MAP (settings self) md force dry_run w w' e l0 Erun)
      as (_ & _ & [(-> & Hread & _) | (-> & content & p & Hread & Hp & -> & Hbytes)]).
    * exists md, md. split; [now left|]. split; [reflexivity|]. now left.
    * exists md, p. split; [now left|]. split; [reflexivity|]. right.
      split; [reflexivity|]. split; [exact Hbytes|]. now exists content.
Qed.

(** The steps of [sync_all] once the API key is known to be set and there
    is a definition to sync. *)
Lemma sync_all_runs force dry_run (w : World) r w' log :
api_key self <> "" -> Driver.md_files self <> [] ->
Driver.sync_all PATH_PREFIX_MAP self force dry_run w = (r, w', log) ->
exists rl ll,
  Driver.for_each (Driver.md_files self)
    (Driver.sync_one PATH_PREFIX_MAP self force dry_run) (0, 0, 0) w = (rl, w', ll)
  /\ let head := [Driver.Say Driver.SaidTitle; Driver.Say Driver.SaidRule;
                  Driver.Say (Driver.SaidKnowledgeDir (knowledge_dir self));
                  Driver.Say (Driver.SaidApiUrl (api_url self));
                  Driver.Say (Driver.SaidFound (length (Driver.md_files self)))] in
     match rl with
     | Driver.Done (a, u, rm) =>
         r = Driver.Done tt
         /\ log = head ++ ll ++ [Driver.Say (Driver.SaidSummary dry_run a u rm)]
     | Driver.Stopped s => r = Driver.Stopped s /\ log = head ++ ll
     end.
Proof.
intros Hkey Hmds. unfold Driver.sync_all. rewrite !dbind_say.
destruct (String.eqb_spec (api_key self) "") as [E|_]; [contradiction|].
destruct (Driver.md_files self) as [|md mds] eqn:Emd; [contradiction|].
rewrite dbind_say. unfold Driver.bind at 1.
destruct (Driver.for_each (md :: mds) _ (0, 0, 0) w) as [[[[[a u] rm]|s] w1] ll].
- intros H. inversion H; subst. exists (Driver.Done (a, u, rm)), ll.
  split; [reflexivity|]. now split.
- intros H. inversion H; subst. exists (Driver.Stopped s), ll.
  split; [reflexivity|]. now split.
Qed.

(** A loop of [sync_all] that stops does so with the exception of the pass
    it made last. *)
Lemma stopped_loop force dry_run (mds : list Path) :
forall totals (w : World) s w' l,
  Driver.for_each mds (Driver.sync_one PATH_PREFIX_MAP self force dry_run) totals w
  = (Driver.Stopped s, w', l) ->
  exists md wa e la l0,
    In md mds /\ s = Driver.Exc e
    /\ sync_collection PATH_PREFIX_MAP (settings self) md force dry_run wa
       = (Raise e, w', la)
    /\ Driver.passes l = l0 ++ la.
Proof.
induction mds as [|md mds IH]; intros [[ta tu] tr] w s w' l H.
- simpl in H. discriminate.
- simpl in H. apply dbind_inv in H.
  destruct H as [(t1 & w1 & l1 & l2 & E1 & E2 & ->) | (s0 & E & Hs)].
  + destruct (IH _ _ _ _ _ E2) as (md' & wa & e & la & l0 & Hin & -> & Erun & Hl).
    exists md', wa, e, la, (Driver.passes l1 ++ l0).
    split; [now right|]. split; [reflexivity|]. split; [exact Erun|].
    now rewrite passes_app, Hl, app_assoc.
  + inversion Hs; subst s0. unfold Driver.sync_one in E. apply dbind_inv in E.
    destruct E as [([[a u] rm] & w0 & la & lb & Ea & Eb & ->) | (s' & Ea & Es)];
      [discriminate|].
    inversion Es; subst s'. apply lift_inv in Ea.
    destruct Ea as (r0 & l0 & Erun & -> & Er0).
    destruct r0 as [c|e]; [discriminate|]. inversion Er0; subst s.
    exists md, w, e, l0, []. split; [now left|]. split; [reflexivity|].
    split; [exact Erun|]. now rewrite passes_lifted.
Qed.

(** X16. When [sync_all] does not return, no summary line has been
    printed.  It exits only with status 1 and only for want of an API key,
    and without a key it always ends so, before anything is read or
    requested.  An exception that ends it is the exception of the pass over
    one of the definitions, passed on as it is: that pass is the last thing
    done, the world is as it left it, and the definitions after it are not
    synced. *)
Theorem sync_all_passes_failures_on
      (force dry_run : bool) (w w' : World) (s : Driver.Stop) (log : list Step) :
Driver.sync_all PATH_PREFIX_MAP self force dry_run w = (Driver.Stopped s, w', log) ->
forallb (fun st => negb (Driver.is_summary st)) log = true
/\ (api_key self = "" ->
      s = Driver.SystemExit 1 /\ w' = w /\ Driver.passes log = [])
/\ (forall code, s = Driver.SystemExit code -> code = 1 /\ api_key self = "")
/\ (forall e, s = Driver.Exc e ->
      api_key self <> ""
      /\ exists md wa la l0,
           In md (Driver.md_files self)
           /\ sync_collection PATH_PREFIX_MAP (settings self) md force dry_run wa
              = (Raise e, w', la)
           /\ Driver.passes log = l0 ++ la).
Proof.
intros Hrun.
destruct (String.eqb_spec (api_key self) "") as [Ekey|Ekey].
- unfold Driver.sync_all in Hrun. rewrite !dbind_say in Hrun.
  rewrite Ekey in Hrun. simpl in Hrun. inversion Hrun; subst.
  split; [reflexivity|]. split; [now repeat split|].
  split; [intros code E; inversion E; now split | discriminate].
- destruct (Driver.md_files self) as [|md mds] eqn:Emd.
  + unfold Driver.sync_all in Hrun. rewrite !dbind_say in Hrun.
    rewrite Emd in Hrun.
    destruct (String.eqb_spec (api_key self) "") as [E|_]; [contradiction|].
    discriminate.
  + assert (Hne : Driver.md_files self <> []) by (rewrite Emd; discriminate).
    destruct (sync_all_runs force dry_run w _ w' log Ekey Hne Hrun)
      as (rl & ll & El & Hlog).
    rewrite Emd in *.
    destruct rl as [[[a u] rm]|s']; [destruct Hlog as [Hr _]; discriminate|].
    destruct Hlog as [Hr ->]. inversion Hr; subst s'.
    destruct (totals_loop force dry_run (md :: mds) _ _ _ _ _ El) as (Hll & _).
    destruct (stopped_loop force dry_run (md :: mds) _ _ _ _ _ El)
      as (md' & wa & e & la & l0 & Hin & -> & Erun & Hl).
    split; [rewrite Hll; simpl; apply lifted_no_summary|].
    split; [intros E; contradiction|].
    split; [discriminate|].
    intros e' E. inversion E; subst e'. split; [exact Ekey|].
    exists md', wa, la, l0. split; [exact Hin|]. split; [exact Erun|].
    rewrite passes_app. exact Hl.
Qed.

(** X17. When [sync_all] returns after syncing, the summary is its last
    line, and the totals it prints are tied to what the passes did.  In a
    live run, added plus updated is the number of cache entries written by
    the passes of the run.  In a dry run, updated and removed are always 0
    and added is the number of files all definitions resolve to: the
    summary of a dry run does not depend on the cache or on the remote
    store. *)
Theorem summary_totals
      (force dry_run : bool) (w w' : World) (log : list Step) :
api_key self <> "" -> Driver.md_files self <> [] ->
Driver.sync_all PATH_PREFIX_MAP self force dry_run w = (Driver.Done tt, w', log) ->
exists l0 a u rm,
  log = l0 ++ [Driver.Say (Driver.SaidSummary dry_run a u rm)]
  /\ forallb (fun st => negb (Driver.is_summary st)) l0 = true
  /\ if dry_run then
       u = 0 /\ rm = 0
       /\ a = list_sum (map (fun md =>
                match read_text md with
                | Some content =>
                    length (concat (map (resolve_files PATH_PREFIX_MAP (settings self))
                                        (path_references content)))
                | None => 0
                end) (Driver.md_files self))
     else a + u = cache_writes (Driver.passes log).
Proof.
intros Hkey Hmds Hrun.
destruct (sync_all_runs force dry_run w _ w' log Hkey Hmds Hrun)
  as (rl & ll & El & Hlog).
destruct rl as [[[a u] rm]|s]; [|destruct Hlog as [Hr _]; discriminate].
destruct Hlog as [_ ->].
destruct (totals_loop force dry_run _ _ _ _ _ _ El) as (Hll & Hs).
eexists (_ ++ ll), a, u, rm. split; [now rewrite <- app_assoc|].
split; [rewrite forallb_app, Hll; simpl; apply lifted_no_summary|].
simpl in Hs. destruct dry_run.
- destruct Hs as (-> & -> & ->). now repeat split.
- rewrite !passes_app. simpl. rewrite app_nil_r. exact Hs.
Qed.

(* ---------------------------------------------------------------- *)
(** ** The watcher *)

Lemma find_none {X} (f : X -> bool) (l : list X) :
(forall x, In x l -> f x = false) -> find f l = None.
Proof.
induction l as [|x l IH]; intros H; [reflexivity|]. simpl.
rewrite (H x) by now left. apply IH. intros y Hy. apply H. now right.
Qed.

(** One definition of an idle round. *)
Lemma watch_file_idle (md : Path) (last_check : Py.dict Z) (w : World)
      (t seen : Z) (content : string) :
st_mtime md = Some t ->
Py.get (path_name md) last_check = Some seen -> (t <= seen)%Z ->
read_text md = Some content ->
(forall p,
   In p (concat (map (resolve_files PATH_PREFIX_MAP (settings self))
                     (path_references content))) ->
   Driver.source_changed (collection_of (cache w) (path_stem md)) p = false) ->
exists lp,
  Driver.watch_file PATH_PREFIX_MAP self md last_check w
  = (Driver.Done (Py.set (path_name md) t last_check), w, map Driver.Pass lp)
  /\ forallb is_print lp = true.
Proof.
intros Hmt Hget Hle Hread Hsame.
destruct (parse_definition_run PATH_PREFIX_MAP (settings self) md content w Hread)
  as [lp Hparse].
destruct (parse_definition_printing PATH_PREFIX_MAP (settings self) md _ _ _ _ Hparse)
  as [_ Hlp].
exists lp. split; [|exact Hlp].
unfold Driver.watch_file. rewrite Hmt, Hget.
assert (Hgt : (t >? seen)%Z = false)
  by (rewrite Z.gtb_ltb; apply Z.ltb_ge; exact Hle).
rewrite Hgt.
unfold Driver.bind, Driver.ret, Driver.lift, Driver.gets. rewrite Hparse.
rewrite (find_none _ _ Hsame). simpl. now rewrite app_nil_r.
Qed.

Lemma idle_loop (w : World) (mds : list Path) :
forall last_check : Py.dict Z,
  NoDup (map path_name mds) ->
  (forall md, In md mds ->
     exists t seen, st_mtime md = Some t
       /\ Py.get (path_name md) last_check = Some seen /\ (t <= seen)%Z) ->
  (forall md, In md mds ->
     exists content, read_text md = Some content
       /\ forall p,
            In p (concat (map (resolve_files PATH_PREFIX_MAP (settings self))
                              (path_references content))) ->
            Driver.source_changed (collection_of (cache w) (path_stem md)) p = false) ->
  exists last_check' lp,
    Driver.for_each mds (Driver.watch_file PATH_PREFIX_MAP self) last_check w
    = (Driver.Done last_check', w, map Driver.Pass lp)
    /\ forallb is_print lp = true
    /\ (forall md, In md mds -> Py.get (path_name md) last_check' = st_mtime md)
    /\ (forall name, ~ In name (map path_name mds) ->
          Py.get name last_check' = Py.get name last_check).
Proof.
induction mds as [|md mds IH]; intros last_check Hnd Htime Hsrc.
- exists last_check, []. repeat split. intros md [].
- inversion Hnd as [|x xs Hnotin Hnd']; subst.
  destruct (Htime md (or_introl eq_refl)) as (t & seen & Hmt & Hget & Hle).
  destruct (Hsrc md (or_introl eq_refl)) as (content & Hread & Hsame).
  destruct (watch_file_idle md last_check w t seen content Hmt Hget Hle Hread Hsame)
    as (lp1 & E1 & Hp1).
  destruct (IH (Py.set (path_name md) t last_check) Hnd') as (last' & lp2 & E2 & Hp2 & Hin2 & Hout2).
  + intros md' Hin'. destruct (Htime md' (or_intror Hin')) as (t' & seen' & Hmt' & Hget' & Hle').
    exists t', seen'. split; [exact Hmt'|]. split; [|exact Hle'].
    rewrite get_set_other; [exact Hget'|]. intros E. apply Hnotin. rewrite E.
    now apply in_map.
  + intros md' Hin'. exact (Hsrc md' (or_intror Hin')).
  + exists last', (lp1 ++ lp2). simpl. unfold Driver.bind. rewrite E1, E2.
    split; [now rewrite map_app|]. split; [now rewrite forallb_app, Hp1, Hp2|]. split.
    * intros md' [<-|Hin']; [|now apply Hin2].
      rewrite (Hout2 _ Hnotin), get_set_same. now symmetry.
    * intros name Hname. rewrite Hout2 by (intros Hn; apply Hname; now right).
      apply get_set_other. intros E. apply Hname. now left.
Qed.

(** X18. A round of [watch] is idle when no definition file is newer than
    at the last check, the parser returns for every definition, and no file
    it resolves has a cached hash that differs from its current one: the
    round then makes no request and changes nothing; it only prints the
    parser's warnings again and records the modification times.  A
    resolved file that has no cache entry (a file new in a watched folder,
    or one whose upload failed) does not count as changed, so it does not
    wake the watcher. *)
Theorem idle_watch_round (last_check : Py.dict Z) (w : World) :
NoDup (map path_name (Driver.md_files self)) ->
(forall md, In md (Driver.md_files self) ->
   exists t seen, st_mtime md = Some t
     /\ Py.get (path_name md) last_check = Some seen /\ (t <= seen)%Z) ->
(forall md, In md (Driver.md_files self) ->
   exists files lp,
     _parse_definition PATH_PREFIX_MAP (settings self) md w = (Ok files, w, lp)
     /\ forall p,
          In p files ->
          match entry_of (cache w) (path_stem md) (path_name p) with
          | Some e => hash e = None \/ hash e = Some "" \/ hash e = Some (_file_hash p)
          | None => True
          end) ->
exists last_check' lp,
  Driver.watch_round PATH_PREFIX_MAP self last_check w
  = (Driver.Done last_check', w, map Driver.Pass lp)
  /\ forallb is_print lp = true
  /\ forall md, In md (Driver.md_files self) ->
       Py.get (path_name md) last_check' = st_mtime md.
Proof.
intros Hnd Htime Hsrc.
destruct (idle_loop w (Driver.md_files self) last_check Hnd Htime)
  as (last' & lp & E & Hp & Hin & _).
- intros md Hmd. destruct (Hsrc md Hmd) as (files & lp0 & Hparse & Hsame).
  destruct (read_text md) as [content|] eqn:Hread;
    [|unfold _parse_definition in Hparse; rewrite Hread in Hparse; discriminate].
  destruct (parse_definition_run PATH_PREFIX_MAP (settings self) md content w Hread)
    as [lp1 Hparse1].
  rewrite Hparse1 in Hparse. inversion Hparse; subst files lp1.
  exists content. split; [reflexivity|]. intros p Hp. specialize (Hsame p Hp).
  unfold Driver.source_changed. unfold entry_of in Hsame.
  destruct (Py.get (path_name p) (collection_of (cache w) (path_stem md))) as [e|];
    [|reflexivity].
  destruct Hsame as [->|[->| ->]]; try reflexivity.
  destruct (_file_hash p); [reflexivity|]. now rewrite String.eqb_refl.
- exists last', lp. split; [exact E|]. now split.
Qed.

End DriverProperties.

(* ================================================================== *)
(** * Properties of the chunking of the indexer *)

Section IndexerProperties.

Variables CHUNK_SIZE CHUNK_OVERLAP : Z.

Local Abbreviation step := (CHUNK_SIZE - CHUNK_OVERLAP)%Z.
Local Abbreviation chunk_loop := (Indexer.chunk_loop CHUNK_SIZE CHUNK_OVERLAP).
Local Abbreviation window := (Indexer.window CHUNK_SIZE CHUNK_OVERLAP).

Lemma window_shift (text : string) (from : Z) (k : nat) :
window text (from + step) k = window text from (S k).
Proof.
unfold Indexer.window. cbv zeta.
replace (from + step + Z.of_nat k * step)%Z with (from + Z.of_nat (S k) * step)%Z
  by lia.
reflexivity.
Qed.

Lemma window_first (text : string) (from : Z) :
window text from 0 = Indexer.slice text from (from + CHUNK_SIZE).
Proof.
unfold Indexer.window. cbv zeta.
replace (from + Z.of_nat 0 * step)%Z with from by lia. reflexivity.
Qed.

(** The loop from [start], with fuel for the characters left. *)
Lemma chunk_loop_spec (text : string) :
(0 < step)%Z ->
forall (fuel : nat) (start : Z) (chunks : list string),
  (Z.of_nat (String.length text) - start < Z.of_nat fuel)%Z ->
  (0 < fuel)%nat ->
  exists m : nat,
    chunk_loop fuel text start chunks
    = Some (chunks ++ filter Indexer.not_blank (map (window text start) (seq 0 m)))
    /\ (Z.of_nat (String.length text) <= start + Z.of_nat m * step)%Z
    /\ (m = 0%nat \/ (start + (Z.of_nat m - 1) * step < Z.of_nat (String.length text))%Z).
Proof.
intros Hstep. induction fuel as [|fuel IH]; intros start chunks Hfuel Hpos; [lia|].
simpl. destruct (start <? Z.of_nat (String.length text))%Z eqn:E.
- apply Z.ltb_lt in E.
  destruct (IH (start + CHUNK_SIZE - CHUNK_OVERLAP)%Z
               (if Indexer.not_blank (Indexer.slice text start (start + CHUNK_SIZE))
                then chunks ++ [Indexer.slice text start (start + CHUNK_SIZE)]
                else chunks))
    as (m & Em & Hup & Hlow); [lia | lia |].
  exists (S m). split; [|split].
  + rewrite Em. f_equal. change (seq 0 (S m)) with (0%nat :: seq 1 m).
    rewrite <- seq_shift. cbn [map]. rewrite map_map. cbn [filter].
    rewrite window_first.
    replace (start + CHUNK_SIZE - CHUNK_OVERLAP)%Z with (start + step)%Z by lia.
    rewrite (map_ext _ _ (window_shift text start)).
    destruct (Indexer.not_blank (Indexer.slice text start (start + CHUNK_SIZE)));
      [now rewrite <- app_assoc | reflexivity].
  + lia.
  + right. destruct Hlow as [->|Hlow]; lia.
- apply Z.ltb_ge in E. exists 0%nat. simpl. rewrite app_nil_r.
  split; [reflexivity|]. split; [lia | now left].
Qed.

(** X21. When the overlap is smaller than the chunk size, [_chunk_text]
    returns after at most one test of its loop condition per character and
    one more, and its chunks are the windows of [CHUNK_SIZE] characters
    taken every [CHUNK_SIZE - CHUNK_OVERLAP] characters from the start of
    the text to its end, in order, without those that are blank.  So no
    chunk is blank and there are at most as many chunks as characters. *)
Theorem chunk_text_returns_the_windows (text : string) :
(CHUNK_OVERLAP < CHUNK_SIZE)%Z ->
exists m : nat,
  let chunks := filter Indexer.not_blank (map (window text 0) (seq 0 m)) in
  (forall fuel, String.length text < fuel ->
     Indexer._chunk_text CHUNK_SIZE CHUNK_OVERLAP fuel text = Some chunks)
  /\ (Z.of_nat (String.length text) <= Z.of_nat m * step)%Z
  /\ (m = 0 \/ ((Z.of_nat m - 1) * step < Z.of_nat (String.length text))%Z)
  /\ m <= String.length text
  /\ length chunks <= String.length text
  /\ Forall (fun chunk => Py.strip chunk <> "") chunks.
Proof.
intros Hlt.
destruct (chunk_loop_spec text ltac:(lia) (S (String.length text)) 0 [])
  as (m & Em & Hup & Hlow); [lia | lia |].
assert (Hm : m <= String.length text) by (destruct Hlow as [->|Hlow]; nia).
exists m. cbv zeta. split; [|split; [lia|split; [exact Hlow|split; [exact Hm|split]]]].
- intros fuel Hfuel. unfold Indexer._chunk_text.
  destruct (chunk_loop_spec text ltac:(lia) fuel 0 []) as (m' & Em' & Hup' & Hlow');
    [lia | lia |].
  rewrite Em'. simpl. f_equal. f_equal. f_equal. f_equal.
  destruct Hlow as [->|Hlow], Hlow' as [->|Hlow']; nia.
- etransitivity; [apply filter_length_le|]. now rewrite length_map, length_seq.
- apply Forall_forall. intros chunk Hin. apply filter_In in Hin.
  destruct Hin as [_ Hnb]. unfold Indexer.not_blank in Hnb.
  apply negb_true_iff in Hnb. now apply String.eqb_neq.
Qed.

(** X22. When the overlap is not smaller than the chunk size, the loop of
    [_chunk_text] never ends on a text that is not empty: its position does
    not get past the start of the text, so whatever the number of
    iterations allowed it is still running. *)
Theorem chunk_text_never_returns (text : string) :
(CHUNK_SIZE <= CHUNK_OVERLAP)%Z -> text <> "" ->
forall fuel, Indexer._chunk_text CHUNK_SIZE CHUNK_OVERLAP fuel text = None.
Proof.
intros Hge Hne fuel. unfold Indexer._chunk_text.
assert (Hlen : (0 < Z.of_nat (String.length text))%Z)
  by (destruct text; [contradiction | simpl; lia]).
assert (H : forall start chunks, (start <= 0)%Z -> chunk_loop fuel text start chunks = None).
{ induction fuel as [|fuel IH]; intros start chunks Hs; [reflexivity|]. simpl.
  replace (start <? Z.of_nat (String.length text))%Z with true
    by (symmetry; apply Z.ltb_lt; lia).
  apply IH. lia. }
apply H. lia.
Qed.

Lemma get_some_lt (s : string) : forall i c, String.get i s = Some c -> i < String.length s.
Proof.
induction s as [|a s IH]; intros i c H; [destruct i; discriminate|].
destruct i as [|i]; simpl in *; [lia|]. apply IH in H. lia.
Qed.

Lemma rstrip_empty (s : string) :
Py.rstrip s = "" -> forall i c, String.get i s = Some c -> Py.is_space c = true.
Proof.
induction s as [|a s IH]; intros H i c Hget; [destruct i; discriminate|].
simpl in H. destruct (Py.rstrip s) eqn:E; [|discriminate].
destruct (Py.is_space a) eqn:Ea; [|discriminate].
destruct i as [|i]; simpl in Hget.
- inversion Hget; subst. exact Ea.
- exact (IH eq_refl i c Hget).
Qed.

Lemma lstrip_head (s : string) :
match Py.lstrip s with
| String c _ => Py.is_space c = false
| EmptyString => forall i c, String.get i s = Some c -> Py.is_space c = true
end.
Proof.
induction s as [|a s IH]; simpl; [intros i c H; destruct i; discriminate|].
destruct (Py.is_space a) eqn:Ea; [|exact Ea].
destruct (Py.lstrip s); [|exact IH].
intros i c Hget. destruct i as [|i]; simpl in Hget.
- inversion Hget; subst. exact Ea.
- exact (IH i c Hget).
Qed.

(** A string that strips to nothing is made of white space. *)
Lemma strip_empty (s : string) :
Py.strip s = "" -> forall i c, String.get i s = Some c -> Py.is_space c = true.
Proof.
unfold Py.strip. intros H. pose proof (lstrip_head s) as Hl.
destruct (Py.lstrip s) as [|a t] eqn:E; [exact Hl|].
rewrite (rstrip_empty _ H 0 a eq_refl) in Hl. discriminate.
Qed.

(** The characters of a slice are those of the text at their place. *)
Lemma slice_get (text : string) (a b : Z) (i : nat) (c : ascii) :
(0 <= a <= Z.of_nat i)%Z -> (Z.of_nat i < b)%Z ->
String.get i text = Some c ->
String.get (i - Z.to_nat a) (Indexer.slice text a b) = Some c.
Proof.
intros Ha Hb Hget. pose proof (get_some_lt _ _ _ Hget) as Hlen.
unfold Indexer.slice, Indexer.slice_bound. cbv zeta.
replace (a <? 0)%Z with false by (symmetry; apply Z.ltb_ge; lia).
replace (b <? 0)%Z with false by (symmetry; apply Z.ltb_ge; lia).
rewrite substring_correct1 by lia.
replace (i - Z.to_nat a + Z.to_nat (Z.min a (Z.of_nat (String.length text)))) with i
  by lia.
exact Hget.
Qed.

(** X23. With an overlap that is not negative and smaller than the chunk
    size, the chunks cover the text: every character of the text that is not
    white space is in one of the chunks returned, at the place it has in the
    window of that chunk. *)
Theorem chunks_cover_the_text (text : string) (i : nat) (c : ascii) :
(0 <= CHUNK_OVERLAP < CHUNK_SIZE)%Z ->
String.get i text = Some c -> Py.is_space c = false ->
exists (chunks : list string) (k : nat),
  Indexer._chunk_text CHUNK_SIZE CHUNK_OVERLAP (S (String.length text)) text
  = Some chunks
  /\ In (window text 0 k) chunks
  /\ (Z.of_nat k * step <= Z.of_nat i < Z.of_nat k * step + CHUNK_SIZE)%Z
  /\ String.get (i - k * Z.to_nat step) (window text 0 k) = Some c.
Proof.
intros Hov Hget Hc. pose proof (get_some_lt _ _ _ Hget) as Hlen.
destruct (chunk_loop_spec text ltac:(lia) (S (String.length text)) 0 [])
  as (m & Em & Hup & Hlow); [lia | lia |].
set (s := Z.to_nat step). assert (Hs : 0 < s) by (unfold s; lia).
assert (Hstep : step = Z.of_nat s) by (unfold s; lia).
set (k := i / s).
assert (Hk : k * s <= i < k * s + s).
{ unfold k. pose proof (Nat.div_mod_eq i s) as Hd.
  pose proof (Nat.mod_upper_bound i s ltac:(lia)) as Hm. nia. }
assert (Hwin : String.get (i - k * s) (window text 0 k) = Some c).
{ unfold Indexer.window. cbv zeta.
  replace (i - k * s) with (i - Z.to_nat (0 + Z.of_nat k * step)) by nia.
  apply slice_get; [nia | nia | exact Hget]. }
exists (filter Indexer.not_blank (map (window text 0) (seq 0 m))), k.
split; [exact Em|]. split; [|split; [nia | exact Hwin]].
apply filter_In. split.
- apply in_map, in_seq. nia.
- unfold Indexer.not_blank. apply negb_true_iff, String.eqb_neq. intros Hblank.
  rewrite (strip_empty _ Hblank _ _ Hwin) in Hc. discriminate.
Qed.

End IndexerProperties.

(* ================================================================== *)
(** * The properties on the fake environment *)

Module Checks.
Import Fake.

Ltac by_running := vm_compute; reflexivity.

(** A first dry run over [notes]: harmless, and its counts are those of the
    first live pass. *)
Lemma dry_run_preview_witness :
let o := run "/k/notes.md" false true w0 in
cache_file (world_of o) = Missing
/\ forallb (fun ev => negb (is_mutation ev)) (log_of o) = true
/\ result_of o = result_of (run "/k/notes.md" false false w0).
Proof.
intros o.
assert (Hdry : sync_collection "" self "/k/notes.md" false true w0
               = (result_of o, world_of o, log_of o)) by by_running.
assert (Hlive : sync_collection "" self "/k/notes.md" false false w0
                = (Ok (1, 0, 0), w_notes,
                   log_of (run "/k/notes.md" false false w0))) by by_running.
destruct (dry_run_preview "" self "/k/notes.md" false w0 _ _ _ Hdry)
  as (Hfile & Hmut & _ & Hcounts).
split; [exact Hfile|]. split; [exact Hmut|].
apply (Hcounts _ _ _ Hlive); [|by_running].
intros kb_id res Hin. vm_compute in Hin.
repeat (destruct Hin as [Hin|Hin]; [try discriminate; inversion Hin; reflexivity|]).
destruct Hin.
Defined.

(** C1, as stated, fails: once [notes] is synced, the live pass skips
    [a.md] and reports nothing, while the dry run, which does not fetch the
    remote listing, reports it as added. *)
Lemma dry_run_counts_differ :
result_of (run "/k/notes.md" false false w_notes) = Ok (0, 0, 0)
/\ result_of (run "/k/notes.md" false true w_notes) = Ok (1, 0, 0).
Proof. split; by_running. Qed.

(** The second pass over [notes] is idle. *)
Lemma second_pass_is_idle_witness :
exists w2 log2,
  run "/k/notes.md" false false w_notes = (Ok (0, 0, 0), w2, log2)
  /\ forallb (fun ev => negb (is_mutation ev)) log2 = true.
Proof.
assert (Hparse : _parse_definition "" self "/k/notes.md" w0
                 = (Ok ["/docs/a.md"], w0, [])) by by_running.
assert (Hrun : sync_collection "" self "/k/notes.md" false false w0
               = (Ok (1, 0, 0), w_notes,
                  log_of (run "/k/notes.md" false false w0))) by by_running.
assert (Hclean : forallb clean (log_of (run "/k/notes.md" false false w0)) = true)
  by by_running.
assert (Hsame : forall p q : string,
          In p ["/docs/a.md"] -> In q ["/docs/a.md"] ->
          path_name p = path_name q -> _file_hash p = _file_hash q).
{ intros p q [<-|[]] [<-|[]] _. reflexivity. }
assert (Hbase : Py.truthy (Py.get (path_stem "/k/notes.md")
                  (bases_of (fst (http_get_knowledge (remote w_notes))))) = true)
  by by_running.
destruct (second_pass_is_idle "" self "/k/notes.md" false w0 w0 w_notes
            ["/docs/a.md"] [] _ (1, 0, 0) Hparse Hrun Hclean Hsame Hbase)
  as (w2 & log2 & E & Hmut & _).
- intros filename. vm_compute. tauto.
- exists w2, log2. split; [exact E | exact Hmut].
Defined.

(** C2, as stated, fails: [clash] names two files called [a.md] with
    different contents.  The first live pass has no failure and the remote
    store then lists the collection and exactly the name [a.md]; still the
    second pass uploads and attaches both files again. *)
Lemma second_pass_uploads_again :
result_of (run "/k/clash.md" false false w0) = Ok (2, 0, 0)
/\ forallb clean (log_of (run "/k/clash.md" false false w0)) = true
/\ Py.get "clash" (bases_of (fst (http_get_knowledge (remote w_clash))))
   = Some "kb-clash"
/\ Py.keys (listing_of (fst (http_get_files "kb-clash" (remote w_clash)))) = ["a.md"]
/\ result_of (run "/k/clash.md" false false w_clash) = Ok (0, 2, 0)
/\ existsb is_mutation (log_of (run "/k/clash.md" false false w_clash)) = true.
Proof. repeat split; by_running. Qed.

(** After [pair], the pass over [notes] finds [b.txt] listed and not
    resolved: one removal, one detach request, no cache entry left. *)
Lemma stale_files_detached_witness :
let o := run "/k/notes.md" false false w_pair in
result_of o = Ok (0, 1, 1)
/\ detaches (log_of o) = [("kb-notes", "file-1")]
/\ entry_of (cache (world_of o)) "notes" "b.txt" = None.
Proof.
intros o.
assert (Hparse : _parse_definition "" self "/k/notes.md" w_pair
                 = (Ok ["/docs/a.md"], w_pair, [])) by by_running.
assert (Hrun : sync_collection "" self "/k/notes.md" false false w_pair
               = (Ok (0, 1, 1), world_of o, log_of o)) by by_running.
assert (Hin : In (GetFiles "kb-notes" (Some [("a.md", "file-0"); ("b.txt", "file-1")]))
                 (log_of o)).
{ vm_compute. do 5 right. left. reflexivity. }
destruct (stale_files_detached "" self "/k/notes.md" false w_pair w_pair _
            ["/docs/a.md"] [] _ 0 1 1 "kb-notes" _ Hparse Hrun Hin)
  as (_ & Hdet & Hnone).
split; [by_running|]. split; [exact Hdet|].
apply (Hnone ("b.txt", "file-1")). vm_compute. left. reflexivity.
Defined.

(** C3, as stated, fails: the remote store refuses to detach [b.txt], and
    its cache entry is deleted all the same. *)
Lemma cache_entry_deleted_though_detach_failed :
let o := run "/k/notes.md" false false w_stuck in
entry_of (cache w_stuck) "notes" "b.txt" = Some (mkEntry (Some "old") (Some "file-1"))
/\ In (PostFileRemove "kb-notes" "file-1" false) (log_of o)
/\ Py.has "b.txt" (listing (remote (world_of o))) = true
/\ entry_of (cache (world_of o)) "notes" "b.txt" = None.
Proof.
intros o. split; [by_running|]. split; [|split; by_running].
vm_compute. do 11 right. left. reflexivity.
Qed.

(** The first attach of [a.md] meets the duplicate-content condition; the
    retry succeeds and the entry holds the new identifier. *)
Lemma duplicate_content_recovery_witness :
let o := process_file false false "kb-notes" [] "notes" "/docs/a.md"
           (mkLocals 0 0 []) w_dup in
result_of o = Ok (mkLocals 1 0 ["a.md"])
/\ entry_of (cache (world_of o)) "notes" "a.md"
   = Some (mkEntry (Some (_file_hash "/docs/a.md")) (Some "file-0")).
Proof.
intros o.
assert (Hrun : process_file false false "kb-notes" [] "notes" "/docs/a.md"
                 (mkLocals 0 0 []) w_dup
               = (result_of o, world_of o, log_of o)) by by_running.
assert (Hsplit : log_of o
                 = firstn 4 (log_of o)
                   ++ PostFileAdd "kb-notes" "file-0"
                        (AddHTTPError 400 "Duplicate content detected")
                   :: skipn 5 (log_of o)) by by_running.
assert (Hpre : forallb (fun ev => negb (is_attach ev)) (firstn 4 (log_of o)) = true)
  by by_running.
destruct (duplicate_content_recovery false "kb-notes" [] "notes" "/docs/a.md"
            (mkLocals 0 0 []) w_dup _ _ _ _ _ _ _ _ Hrun Hsplit Hpre)
  as (content & l' & _ & _ & Hr & _ & Hcases).
split; [by_running|].
simpl in Hcases. destruct Hcases as (resp2 & Hpost & Hsync).
destruct (is_ok resp2) eqn:Hok.
- exact (proj2 Hsync).
- exfalso. vm_compute in Hpost. inversion Hpost; subst; discriminate.
Defined.

(** In the first live pass over [notes] the cache entry of [a.md] comes
    from a logged write. *)
Lemma cache_written_after_confirmation_witness :
entry_of (cache w0) "notes" "a.md"
= Some (mkEntry (Some (_file_hash "/docs/a.md")) (Some "file-0"))
\/ In (CacheSet "notes" "a.md"
         (mkEntry (Some (_file_hash "/docs/a.md")) (Some "file-0")))
      (log_of (run "/k/notes.md" false false w0)).
Proof.
assert (Hrun : sync_collection "" self "/k/notes.md" false false w0
               = (Ok (1, 0, 0), w_notes,
                  log_of (run "/k/notes.md" false false w0))) by by_running.
destruct (cache_written_after_confirmation "" self "/k/notes.md" false false
            w0 w_notes _ _ Hrun) as [_ Htracked].
apply Htracked. by_running.
Defined.



(** [pair] names a directory and a missing file: the parser returns the
    accepted files of the directory, in the order the directory yields
    them, and nothing for the missing file. *)
Lemma parse_definition_concatenates_witness :
result_of (_parse_definition "" self "/k/pair.md" w0)
= Ok (resolve_files "" self "/docs" ++ resolve_files "" self "/gone.md" ++ [])
/\ resolve_files "" self "/docs" = ["/docs/a.md"; "/docs/b.txt"]
/\ resolve_files "" self "/gone.md" = [].
Proof.
assert (Hread : read_text "/k/pair.md" = Some ("/docs" ++ nl ++ "/gone.md")%string)
  by by_running.
assert (Hrun : _parse_definition "" self "/k/pair.md" w0
               = (Ok ["/docs/a.md"; "/docs/b.txt"], w0,
                  log_of (_parse_definition "" self "/k/pair.md" w0)))
  by by_running.
destruct (parse_definition_concatenates "" self "/k/pair.md" _ w0 _ _ _ Hread Hrun)
  as (E & _ & _).
unfold result_of. rewrite Hrun. cbn [fst]. rewrite E.
split; [by_running|]. split; by_running.
Defined.


(** C7, as stated, fails: [twice] names [/docs/a.md] on two lines and the
    parser lists it twice. *)
Lemma parser_keeps_duplicates :
result_of (_parse_definition "" self "/k/twice.md" w0)
= Ok ["/docs/a.md"; "/docs/a.md"]
/\ ~ NoDup ["/docs/a.md"; "/docs/a.md"].
Proof.
split; [by_running|]. intros H. inversion H as [|x l Hnotin _]; subst.
apply Hnotin. left. reflexivity.
Qed.

(** The remote store cannot create [notes]: the live pass stops there. *)
Lemma collection_created_before_files_witness :
let o := run "/k/notes.md" false false w_nocreate in
result_of o = Ok (0, 0, 0)
/\ cache (world_of o) = cache w_nocreate
/\ forallb (fun ev => negb (is_file_op ev)) (log_of o) = true.
Proof.
intros o.
assert (Hparse : _parse_definition "" self "/k/notes.md" w_nocreate
                 = (Ok ["/docs/a.md"], w_nocreate, [])) by by_running.
assert (Hfiles : ["/docs/a.md"] <> @nil string) by discriminate.
assert (Habsent : Py.truthy (Py.get (path_stem "/k/notes.md")
                    (bases_of (fst (http_get_knowledge (remote w_nocreate)))))
                  = false) by by_running.
destruct (collection_created_before_files "" self "/k/notes.md" false
            w_nocreate w_nocreate ["/docs/a.md"] [] Hparse Hfiles Habsent)
  as (created & r & w' & rest & E & _ & Hfail).
assert (Hrun : sync_collection "" self "/k/notes.md" false false w_nocreate
               = (result_of o, world_of o, log_of o)) by by_running.
rewrite Hrun in E. vm_compute in E. inversion E; subst.
destruct (Hfail eq_refl) as (Hr & _ & Hc & _).
split; [exact Hr|]. split; [exact Hc|]. by_running.
Defined.

(** C8, as stated, fails: in a dry run the collection [notes] is missing
    from the remote listing, no creation is requested, and the file is
    processed. *)
Lemma dry_run_creates_nothing :
let o := run "/k/notes.md" false true w0 in
Py.get "notes" (bases_of (fst (http_get_knowledge (remote w0)))) = None
/\ forallb (fun ev => negb (is_mutation ev)) (log_of o) = true
/\ In (Print (MsgAction false "a.md")) (log_of o)
/\ result_of o = Ok (1, 0, 0).
Proof.
intros o. split; [by_running|]. split; [by_running|]. split; [|by_running].
vm_compute. do 4 right. left. reflexivity.
Qed.

Lemma empty_definition_returns_at_once_witness :
_parse_definition "" self "/k/empty.md" w0 = (Ok [], w0, [])
/\ run "/k/empty.md" false false w0
   = (Ok (0, 0, 0), w0,
      [Print (MsgSyncing false "empty"); Print (MsgFound 0)]).
Proof.
assert (H : _parse_definition "" self "/k/empty.md" w0 = (Ok [], w0, []))
  by (vm_compute; reflexivity).
split; [exact H|].
exact (proj1 (empty_definition_returns_at_once "" self "/k/empty.md"
                false false w0 w0 [] H)).
Defined.

(* ---------------------------------------------------------------- *)
(** ** The further properties on the fake *)

(** A host path rewritten to its place in the container. *)
Lemma translate_path_rewrites_witness :
_translate_path "/home/admin:/mnt" "/home/admin/docs/a.md" = "/mnt/docs/a.md"
/\ _translate_path "/home/admin:/mnt" "/srv/docs/a.md" = "/srv/docs/a.md".
Proof.
assert (Hfrom : Py.contains ":" "/home/admin" = false) by by_running.
assert (Hother : Py.startswith "/srv/docs/a.md" "/home/admin" = false) by by_running.
destruct (translate_path_rewrites "/home/admin" "/mnt" Hfrom) as [Hin Hout].
split; [exact (Hin "/docs/a.md") | exact (Hout "/srv/docs/a.md" Hother)].
Defined.

(** [b.txt], found below [/docs], is a regular file with an accepted
    extension that no exclude pattern matches. *)
Lemma parsed_files_are_accepted_witness :
is_file "/docs/b.txt" = true
/\ In (Py.lower (path_suffix "/docs/b.txt")) (extensions self)
/\ forall pattern, In pattern (excludes self) ->
     fnmatch (path_str "/docs/b.txt") pattern = false.
Proof.
assert (Hparse : _parse_definition "" self "/k/pair.md" w0
                 = (Ok ["/docs/a.md"; "/docs/b.txt"], w0,
                    log_of (_parse_definition "" self "/k/pair.md" w0)))
  by by_running.
apply (parsed_files_are_accepted "" self "/k/pair.md" w0 w0 _ _ "/docs/b.txt" Hparse).
right. left. reflexivity.
Defined.

(** The dry run over [pair] reports its two files as added, on a world
    where the live pass would find them synced. *)
Lemma dry_run_counts_every_file_witness :
result_of (run "/k/pair.md" false true w_pair) = Ok (2, 0, 0)
/\ forallb (fun ev => negb (is_get_files ev))
           (log_of (run "/k/pair.md" false true w_pair)) = true.
Proof.
assert (Hparse : _parse_definition "" self "/k/pair.md" w_pair
                 = (Ok ["/docs/a.md"; "/docs/b.txt"], w_pair,
                    log_of (_parse_definition "" self "/k/pair.md" w_pair)))
  by by_running.
assert (Hrun : sync_collection "" self "/k/pair.md" false true w_pair
               = (Ok (2, 0, 0), world_of (run "/k/pair.md" false true w_pair),
                  log_of (run "/k/pair.md" false true w_pair))) by by_running.
destruct (dry_run_counts_every_file "" self "/k/pair.md" false
            w_pair _ _ _ _ _ _ Hparse Hrun) as (_ & Hg).
split; [by_running | exact Hg].
Defined.

(** The forced pass over [pair] on the world where both files are synced
    uploads both again. *)
Lemma forced_pass_uploads_every_file_witness :
sent_files (log_of (run "/k/pair.md" true false w_pair)) = ["/docs/a.md"; "/docs/b.txt"].
Proof.
assert (Hparse : _parse_definition "" self "/k/pair.md" w_pair
                 = (Ok ["/docs/a.md"; "/docs/b.txt"], w_pair,
                    log_of (_parse_definition "" self "/k/pair.md" w_pair)))
  by by_running.
assert (Hrun : sync_collection "" self "/k/pair.md" true false w_pair
               = (Ok (0, 2, 0), world_of (run "/k/pair.md" true false w_pair),
                  log_of (run "/k/pair.md" true false w_pair))) by by_running.
apply (forced_pass_uploads_every_file "" self "/k/pair.md" w_pair w_pair _ _ _ _ _
         "kb-pair" (Some [("a.md", "file-0"); ("b.txt", "file-1")]) Hparse Hrun).
vm_compute. do 4 right. left. reflexivity.
Defined.

(** The first live pass over [notes] leaves a cache file that holds the
    cache it leaves in memory. *)
Lemma live_pass_saves_cache_witness :
cache_file w_notes = Content (json_dumps (cache_to_json (cache w_notes))).
Proof.
assert (Hrun : sync_collection "" self "/k/notes.md" false false w0
               = (Ok (1, 0, 0), w_notes,
                  log_of (run "/k/notes.md" false false w0))) by by_running.
apply (live_pass_saves_cache "" self "/k/notes.md" false w0 w_notes _ _
         "kb-notes" (Some []) Hrun).
vm_compute. do 5 right. left. reflexivity.
Defined.

(** A definition that is not there: the pass raises and the cache file is
    left alone. *)
Lemma failed_pass_keeps_cache_file_witness :
let o := run "/k/missing.md" false false w_notes in
cache_file (world_of o) = cache_file w_notes
/\ forallb (fun ev => negb (is_save ev)) (log_of o) = true.
Proof.
intros o.
assert (Hrun : sync_collection "" self "/k/missing.md" false false w_notes
               = (Raise (FileError "/k/missing.md"), world_of o, log_of o))
  by by_running.
destruct (failed_pass_keeps_cache_file "" self "/k/missing.md" _ false false
            w_notes _ _ Hrun) as (Hfile & Hsave & _).
split; [exact Hfile | exact Hsave].
Defined.

(** The pass over [pair] leaves the cache of [notes] as it was. *)
Lemma other_collections_untouched_witness :
Py.get "notes" (cache (world_of (run "/k/pair.md" false false w_notes)))
= Py.get "notes" (cache w_notes).
Proof.
assert (Hrun : sync_collection "" self "/k/pair.md" false false w_notes
               = (result_of (run "/k/pair.md" false false w_notes),
                  world_of (run "/k/pair.md" false false w_notes),
                  log_of (run "/k/pair.md" false false w_notes))) by by_running.
destruct (other_collections_untouched "" self "/k/pair.md" false false
            w_notes _ _ _ Hrun) as (Hkeep & _).
apply Hkeep. discriminate.
Defined.

(** The first live pass over [pair] counts two files and writes two cache
    entries. *)
Lemma counts_match_cache_writes_witness :
2 + 0 = cache_writes (log_of (run "/k/pair.md" false false w0)) /\ 2 + 0 <= 2.
Proof.
assert (Hparse : _parse_definition "" self "/k/pair.md" w0
                 = (Ok ["/docs/a.md"; "/docs/b.txt"], w0,
                    log_of (_parse_definition "" self "/k/pair.md" w0)))
  by by_running.
assert (Hrun : sync_collection "" self "/k/pair.md" false false w0
               = (Ok (2, 0, 0), w_pair,
                  log_of (run "/k/pair.md" false false w0))) by by_running.
exact (counts_match_cache_writes "" self "/k/pair.md" false w0 w0 w_pair
         _ _ _ 2 0 0 Hparse Hrun).
Defined.

(** What the first live pass over [notes] uploads is the file the
    definition names. *)
Lemma uploads_are_resolved_files_witness :
In "/docs/a.md" ["/docs/a.md"]
/\ is_file "/docs/a.md" = true /\ accepted self "/docs/a.md" = true.
Proof.
assert (Hparse : _parse_definition "" self "/k/notes.md" w0
                 = (Ok ["/docs/a.md"], w0, [])) by by_running.
assert (Hrun : sync_collection "" self "/k/notes.md" false false w0
               = (Ok (1, 0, 0), w_notes,
                  log_of (run "/k/notes.md" false false w0))) by by_running.
assert (Hin : In "/docs/a.md" (sent_files (log_of (run "/k/notes.md" false false w0)))).
{ vm_compute. left. reflexivity. }
exact (proj2 (uploads_are_resolved_files "" self "/k/notes.md" false false
                w0 w0 w_notes _ _ _ _ "/docs/a.md" Hparse Hrun Hin)).
Defined.

(** The first live pass over [notes], with a JSON library that reads what
    it writes: the cache holds the entry of [a.md], and loading the cache
    file afterwards gives that cache back. *)
Lemma saved_cache_loads_back_witness :
let w1 := world_of (sync_collection (JL:=plain_json) "" self "/k/notes.md"
                                    false false w0) in
cache w1
= [("notes", [("a.md", mkEntry (Some "h:alpha000000000") (Some "file-0"))])]
/\ _load_cache (Path:=string) (JL:=plain_json) w1
   = (Ok (cache_to_json (cache w1)), w1, []).
Proof.
intros w1.
assert (Hrun : sync_collection (JL:=plain_json) "" self "/k/notes.md" false false w0
               = (Ok (1, 0, 0), w1,
                  log_of (sync_collection (JL:=plain_json) "" self "/k/notes.md"
                                          false false w0))) by by_running.
assert (Hin : In (GetFiles "kb-notes" (Some []))
                 (log_of (sync_collection (JL:=plain_json) "" self "/k/notes.md"
                                          false false w0))).
{ vm_compute. repeat (first [left; reflexivity | right]). }
assert (Hjson : json_loads (JsonLib:=plain_json)
                  (json_dumps (JsonLib:=plain_json) (cache_to_json (cache w1)))
                = Some (cache_to_json (cache w1))) by by_running.
split; [by_running|].
exact (saved_cache_loads_back (JL:=plain_json) "" self "/k/notes.md" false
         w0 w1 _ _ "kb-notes" (Some []) Hrun Hin Hjson).
Defined.

(** The dry run over [pair] on the world where both files are synced leaves
    the cached entry of its first file as it was. *)
Lemma dry_run_keeps_cache_entries_witness :
entry_of (cache (world_of (run "/k/pair.md" false true w_pair))) "pair" "a.md"
= entry_of (cache w_pair) "pair" "a.md".
Proof.
assert (Hrun : sync_collection "" self "/k/pair.md" false true w_pair
               = (result_of (run "/k/pair.md" false true w_pair),
                  world_of (run "/k/pair.md" false true w_pair),
                  log_of (run "/k/pair.md" false true w_pair))) by by_running.
exact (dry_run_keeps_cache_entries "" self "/k/pair.md" false w_pair _ _ _ Hrun
         "pair" "a.md").
Defined.


End Checks.

(* ================================================================== *)
(** * The properties of the driver on the site *)

Module DriverChecks.

Import Fake.

Ltac by_running := vm_compute; reflexivity.

(** What [_load_config] makes of the site's [config.md]: the line before
    the first heading, the extension without a dot and the comment are
    dropped, the line below the unknown heading is taken as an extension,
    and [.md] is kept once. *)
Example load_config_ex :
Site.load_config
= (Driver.Done (mkSelf [".md"; ".MD"; ".rst"] ["**/drafts/**"]), w0,
   [Driver.Say (Driver.SaidConfig 3 1)]).
Proof. by_running. Qed.

(** The definitions of the site: [config.md] is not one of them. *)
Example md_files_ex :
Driver.md_files (DL:=Site.directory) Site.syncer
= ["/site/faq.md"; "/site/handbook.md"].
Proof. by_running. Qed.

(** The dry run of [sync_all] over the site changes nothing remotely and
    leaves the cache file missing. *)
Lemma dry_sync_all_is_harmless_witness :
let o := Site.run_all Site.syncer false true w0 in
cache_file (snd (fst o)) = cache_file w0
/\ forallb (fun ev => negb (is_mutation ev || is_save ev)) (Driver.passes (snd o)) = true.
Proof.
intros o.
assert (Hrun : Driver.sync_all (FS:=Site.file_system) (DL:=Site.directory)
                 "" Site.syncer false true w0
               = (fst (fst o), snd (fst o), snd o)) by by_running.
exact (dry_sync_all_is_harmless (FS:=Site.file_system) (DL:=Site.directory)
         "" Site.syncer false w0 _ _ _ Hrun).
Defined.

(** The configuration of a directory that cannot be examined. *)
Example load_config_locked :
@Driver._load_config string Site.file_system Site.directory Remote "/locked" w0
= (Driver.Stopped (Driver.OSError "/locked/config.md"), w0, []).
Proof. by_running. Qed.

(** Without an API key [sync_all] exits with status 1 and does nothing. *)
Example sync_all_without_key :
fst (Site.run_all Site.anonymous false false w0)
= (Driver.Stopped (Driver.SystemExit 1), w0).
Proof. by_running. Qed.

(** The one definition of [/vault] cannot be read: [sync_all] stops with
    the exception of the pass over it and prints no summary. *)
Lemma sync_all_passes_failures_on_witness :
let o := Site.run_all Site.vault false false w0 in
fst (fst o) = Driver.Stopped (Driver.Exc (FileError "/vault/sealed.md"))
/\ forallb (fun st => negb (Driver.is_summary st)) (snd o) = true
/\ exists md wa la l0,
     sync_collection (FS:=Site.file_system) "" (settings Site.vault) md false false wa
     = (Raise (FileError "/vault/sealed.md"), snd (fst o), la)
     /\ Driver.passes (snd o) = l0 ++ la.
Proof.
intros o.
assert (Hrun : Driver.sync_all (FS:=Site.file_system) (DL:=Site.directory)
                 "" Site.vault false false w0
               = (Driver.Stopped (Driver.Exc (FileError "/vault/sealed.md")),
                  snd (fst o), snd o)) by by_running.
destruct (sync_all_passes_failures_on (FS:=Site.file_system) (DL:=Site.directory)
            "" Site.vault false false w0 _ _ _ Hrun) as (Hsum & _ & _ & Hexc).
destruct (Hexc _ eq_refl) as (_ & md & wa & la & l0 & _ & Erun & Hl).
split; [by_running|]. split; [exact Hsum|].
exists md, wa, la, l0. split; [exact Erun | exact Hl].
Defined.

(** The dry run over the site ends with a summary of three added files and
    nothing updated or removed. *)
Lemma summary_totals_witness :
exists l0 a,
  snd (Site.run_all Site.syncer false true w0)
  = l0 ++ [Driver.Say (Driver.SaidSummary true a 0 0)]
  /\ a = 3.
Proof.
assert (Hkey : api_key Site.syncer <> "") by discriminate.
assert (Hmds : Driver.md_files (DL:=Site.directory) Site.syncer <> [])
  by (vm_compute; discriminate).
assert (Hrun : Driver.sync_all (FS:=Site.file_system) (DL:=Site.directory)
                 "" Site.syncer false true w0
               = (Driver.Done tt, snd (fst (Site.run_all Site.syncer false true w0)),
                  snd (Site.run_all Site.syncer false true w0))) by by_running.
destruct (summary_totals (FS:=Site.file_system) (DL:=Site.directory)
            "" Site.syncer false true w0 _ _ Hkey Hmds Hrun)
  as (l0 & a & u & rm & Hlog & _ & Hu & Hrm & Ha).
exists l0, a. split; [rewrite Hlog, Hu, Hrm; reflexivity|]. rewrite Ha. by_running.
Defined.

(** Once the site is synced and nothing has changed, a round of the
    watcher returns with the world as it was. *)
Lemma idle_watch_round_witness :
exists last_check' lp,
  Site.run_round Site.checked Site.w_synced
  = (Driver.Done last_check', Site.w_synced, map Driver.Pass lp).
Proof.
destruct (idle_watch_round (FS:=Site.file_system) (DL:=Site.directory)
            "" Site.syncer Site.checked Site.w_synced)
  as (last' & lp & E & _).
- vm_compute. repeat constructor; simpl; intuition discriminate.
- intros md Hin. vm_compute in Hin.
  destruct Hin as [<-|[<-|[]]]; exists 7%Z, 7%Z; repeat split; discriminate.
- intros md Hin. vm_compute in Hin.
  destruct Hin as [<-|[<-|[]]]; eexists _, _; (split; [by_running|]);
    intros p Hp; vm_compute in Hp;
    repeat (destruct Hp as [<-|Hp]; [vm_compute; auto|]); destruct Hp.
- exists last', lp. exact E.
Defined.

End DriverChecks.

(* ================================================================== *)
(** * The chunking on examples *)

Module IndexerChecks.

(** Chunks of four characters with an overlap of one, on a text of eight
    characters: three windows, the last one shorter. *)
Lemma chunk_text_returns_the_windows_witness :
Indexer._chunk_text 4 1 9 "abcdefgh" = Some ["abcd"; "defg"; "gh"].
Proof.
assert (Hlt : (1 < 4)%Z) by reflexivity.
destruct (chunk_text_returns_the_windows 4 1 "abcdefgh" Hlt)
  as (m & Hrun & Hup & Hlow & _).
assert (Hm : m = 3) by (simpl in Hup, Hlow; lia).
subst m. apply (Hrun 9). simpl. lia.
Defined.

(** With an overlap equal to the chunk size the loop is still running after
    a thousand iterations on a text of two characters. *)
Lemma chunk_text_never_returns_witness :
Indexer._chunk_text 2 2 1000 "ab" = None.
Proof.
assert (Hge : (2 <= 2)%Z) by lia.
assert (Hne : "ab"%string <> ""%string) by discriminate.
exact (chunk_text_never_returns 2 2 "ab" Hge Hne 1000).
Defined.

(** The sixth character of the text is in the second chunk, at its third
    place. *)
Lemma chunks_cover_the_text_witness :
exists (chunks : list string) (k : nat),
  Indexer._chunk_text 4 1 9 "abcdefgh" = Some chunks
  /\ In (Indexer.window 4 1 "abcdefgh" 0 k) chunks
  /\ (Z.of_nat k * 3 <= 5 < Z.of_nat k * 3 + 4)%Z
  /\ String.get (5 - k * 3) (Indexer.window 4 1 "abcdefgh" 0 k) = Some "f"%char.
Proof.
assert (Hov : (0 <= 1 < 4)%Z) by lia.
assert (Hget : String.get 5 "abcdefgh" = Some "f"%char) by reflexivity.
assert (Hc : Py.is_space "f" = false) by reflexivity.
exact (chunks_cover_the_text 4 1 "abcdefgh" 5 "f" Hov Hget Hc).
Defined.

End IndexerChecks.
